(** * benc.h: a shallow embedding of the single-header benchmarking harness

    The development follows src/benc.h top to bottom: the human-readable
    number printer, the dynamic array of pointers, the streaming statistics,
    suites and measurements, the comparison report and the sampling loop.

    Conventions.
    - [uint32_t], [uint64_t] and [size_t] are [Z] with the wrap-around written
      out ([wrap32], [wrap64]); [int] is [Z] and its overflow is undefined
      behaviour.
    - C [float] is IEEE 754 binary32, modelled with the Standard Library's
      [SpecFloat] operations at precision 24 and maximal exponent 128, every
      operation rounding to nearest-even (FLT_EVAL_METHOD = 0).  The statistics
      are written once over a small arithmetic interface ([FloatOps]) so that
      the very same code can also be read in exact rational arithmetic
      ([Qc]), which is the reading in which the Welford identities are
      equalities.
    - The heap of measurements, the output sinks, the monotonic clock and the
      allocator are explicit in a [world]; code that can hit undefined
      behaviour or loop for ever runs in the monad [M]. *)

From Stdlib Require Import ZArith QArith Qcanon Qpower Floats.SpecFloat DecimalString.
From Stdlib Require Import Sorting.Sorted Sorting.Permutation Lia Lqa.
From stdpp Require Import base option list gmap strings.

#[local] Open Scope Z_scope.

(** ** Machine integers *)

Definition wrap32 (z : Z) : Z := z mod 2 ^ 32.
Definition wrap64 (z : Z) : Z := z mod 2 ^ 64.
Definition INT_MAX : Z := 2 ^ 31 - 1.

(** [#define NANOS 1], [MICROS NANOS * 1000], ... : the macros are not
    parenthesised, so [x * SECONDS] is [x * 1 * 1000 * 1000 * 1000].  As an
    integer constant the value is 10^9. *)
Definition NANOS : Z := 1.
Definition MICROS : Z := NANOS * 1000.
Definition MILLIS : Z := MICROS * 1000.
Definition SECONDS : Z := MILLIS * 1000.

(** ** Floating point *)

(** The arithmetic the statistics need: conversion from an integer and the
    four operations. *)
Class FloatOps (F : Type) : Type := {
  of_Z : Z -> F;
  fadd : F -> F -> F;
  fsub : F -> F -> F;
  fmul : F -> F -> F;
  fdiv : F -> F -> F
}.

(** binary32 *)
Definition float : Type := spec_float.

Definition f32_prec : Z := 24.
Definition f32_emax : Z := 128.
Definition f64_prec : Z := 53.
Definition f64_emax : Z := 1024.

Definition f32_of_Z (z : Z) : float := binary_normalize f32_prec f32_emax z 0 false.

#[export] Instance binary32 : FloatOps float := {
  of_Z := f32_of_Z;
  fadd := SFadd f32_prec f32_emax;
  fsub := SFsub f32_prec f32_emax;
  fmul := SFmul f32_prec f32_emax;
  fdiv := SFdiv f32_prec f32_emax
}.

(** Exact rational arithmetic: what the float code computes when no operation
    rounds. *)
#[export] Instance rational : FloatOps Qc := {
  of_Z := fun z => Q2Qc (inject_Z z);
  fadd := Qcplus;
  fsub := Qcminus;
  fmul := Qcmult;
  fdiv := Qcdiv
}.

(** Rounding a float to another format (the value of a finite float is
    [m * 2^e]); widening binary32 to binary64 is exact. *)
Definition f_round (prec emax : Z) (x : float) : float :=
  match x with
  | S754_finite s m e => binary_normalize prec emax (cond_Zopp s (Zpos m)) e s
  | _ => x
  end.

(** [sqrt] of <math.h> works on [double]: the [float] argument is widened, the
    root is taken in binary64 and the result is narrowed on return. *)
Definition f32_sqrt (x : float) : float :=
  f_round f32_prec f32_emax
    (SFsqrt f64_prec f64_emax (f_round f64_prec f64_emax x)).

(** [a >= b] on floats; false when either side is a NaN. *)
Definition fge (a b : float) : bool := SFleb b a.

Definition is_nan (x : float) : bool :=
  match x with S754_nan => true | _ => false end.

Definition is_finite (x : float) : bool :=
  match x with S754_zero _ | S754_finite _ _ _ => true | _ => false end.

(** The rational value of a finite float (0 for the others). *)
Definition f_value (x : float) : Qc :=
  match x with
  | S754_finite s m e =>
      let v := if (0 <=? e)%Z then inject_Z (Zpos m * 2 ^ e)
               else (Zpos m # Z.to_pos (2 ^ (- e))) in
      Q2Qc (if s then Qopp v else v)
  | _ => Q2Qc 0
  end.

(** The value [m * 2^e] of a positive finite float, as a fraction. *)
Definition fval (m : positive) (e : Z) : Q := (inject_Z (Zpos m) * 2 ^ e)%Q.

(** [approximates k x r]: [x] is [r] up to a relative error of [2^-k], that
    is, [|x - r| <= x / 2^k]. *)
Definition approximates (k : positive) (x r : Q) : Prop :=
  (x * (1 - (1 # 2 ^ k)) <= r /\ r <= x * (1 + (1 # 2 ^ k)))%Q.

(** What a shift record of [SpecFloat] knows about the number [X / (2 * P)]
    it truncates: the mantissa is its integer part in units of [P], the round
    bit tells whether it reaches the midpoint to the next mantissa, and the
    sticky bit whether anything is left beyond what the round bit says. *)
Definition located (P X : Z) (mrs : shr_record) : Prop :=
  2 * P * shr_m mrs <= X < 2 * P * (shr_m mrs + 1)
  /\ (shr_r mrs = true <-> 2 * P * shr_m mrs + P <= X)
  /\ (shr_s mrs = true <-> X <> 2 * P * shr_m mrs + (if shr_r mrs then P else 0)).

(** ** printf("%.2f") *)

Definition dec (n : Z) : string := NilZero.string_of_uint (N.to_uint (Z.to_N n)).

Definition two_digits (n : Z) : string :=
  if (n <? 10)%Z then "0" +:+ dec n else dec n.

(** [hundredths m e]: [m * 2^e * 100] rounded to the nearest integer, ties to
    even, as the C library does when it prints a binary value in decimal. *)
Definition hundredths (m : positive) (e : Z) : Z :=
  if (0 <=? e)%Z then Zpos m * 2 ^ e * 100
  else
    let den := 2 ^ (- e) in
    let q := (Zpos m * 100) / den in
    let r := (Zpos m * 100) mod den in
    match Z.compare (2 * r) den with
    | Lt => q
    | Eq => if Z.even q then q else q + 1
    | Gt => q + 1
    end.

Definition sign_string (s : bool) : string := if s then "-" else "".

(** [fprintf(out, "%.2f", x)] for a [float] [x] (promoted to [double], which
    does not change its value).  A NaN carries no sign here. *)
Definition fmt_f2 (x : float) : string :=
  match x with
  | S754_zero s => sign_string s +:+ "0.00"
  | S754_infinity s => sign_string s +:+ "inf"
  | S754_nan => "nan"
  | S754_finite s m e =>
      let h := hundredths m e in
      sign_string s +:+ dec (h / 100) +:+ "." +:+ two_digits (h mod 100)
  end.

(** ** Human readable numbers *)

(** The loop [while (number >= threshold && ++level <= level_cap)
    number /= threshold;].  [&&] short-circuits: [level] is incremented only
    when the first test holds, and it is incremented before the comparison
    with the cap, so the loop can leave [level = level_cap + 1]. *)
Fixpoint human_loop (fuel : nat) (level_cap : Z) (number : float) (level : Z)
  : option (float * Z) :=
  match fuel with
  | O => None
  | S fuel' =>
      if fge number (f32_of_Z 1000) then
        let level := level + 1 in
        if (level <=? level_cap)%Z
        then human_loop fuel' level_cap (fdiv number (f32_of_Z 1000)) level
        else Some (number, level)
      else Some (number, level)
  end.

Definition time_suffix (level : Z) : string :=
  match level with
  | 0 => "ns"
  | 1 => "us"
  | 2 => "ms"
  | _ => "s"
  end.

Definition count_suffix (level : Z) : string :=
  match level with
  | 0 => ""
  | 1 => "k"
  | 2 => "m"
  | 3 => "b"
  | _ => "t"
  end.

(** [bench_human_number(out, number, time)]: the text written to [out];
    [None] only if the loop is given too little fuel. *)
Definition bench_human_number_fuel (fuel : nat) (number : float) (time : bool)
  : option string :=
  let level_cap := if time then 3 else 4 in
  match human_loop fuel level_cap number 0 with
  | None => None
  | Some (number, level) =>
      Some (fmt_f2 number +:+ (if time then time_suffix level else count_suffix level))
  end.

(** Every pass through the loop increments [level], which starts at 0 and
    stops the loop once it exceeds the cap (at most 4): six passes are always
    enough (see [human_loop_total]). *)
Definition human_fuel : nat := 6.

Definition bench_human_number (number : float) (time : bool) : string :=
  default "" (bench_human_number_fuel human_fuel number time).

(** ** Streaming statistics *)

Record bench_stats_t (F : Type) : Type := mk_stats {
  count : Z;       (* uint32_t *)
  total : Z;       (* uint64_t *)
  mean : F;
  d_squared : F
}.
Arguments mk_stats {F} _ _ _ _.
Arguments count {F} _.
Arguments total {F} _.
Arguments mean {F} _.
Arguments d_squared {F} _.

Section Stats.
Context {F : Type} `{FloatOps F}.

Definition bench_stats_init : bench_stats_t F :=
  {| count := 0; total := 0; mean := of_Z 0; d_squared := of_Z 0 |}.

(** [value] is a [uint64_t]; in [value - stats->mean] it is converted to
    [float], and so is [stats->count] in the division. *)
Definition bench_stats_push (stats : bench_stats_t F) (value : Z) : bench_stats_t F :=
  let count' := wrap32 (count stats + 1) in
  let total' := wrap64 (total stats + value) in
  let new_mean :=
    fadd (mean stats) (fdiv (fsub (of_Z value) (mean stats)) (of_Z count')) in
  let d_squared_increment :=
    fmul (fsub (of_Z value) new_mean) (fsub (of_Z value) (mean stats)) in
  {| count := count';
     total := total';
     mean := new_mean;
     d_squared := fadd (d_squared stats) d_squared_increment |}.

Definition bench_stats_variance (stats : bench_stats_t F) : F :=
  fdiv (d_squared stats) (of_Z (count stats)).

(** [((float) count / (float) total) * SECONDS], that is
    [(((ratio * 1) * 1000) * 1000) * 1000] with the macro expanded. *)
Definition bench_stats_ops_per_sec (stats : bench_stats_t F) : F :=
  fmul (fmul (fmul (fmul (fdiv (of_Z (count stats)) (of_Z (total stats)))
                         (of_Z NANOS)) (of_Z 1000)) (of_Z 1000)) (of_Z 1000).

(** A fresh statistics object after pushing the durations of [ds] in order. *)
Definition push_all (ds : list Z) : bench_stats_t F :=
  fold_left bench_stats_push ds bench_stats_init.
End Stats.

Definition bench_stats_stddev (stats : bench_stats_t float) : float :=
  f32_sqrt (bench_stats_variance stats).

(** [bench_stats_print(stats, out)]: the text written to [out]. *)
Definition bench_stats_print (stats : bench_stats_t float) : string :=
  bench_human_number (bench_stats_ops_per_sec stats) false
  +:+ " i/s (±" +:+ fmt_f2 (bench_stats_stddev stats) +:+ "%) ("
  +:+ bench_human_number (mean stats) true
  +:+ "/i)".

(** ** The world: sinks, clock, allocator, heap *)

Definition FILE : Type := Z.          (* a [FILE*]: which sink *)
Definition addr : Type := positive.   (* a [bench_measurement_t*] *)
Definition pointer : Type := Z.       (* an opaque [void*] *)

Record bench_measurement_t : Type := mk_measurement {
  m_name : option string;             (* [None]: [strdup] returned NULL *)
  stats : bench_stats_t float
}.

(** The clock and the allocator belong to the environment: [w_clock k] is what
    the [k]-th call of [bench_now] returns and [w_alloc k] tells whether the
    [k]-th allocation ([malloc], [calloc], [realloc], [strdup]) succeeds.
    [w_output] is the list of writes, oldest first. *)
Record world : Type := mk_world {
  w_output : list (FILE * string);
  w_clock : nat -> Z;
  w_ticks : nat;
  w_alloc : nat -> bool;
  w_allocs : nat;
  w_heap : gmap addr bench_measurement_t;
  w_next : addr
}.

(** Field updates. *)
Definition add_output (l : list (FILE * string)) (w : world) : world :=
  mk_world (w_output w ++ l) (w_clock w) (w_ticks w) (w_alloc w) (w_allocs w)
           (w_heap w) (w_next w).
Definition set_ticks (n : nat) (w : world) : world :=
  mk_world (w_output w) (w_clock w) n (w_alloc w) (w_allocs w) (w_heap w) (w_next w).
Definition set_allocs (n : nat) (w : world) : world :=
  mk_world (w_output w) (w_clock w) (w_ticks w) (w_alloc w) n (w_heap w) (w_next w).
Definition set_heap (h : gmap addr bench_measurement_t) (w : world) : world :=
  mk_world (w_output w) (w_clock w) (w_ticks w) (w_alloc w) (w_allocs w) h (w_next w).
Definition set_next (a : addr) (w : world) : world :=
  mk_world (w_output w) (w_clock w) (w_ticks w) (w_alloc w) (w_allocs w) (w_heap w) a.

(** Everything written to the sink [f] so far. *)
Definition text_for (f : FILE) (l : list (FILE * string)) : string :=
  foldr (fun p acc => if decide (p.1 = f) then p.2 +:+ acc else acc) "" l.

Fixpoint spaces (n : nat) : string :=
  match n with
  | O => ""
  | S n' => " " +:+ spaces n'
  end.

Definition contents (f : FILE) (w : world) : string := text_for f (w_output w).

Inductive outcome (A : Type) : Type :=
| Done (a : A) (w : world)
| Undefined        (* undefined behaviour: null or wild pointer, signed overflow *)
| OutOfFuel.       (* the sampling loop has not finished yet *)
Arguments Done {A} _ _.
Arguments Undefined {A}.
Arguments OutOfFuel {A}.

Definition M (A : Type) : Type := world -> outcome A.

Definition ret {A} (a : A) : M A := fun w => Done a w.

Definition bind {A B} (c : M A) (k : A -> M B) : M B :=
  fun w =>
    match c w with
    | Done a w' => k a w'
    | Undefined => Undefined
    | OutOfFuel => OutOfFuel
    end.

Definition undefined {A} : M A := fun _ => Undefined.
Definition out_of_fuel {A} : M A := fun _ => OutOfFuel.

Notation "'let*' p ':=' c1 'in' c2" := (bind c1 (fun p => c2))
  (at level 10, p pattern, c1 at level 100, c2 at level 200).
Notation "c1 ;;; c2" := (bind c1 (fun _ => c2))
  (at level 100, c2 at level 200, right associativity).

Definition fprintf (f : FILE) (s : string) : M unit :=
  fun w => Done tt (add_output [(f, s)] w).

(** One question to the allocator. *)
Definition allocate : M bool :=
  fun w => Done (w_alloc w (w_allocs w)) (set_allocs (S (w_allocs w)) w).

(** [malloc(sizeof(bench_measurement_t))]: a fresh address, or NULL. *)
Definition malloc : M (option addr) :=
  let* ok := allocate in
  if ok : bool
  then fun w => Done (Some (w_next w)) (set_next (Pos.succ (w_next w)) w)
  else ret None.

Definition strdup (s : string) : M (option string) :=
  let* ok := allocate in
  ret (if ok : bool then Some s else None).

Definition load (m : addr) : M bench_measurement_t :=
  fun w => match w_heap w !! m with
           | Some v => Done v w
           | None => Undefined
           end.

Definition store (m : addr) (v : bench_measurement_t) : M unit :=
  fun w => Done tt (set_heap (<[m := v]> (w_heap w)) w).

Definition free (m : addr) : M unit :=
  fun w => Done tt (set_heap (delete m (w_heap w)) w).

(** [bench_now()]: a [uint64_t] number of nanoseconds. *)
Definition bench_now : M Z :=
  fun w => Done (wrap64 (w_clock w (w_ticks w))) (set_ticks (S (w_ticks w)) w).

(** ** Dynamic arrays *)

(** [entries] is the buffer, one slot per unit of capacity; a slot holds a
    pointer or NULL ([None]).  [entries = None] is the NULL buffer. *)
Record bench_array_t : Type := mk_array {
  size : Z;                                 (* size_t *)
  capacity : Z;                             (* size_t *)
  entries : option (list (option addr))
}.

(** [calloc] gives zeroed slots, [realloc] keeps the old ones (the new slots
    of a grown buffer are indeterminate; they are never read before being
    written).  A request for no slots at all is implementation-defined in C
    (C17 7.22.3): here it is answered like any other, by a buffer without
    slots or by a refusal that leaves the old buffer alone.  A library that
    frees the old buffer and returns NULL for [realloc(p, 0)], as glibc does,
    is not covered: there [array->entries] is left dangling. *)
Definition resized (old : option (list (option addr))) (capacity : Z)
  : list (option addr) :=
  match old with
  | None => replicate (Z.to_nat capacity) None
  | Some buf =>
      take (Z.to_nat capacity) buf ++ replicate (Z.to_nat capacity - length buf) None
  end.

Definition bench_array_resize (array : bench_array_t) (capacity : Z)
  : M (bool * bench_array_t) :=
  if (capacity <? size array)%Z then ret (false, array)
  else
    let* ok := allocate in
    if negb ok then ret (false, array)
    else ret (true, {| size := size array;
                       capacity := capacity;
                       entries := Some (resized (entries array) capacity) |}).

(** The [array == NULL] test of the source cannot fire: the array is always
    the [measurements] field of a suite. *)
Definition bench_array_init (capacity : Z) : M (bool * bench_array_t) :=
  bench_array_resize {| size := 0; capacity := 0; entries := None |} capacity.

(** [array->entries[array->size++] = ptr] writes slot [size]; outside the
    buffer that is undefined behaviour. *)
Definition bench_array_push (array : bench_array_t) (ptr : option addr)
  : M (bool * bench_array_t) :=
  let* (grown, array) :=
     (if (size array =? capacity array)%Z
      then bench_array_resize array (wrap64 (capacity array * 2))
      else ret (true, array)) in
  if negb grown then ret (false, array)
  else
    match entries array with
    | Some buf =>
        if (Z.to_nat (size array) <? length buf)%nat
        then ret (true, {| size := wrap64 (size array + 1);
                           capacity := capacity array;
                           entries := Some (<[Z.to_nat (size array) := ptr]> buf) |})
        else undefined
    | None => undefined
    end.

(** ** Suites *)

Record bench_t : Type := mk_bench {
  name : option string;        (* [None]: [strdup] returned NULL *)
  out : FILE;
  indent : Z;                  (* int *)
  data : pointer;
  target_time : Z;             (* uint64_t, nanoseconds *)
  measurements : bench_array_t
}.

Definition with_measurements (b : bench_t) (a : bench_array_t) : bench_t :=
  {| name := name b; out := out b; indent := indent b; data := data b;
     target_time := target_time b; measurements := a |}.

(** The pointers in the first [size] slots. *)
Definition live_entries (a : bench_array_t) : list (option addr) :=
  take (Z.to_nat (size a)) (default [] (entries a)).

(** [bench_measurement_free(m)] reads [m->name]: [m] must point to a
    measurement. *)
Definition bench_measurement_free (m : option addr) : M unit :=
  match m with
  | Some a => load a ;;; free a
  | None => undefined
  end.

Fixpoint for_each {A} (f : A -> M unit) (l : list A) : M unit :=
  match l with
  | [] => ret tt
  | x :: l' => f x ;;; for_each f l'
  end.

(** [bench_free(b)] frees every measurement in use; the name, the buffer and
    the suite itself go with the value [b], which is not used again. *)
Definition bench_free (b : bench_t) : M unit :=
  for_each bench_measurement_free (live_entries (measurements b)).

(** [for (int i = 0; i < b->indent; i++) fprintf(b->out, " ");] *)
Definition _bench_print_indent (b : bench_t) : M unit :=
  Nat.iter (Z.to_nat (indent b)) (fun k => fprintf (out b) " " ;;; k) (ret tt).

(** [fprintf(out, "...%s...", s)] with a NULL [s] is undefined. *)
Definition fprintf_s (f : FILE) (before : string) (s : option string) (after : string)
  : M unit :=
  match s with
  | Some s => fprintf f (before +:+ s +:+ after)
  | None => undefined
  end.

Definition bench_create (name : string) (out : FILE) (indent : Z) (data : pointer)
  : M (option bench_t) :=
  let* allocated := allocate in                       (* malloc(sizeof(bench_t)) *)
  if negb allocated then undefined               (* b->name = ... through NULL *)
  else
    let* name' := strdup name in
    let* (ok, array) := bench_array_init 16 in
    let b := {| name := name'; out := out; indent := indent; data := data;
                target_time := SECONDS; measurements := array |} in
    if negb ok then bench_free b ;;; ret None
    else
      (if (indent =? 0)%Z then fprintf out "benc.h v1.0.0
" else ret tt) ;;;
      _bench_print_indent b ;;;
      fprintf_s out "# " name' "
" ;;;
      ret (Some b).

(** ** Comparing measurements *)

(** What a pointer to a measurement points to.  The default is never used:
    [bench_compare] sorts only after [all_valid] has checked every pointer. *)
Definition deref (h : gmap addr bench_measurement_t) (a : addr) : bench_measurement_t :=
  default (mk_measurement None bench_stats_init) (h !! a).

Definition _bench_compare_measurement (h : gmap addr bench_measurement_t)
  (a b : addr) : Z :=
  let current := bench_stats_ops_per_sec (stats (deref h a)) in
  let next := bench_stats_ops_per_sec (stats (deref h b)) in
  if SFltb next current then -1
  else if SFltb current next then 1
  else 0.

(** The slots as valid pointers, if they all are. *)
Fixpoint all_valid (h : gmap addr bench_measurement_t) (l : list (option addr))
  : option (list addr) :=
  match l with
  | [] => Some []
  | Some a :: l' =>
      match h !! a, all_valid h l' with
      | Some _, Some r => Some (a :: r)
      | _, _ => None
      end
  | None :: _ => None
  end.

(** The body of the [for] loop of [bench_compare] for one entry; [first] is
    the statistics pointer of the source, NULL before the first entry. *)
Definition compare_entry (b : bench_t) (first : option (bench_stats_t float))
  (entry : option addr) : M (option (bench_stats_t float)) :=
  match entry with
  | None => undefined
  | Some a =>
      let* measurement := load a in
      _bench_print_indent b ;;;
      match first with
      | None =>
          fprintf_s (out b) "  - " (m_name measurement) " (fastest)
" ;;;
          ret (Some (stats measurement))
      | Some first' =>
          fprintf_s (out b) "  - " (m_name measurement) "" ;;;
          fprintf (out b)
            (" (" +:+ fmt_f2 (fsub (fmul (fdiv (mean (stats measurement)) (mean first'))
                                         (of_Z 100)) (of_Z 100))
             +:+ "% slower)
") ;;;
          ret first
      end
  end.

Fixpoint compare_loop (b : bench_t) (first : option (bench_stats_t float))
  (l : list (option addr)) : M unit :=
  match l with
  | [] => ret tt
  | entry :: l' =>
      let* first' := compare_entry b first entry in
      compare_loop b first' l'
  end.

Section Compare.
(** [qsort] is the C library's; the code relies on nothing but its
    contract, which the theorems take as a hypothesis. *)
Variable qsort : (addr -> addr -> Z) -> list addr -> list addr.

(** The call of [qsort] on the first [size] slots with
    [_bench_compare_measurement]: the comparison dereferences the slots it is
    given, so every slot in use has to hold a valid pointer. *)
Definition sort_entries (a : bench_array_t) : M bench_array_t :=
  fun w =>
    match entries a with
    | None => Undefined
    | Some buf =>
        match all_valid (w_heap w) (take (Z.to_nat (size a)) buf) with
        | None => Undefined
        | Some ptrs =>
            Done {| size := size a;
                    capacity := capacity a;
                    entries := Some ((Some <$> qsort (_bench_compare_measurement (w_heap w)) ptrs)
                                     ++ drop (Z.to_nat (size a)) buf) |} w
        end
    end.

Definition bench_compare (b : bench_t) : M unit :=
  let* b :=
    (if (1 <? size (measurements b))%Z
     then
       let* m := sort_entries (measurements b) in
       let b := with_measurements b m in
       _bench_print_indent b ;;;
       fprintf (out b) "Comparing...
" ;;;
       compare_loop b None (live_entries m) ;;;
       ret b
     else ret b) in
  bench_free b.

(** A group function works on the suite it is given. *)
Definition bench_group_fn : Type := bench_t -> M bench_t.

Definition bench_group (b : bench_t) (name : string) (fn : bench_group_fn)
  (ptr : pointer) : M unit :=
  if (INT_MAX <? indent b + 2)%Z then undefined      (* signed overflow *)
  else
    let* b2 := bench_create name (out b) (indent b + 2) ptr in
    match b2 with
    | None => undefined                              (* bench_compare(NULL) *)
    | Some b2 => let* b2' := fn b2 in bench_compare b2'
    end.
End Compare.

(** ** Measuring *)

Definition bench_measurement_init (m : option addr) (name : string) : M unit :=
  match m with
  | None => undefined
  | Some a =>
      let* name' := strdup name in
      store a {| m_name := name'; stats := bench_stats_init |}
  end.

(** The [while] loop of [bench_measure].  The measured function is opaque:
    all the harness sees of [fn(data)] is the two clock readings around it.
    [fuel] counts the evaluations of the loop condition: [n] passes need
    [n + 1] of them. *)
Fixpoint sampling_loop (fuel : nat) (m : addr) (target_time : Z) : M unit :=
  match fuel with
  | O => out_of_fuel
  | S fuel' =>
      let* measurement := load m in
      if (total (stats measurement) <? target_time)%Z then
        let* start := bench_now in
        (* fn(data) *)
        let* end_ := bench_now in
        store m {| m_name := m_name measurement;
                   stats := bench_stats_push (stats measurement) (wrap64 (end_ - start)) |} ;;;
        sampling_loop fuel' m target_time
      else ret tt
  end.

(** [bench_measure(b, name, fn, data)].  [fuel] bounds the passes of the
    sampling loop, which the C code does not bound.  The one-time timer
    calibration ([mach_timebase_info]) is part of the clock.  The value
    returned is the [int] of the source, always 0, with the suite as the call
    leaves it. *)
Definition bench_measure (fuel : nat) (b : bench_t) (name : string) : M (Z * bench_t) :=
  _bench_print_indent b ;;;
  fprintf (out b) (name +:+ " - ") ;;;
  let* m := malloc in
  bench_measurement_init m name ;;;
  let* (_, array) := bench_array_push (measurements b) m in   (* result not looked at *)
  let b := with_measurements b array in
  let* _ := bench_now in
  match m with
  | None => undefined
  | Some a =>
      sampling_loop fuel a (target_time b) ;;;
      let* measurement := load a in
      fprintf (out b) (bench_stats_print (stats measurement)) ;;;
      fprintf (out b) "
" ;;;
      ret (0, b)
  end.

(** ** The specification's words *)

(** The formatter as the specification describes it: divide by 1000 while the
    value is at least 1000, at most [cap] times, counting the divisions. *)
Fixpoint scale (cap : nat) (value : float) : float * nat :=
  match cap with
  | O => (value, O)
  | S cap' =>
      if fge value (f32_of_Z 1000)
      then let (v, levels) := scale cap' (fdiv value (f32_of_Z 1000)) in (v, S levels)
      else (value, O)
  end.

Definition unit_suffix (time : bool) (levels : nat) : string :=
  if time then nth levels ["ns"; "us"; "ms"; "s"] ""
  else nth levels [""; "k"; "m"; "b"; "t"] "".

Definition format (value : float) (time : bool) : string :=
  let (v, levels) := scale (if time then 3 else 4)%nat value in
  fmt_f2 v +:+ unit_suffix time levels.

(** Arithmetic mean and population variance of a sequence of durations, as
    rationals. *)
Definition Zc (z : Z) : Qc := Q2Qc (inject_Z z).

Definition sum_list (l : list Qc) : Qc := foldr Qcplus (Zc 0) l.

Definition squares (ds : list Z) : Qc :=
  sum_list ((fun d => Zc d * Zc d)%Qc <$> ds).

Definition arithmetic_mean (ds : list Z) : Qc :=
  (sum_list (Zc <$> ds) / Zc (Z.of_nat (length ds)))%Qc.

Definition population_variance (ds : list Z) : Qc :=
  let mu := arithmetic_mean ds in
  (sum_list ((fun d => (Zc d - mu) * (Zc d - mu)) <$> ds) / Zc (Z.of_nat (length ds)))%Qc.

(** ** Well-formed inputs *)

(** The measurement array of a live suite: an allocated buffer of [capacity]
    slots, of which the first [size] are in use. *)
Definition array_ok (a : bench_array_t) : Prop :=
  exists buf, entries a = Some buf
              /\ length buf = Z.to_nat (capacity a)
              /\ 0 <= size a <= capacity a
              /\ 0 < capacity a
              /\ 2 * capacity a < 2 ^ 64.

(** Two worlds that differ at most in what the allocator has been asked. *)
Definition same_but_allocs (w w' : world) : Prop :=
  w_output w' = w_output w /\ w_clock w' = w_clock w /\ w_ticks w' = w_ticks w
  /\ w_alloc w' = w_alloc w /\ w_heap w' = w_heap w /\ w_next w' = w_next w.

(** What [bench_measure] does once the sampling loop is over. *)
Definition report_measurement (b : bench_t) (a : addr) : M (Z * bench_t) :=
  let* measurement := load a in
  fprintf (out b) (bench_stats_print (stats measurement)) ;;;
  fprintf (out b) "
" ;;;
  ret (0, b).

(** One pass through the body of the sampling loop, when the measurement at
    [a] is [ms]: two clock readings and a push. *)
Definition loop_iteration (a : addr) (ms : bench_measurement_t) (w : world) : world :=
  let start := wrap64 (w_clock w (w_ticks w)) in
  let end_ := wrap64 (w_clock w (S (w_ticks w))) in
  set_heap (<[a := {| m_name := m_name ms;
                      stats := bench_stats_push (stats ms) (wrap64 (end_ - start)) |}]>
              (w_heap w))
           (set_ticks (S (S (w_ticks w))) w).

Definition nonzero_finite (x : float) : bool :=
  match x with S754_finite _ _ _ => true | _ => false end.

(** ** Example inputs *)

(** The array and the suite as [bench_create] leaves them. *)
Definition fresh_array : bench_array_t :=
  {| size := 0; capacity := 16; entries := Some (replicate 16 None) |}.

Definition fresh_suite (target : Z) : bench_t :=
  {| name := Some "bench"; out := 1; indent := 0; data := 0;
     target_time := target; measurements := fresh_array |}.

Definition start_world (clock : nat -> Z) (alloc : nat -> bool) : world :=
  mk_world [] clock 0 alloc 0 ∅ 1%positive.

Definition always (_ : nat) : bool := true.
Definition never (_ : nat) : bool := false.

(** Every clock reading is two seconds after the previous one. *)
Definition slow_clock (k : nat) : Z := Z.of_nat k * 2000000000.

(** The clock stands still for the first 2^33 readings and then jumps by a
    second: 2^32 - 1 calls measured at 0 ns, then one at 10^9 ns. *)
Definition stalled_clock (k : nat) : Z :=
  if (Z.of_nat k <? 2 ^ 33)%Z then 0 else 1000000000.

(** Two measured calls, of a quarter and of three quarters of a second. *)
Definition uneven_clock (k : nat) : Z :=
  match k with
  | 0%nat | 1%nat => 0
  | 2%nat | 3%nat => 250000000
  | _ => 1000000000
  end.

(** [bench_measure] for each name in turn. *)
Fixpoint measure_all (fuel : nat) (names : list string) (b : bench_t) : M bench_t :=
  match names with
  | [] => ret b
  | n :: names' => let* (_, b') := bench_measure fuel b n in measure_all fuel names' b'
  end.

Definition sixteen_names : list string :=
  ["m01"; "m02"; "m03"; "m04"; "m05"; "m06"; "m07"; "m08";
   "m09"; "m10"; "m11"; "m12"; "m13"; "m14"; "m15"; "m16"].

(** A suite created by [bench_create] in which sixteen measurements have been
    run: its array is full. *)
Definition full_suite : M bench_t :=
  let* b := bench_create "bench" 1 0 0 in
  match b with
  | Some b => measure_all 5 sixteen_names b
  | None => undefined
  end.

(** The allocator refuses the 38th request and nothing else: with
    [full_suite] followed by one more [bench_measure], that is the [realloc]
    which grows the array. *)
Definition no_growth (k : nat) : bool := negb (k =? 37)%nat.

(** Insertion sort, standing in for the C library's [qsort] where an example
    has to be run. *)
Fixpoint insert_sorted (cmp : addr -> addr -> Z) (x : addr) (l : list addr) : list addr :=
  match l with
  | [] => [x]
  | y :: l' => if (cmp x y <=? 0)%Z then x :: l else y :: insert_sorted cmp x l'
  end.

Definition insertion_sort (cmp : addr -> addr -> Z) (l : list addr) : list addr :=
  foldr (insert_sorted cmp) [] l.

(** The suite [bench_group] hands to the group function. *)
Definition child_suite (b : bench_t) (name : string) (ptr : pointer) : bench_t :=
  {| name := Some name; out := out b; indent := indent b + 2; data := ptr;
     target_time := 1000000000; measurements := fresh_array |}.

(** The header [bench_create] prints. *)
Definition suite_header (indent : Z) (name : string) : string :=
  (if (indent =? 0)%Z then "benc.h v1.0.0
" else "") +:+ spaces (Z.to_nat indent) +:+ "# " +:+ name +:+ "
".

(** The world [bench_create] leaves when its three allocations succeed: the
    header is written and the allocator has been asked three times. *)
Definition after_create (name : string) (out : FILE) (indent : Z) (w : world) : world :=
  mk_world (w_output w
            ++ (if (indent =? 0)%Z then [(out, "benc.h v1.0.0
")] else [])
            ++ replicate (Z.to_nat indent) (out, " ")
            ++ [(out, "# " +:+ name +:+ "
")])
           (w_clock w) (w_ticks w) (w_alloc w) (3 + w_allocs w) (w_heap w) (w_next w).

(** ** The ranking, in the specification's words *)

Definition throughput (h : gmap addr bench_measurement_t) (a : addr) : float :=
  bench_stats_ops_per_sec (stats (deref h a)).

(** [descending h l]: no entry of [l] has a smaller throughput than a later
    one. *)
Definition descending (h : gmap addr bench_measurement_t) (l : list addr) : Prop :=
  StronglySorted (fun x y => SFleb (throughput h y) (throughput h x) = true) l.

Definition name_of (m : bench_measurement_t) : string := default "" (m_name m).

Definition percent_slower (s fastest : bench_stats_t float) : float :=
  fsub (fmul (fdiv (mean s) (mean fastest)) (of_Z 100)) (of_Z 100).

Definition slower_line (ind : nat) (fastest : bench_stats_t float)
  (m : bench_measurement_t) : string :=
  spaces ind +:+ "  - " +:+ name_of m
  +:+ " (" +:+ fmt_f2 (percent_slower (stats m) fastest) +:+ "% slower)
".

(** The report for the measurements in the order given: a header, the first
    entry marked as the fastest, every other entry with its percentage. *)
Definition ranking_report (ind : nat) (ms : list bench_measurement_t) : string :=
  spaces ind +:+ "Comparing...
" +:+
  match ms with
  | [] => ""
  | fastest :: rest =>
      spaces ind +:+ "  - " +:+ name_of fastest +:+ " (fastest)
" +:+ foldr (fun m acc => slower_line ind (stats fastest) m +:+ acc) "" rest
  end.

(** What [qsort] promises (C11 7.22.5.2): for a comparison function that is
    consistent on the elements, the result is a rearrangement of the array in
    ascending order of the comparison. *)
Definition cmp_consistent (cmp : addr -> addr -> Z) (l : list addr) : Prop :=
  forall x y z, x ∈ l -> y ∈ l -> z ∈ l ->
    (cmp x y < 0 <-> 0 < cmp y x)
    /\ (cmp x y <= 0 -> cmp y z <= 0 -> cmp x z <= 0).

Definition qsort_contract (qsort : (addr -> addr -> Z) -> list addr -> list addr) : Prop :=
  forall cmp l, cmp_consistent cmp l ->
    Permutation l (qsort cmp l)
    /\ StronglySorted (fun x y => cmp x y <= 0) (qsort cmp l).

(** A suite ready to be compared: the first [size] slots of its array hold
    the distinct pointers [ptrs], each to a measurement with a name and a
    throughput that is a number. *)
Definition suite_ready (b : bench_t) (w : world) (ptrs : list addr) : Prop :=
  exists buf,
    entries (measurements b) = Some buf
    /\ 0 <= size (measurements b)
    /\ take (Z.to_nat (size (measurements b))) buf = Some <$> ptrs
    /\ length ptrs = Z.to_nat (size (measurements b))
    /\ NoDup ptrs
    /\ forall a, a ∈ ptrs ->
         exists m nm, w_heap w !! a = Some m /\ m_name m = Some nm
                      /\ is_nan (bench_stats_ops_per_sec (stats m)) = false.

(** An order-preserving key for the floats that are not NaN: the sign class,
    then exponent and mantissa (negated for negative floats). *)
Definition f_rank (x : float) : Z * Z * Z :=
  match x with
  | S754_infinity true => (-2, 0, 0)
  | S754_finite true m e => (-1, - e, - Zpos m)
  | S754_zero _ => (0, 0, 0)
  | S754_nan => (0, 0, 0)
  | S754_finite false m e => (1, e, Zpos m)
  | S754_infinity false => (2, 0, 0)
  end.

Definition rank_lt (a b : Z * Z * Z) : Prop :=
  let '(a1, a2, a3) := a in
  let '(b1, b2, b3) := b in
  a1 < b1 \/ (a1 = b1 /\ (a2 < b2 \/ (a2 = b2 /\ a3 < b3))).

(** The three measurements of the example: A at 1000/s, B at 2000/s, C at
    500/s, each over one second. *)
Definition abc_heap : gmap addr bench_measurement_t :=
  {[ 1%positive := {| m_name := Some "A";
                      stats := mk_stats 1000 1000000000 (f32_of_Z 1000000) (f32_of_Z 0) |};
     2%positive := {| m_name := Some "B";
                      stats := mk_stats 2000 1000000000 (f32_of_Z 500000) (f32_of_Z 0) |};
     3%positive := {| m_name := Some "C";
                      stats := mk_stats 500 1000000000 (f32_of_Z 2000000) (f32_of_Z 0) |} ]}.

Definition suite_of (ptrs : list addr) : bench_t :=
  {| name := Some "bench"; out := 1; indent := 0; data := 0; target_time := SECONDS;
     measurements := {| size := Z.of_nat (length ptrs); capacity := 16;
                        entries := Some ((Some <$> ptrs)
                                         ++ replicate (16 - length ptrs) None) |} |}.

Definition abc_world : world :=
  mk_world [] slow_clock 0 always 0 abc_heap 4%positive.

(** The lines of the report as the loop of [bench_compare] produces them,
    [first] being the statistics of the first entry once it has been seen. *)
Fixpoint ranking_lines (ind : nat) (first : option (bench_stats_t float))
  (ms : list bench_measurement_t) : string :=
  match ms with
  | [] => ""
  | m :: ms' =>
      match first with
      | None =>
          (spaces ind +:+ "  - " +:+ name_of m +:+ " (fastest)
") +:+ ranking_lines ind (Some (stats m)) ms'
      | Some f => slower_line ind f m +:+ ranking_lines ind first ms'
      end
  end.

(** ** Filling an array *)

(** [bench_array_push] for each pointer in turn, stopping at the first
    failure. *)
Fixpoint push_each (array : bench_array_t) (ptrs : list (option addr))
  : M (bool * bench_array_t) :=
  match ptrs with
  | [] => ret (true, array)
  | ptr :: ptrs' =>
      let* (ok, array') := bench_array_push array ptr in
      if ok : bool then push_each array' ptrs' else ret (false, array')
  end.

(** An array initialised the way [bench_create] does it, then filled. *)
Definition array_of (ptrs : list (option addr)) : M (bool * bench_array_t) :=
  let* (ok, array) := bench_array_init 16 in
  if ok : bool then push_each array ptrs else ret (false, array).

(** ** The sampling loop as a function of the clock *)

(** The duration of the [k]-th call measured by a sampling loop that starts
    when the clock has been read [t] times: the difference of the readings
    [t + 2k + 1] and [t + 2k], as a [uint64_t]. *)
Definition measured (clock : nat -> Z) (t k : nat) : Z :=
  wrap64 (wrap64 (clock (S (t + 2 * k))%nat) - wrap64 (clock (t + 2 * k)%nat)).

Definition samples (clock : nat -> Z) (t n : nat) : list Z :=
  measured clock t <$> seq 0 n.

Definition sum_Z (l : list Z) : Z := foldr Z.add 0 l.

(** A clock that moves on between any two readings, by at least a nanosecond
    and at most 2^63 of them (as a difference of [uint64_t]). *)
Definition ticking (clock : nat -> Z) : Prop :=
  forall k, 1 <= wrap64 (clock (S k) - clock k) <= 2 ^ 63.

(** A clock that does not move. *)
Definition still_clock (_ : nat) : Z := 42.

(** The world a sampling loop leaves behind after [n] passes: two clock
    readings each, and the statistics at [a] extended by the durations
    measured. *)
Definition after_sampling (a : addr) (ms : bench_measurement_t) (n : nat) (w : world)
  : world :=
  set_heap (<[a := {| m_name := m_name ms;
                      stats := fold_left bench_stats_push
                                 (samples (w_clock w) (w_ticks w) n) (stats ms) |}]>
              (w_heap w))
           (set_ticks (w_ticks w + 2 * n)%nat w).

(** The world in which the sampling loop of [bench_measure] starts: the name
    is printed, the measurement is allocated and initialised at the fresh
    address, the allocator has been asked two or three times and the clock
    has been read once. *)
Definition measure_started (b : bench_t) (name : string) (w : world) : world :=
  mk_world (w_output w ++ replicate (Z.to_nat (indent b)) (out b, " ")
                       ++ [(out b, name +:+ " - ")])
           (w_clock w) (S (w_ticks w)) (w_alloc w)
           (if (size (measurements b) =? capacity (measurements b))%Z
            then 3 + w_allocs w else 2 + w_allocs w)%nat
           (<[w_next w := {| m_name := if w_alloc w (S (w_allocs w))
                                       then Some name else None;
                             stats := bench_stats_init |}]> (w_heap w))
           (Pos.succ (w_next w)).

(** The world after a finished [bench_measure] that made [n] passes; the
    name stored is NULL when its copy could not be allocated. *)
Definition after_measure (b : bench_t) (name : string) (n : nat) (w : world) : world :=
  let s := push_all (samples (w_clock w) (S (w_ticks w)) n) in
  mk_world (w_output w ++ replicate (Z.to_nat (indent b)) (out b, " ")
                       ++ [(out b, name +:+ " - ");
                           (out b, bench_stats_print s);
                           (out b, "
")])
           (w_clock w) (w_ticks w + 1 + 2 * n)%nat (w_alloc w)
           (if (size (measurements b) =? capacity (measurements b))%Z
            then 3 + w_allocs w else 2 + w_allocs w)%nat
           (<[w_next w := {| m_name := if w_alloc w (S (w_allocs w))
                                       then Some name else None;
                             stats := s |}]> (w_heap w))
           (Pos.succ (w_next w)).

(** The allocator refuses the second request and nothing else: in
    [bench_measure] that is the copy of the name. *)
Definition second_refused (k : nat) : bool := negb (k =? 1)%nat.

(** ** A whole session *)

(** The line [bench_measure] prints for a measurement. *)
Definition summary_line (ind : nat) (m : bench_measurement_t) : string :=
  spaces ind +:+ name_of m +:+ " - " +:+ bench_stats_print (stats m) +:+ "
".

Definition summary_lines (ind : nat) (ms : list bench_measurement_t) : string :=
  foldr (fun m acc => summary_line ind m +:+ acc) "" ms.

(** No measurement lives at an address the allocator has yet to hand out. *)
Definition heap_fresh (w : world) : Prop :=
  forall a, (w_next w <= a)%positive -> w_heap w !! a = None.

(** Measurements in the order of a ranking: none is slower than a later
    one. *)
Definition ranked (ms : list bench_measurement_t) : Prop :=
  StronglySorted
    (fun x y => SFleb (bench_stats_ops_per_sec (stats y))
                      (bench_stats_ops_per_sec (stats x)) = true) ms.

(** The use documented with [bench_compare]: create a suite, measure each
    function, compare. *)
Definition bench_session (qsort : (addr -> addr -> Z) -> list addr -> list addr)
  (fuel : nat) (nm : string) (o : FILE) (ind : Z) (d : pointer) (names : list string)
  : M unit :=
  let* b := bench_create nm o ind d in
  match b with
  | None => undefined                     (* bench_measure reads b->indent *)
  | Some b =>
      let* b' := measure_all fuel names b in
      bench_compare qsort b'
  end.

(** The example of the ranking with a fourth measurement that was never
    sampled: its throughput is 0/0. *)
Definition idle_heap : gmap addr bench_measurement_t :=
  <[4%positive := {| m_name := Some "idle"; stats := bench_stats_init |}]> abc_heap.

(** The allocator refuses the third request and nothing else: in
    [bench_create] that is the buffer of the array. *)
Definition third_refused (k : nat) : bool := negb (k =? 2)%nat.

(** ** The example program (example.c) *)

Definition INT_MIN : Z := - 2 ^ 31.

(** [int fibo(int n)]: the sum is an [int] addition, which must not
    overflow.  [fuel] bounds the depth of the recursion. *)
Fixpoint fibo (fuel : nat) (n : Z) : M Z :=
  match fuel with
  | O => out_of_fuel
  | S fuel' =>
      if n <? 2 then ret n
      else
        let* x := fibo fuel' (n - 1) in
        let* y := fibo fuel' (n - 2) in
        if (INT_MIN <=? x + y) && (x + y <=? INT_MAX) then ret (x + y) else undefined
  end.

(** The Fibonacci numbers, by iteration. *)
Fixpoint fib_pair (k : nat) : Z * Z :=
  match k with
  | O => (0, 1)
  | S k' => let '(a, b) := fib_pair k' in (b, a + b)
  end.

Definition fib (k : nat) : Z := (fib_pair k).1.

Definition stdout : FILE := 1.

(** [bench_publish_suite]: the two workloads, [fibo(5)] and [fibo(10)], are
    opaque to the harness, which sees their durations on the clock. *)
Definition bench_publish_suite (fuel : nat) : bench_group_fn :=
  fun b =>
    let* (_, b) := bench_measure fuel b "fast" in
    let* (_, b) := bench_measure fuel b "slow" in
    ret b.

(** [main]: [bench_create("bench", stdout)] and [bench_group(b, "publish",
    bench_publish_suite)], with the defaults the macros append. *)
Definition main (qsort : (addr -> addr -> Z) -> list addr -> list addr) (fuel : nat)
  : M Z :=
  let* b := bench_create "bench" stdout 0 0 in
  match b with
  | None => undefined                     (* bench_group reads b->out *)
  | Some b =>
      bench_group qsort b "publish" (bench_publish_suite fuel) 0 ;;;
      bench_compare qsort b ;;;
      ret 0
  end.

(** A clock for the example: a call of the first workload takes 400 ms, a
    call of the second 700 ms, and a nanosecond passes between the calls.
    The first measurement reads the clock 7 times (once, then twice for each
    of its three passes), so the calls of the second lie between an even
    reading and the next. *)
Fixpoint workload_clock (k : nat) : Z :=
  match k with
  | O => 0
  | S j =>
      workload_clock j
      + (if (j <? 7)%nat
         then (if Nat.odd j then 400000000 else 1)
         else (if Nat.even j then 700000000 else 1))
  end.

(** ** The body of [bench_now] *)

(** [struct timespec], with a 64-bit [time_t] and a 64-bit [long]. *)
Record timespec : Type := mk_timespec { tv_sec : Z; tv_nsec : Z }.

Definition LONG_MIN : Z := - 2 ^ 63.
Definition LONG_MAX : Z := 2 ^ 63 - 1.

(** Arithmetic in [long]: a result out of range is undefined behaviour. *)
Definition long_result (z : Z) : option Z :=
  if (LONG_MIN <=? z) && (z <=? LONG_MAX) then Some z else None.

(** [t.tv_sec * SECONDS + t.tv_nsec], that is
    [t.tv_sec * 1 * 1000 * 1000 * 1000 + t.tv_nsec] evaluated from the left
    in [long], converted to [uint64_t] on return. *)
Definition timespec_nanoseconds (t : timespec) : option Z :=
  a ← long_result (tv_sec t * NANOS);
  b ← long_result (a * 1000);
  c ← long_result (b * 1000);
  d ← long_result (c * 1000);
  e ← long_result (d + tv_nsec t);
  Some (wrap64 e).

(** [mach_timebase_info_data_t]: two [uint32_t]. *)
Record mach_timebase_info_data_t : Type := mk_timebase { numer : Z; denom : Z }.

(** [mach_continuous_time() * timebase.numer / timebase.denom] in
    [uint64_t]: the product wraps, and a zero [denom] (the value of the
    static [timebase] before [mach_timebase_info] has filled it) is a
    division by zero. *)
Definition mach_nanoseconds (ticks : Z) (timebase : mach_timebase_info_data_t)
  : option Z :=
  if denom timebase =? 0 then None
  else Some (wrap64 (ticks * numer timebase) / denom timebase).

(** A [timespec] as [clock_gettime] fills it. *)
Definition normalized (t : timespec) : Prop :=
  0 <= tv_sec t /\ 0 <= tv_nsec t < 1000000000.

Definition timespec_le (t1 t2 : timespec) : Prop :=
  tv_sec t1 < tv_sec t2 \/ (tv_sec t1 = tv_sec t2 /\ tv_nsec t1 <= tv_nsec t2).

(** ** Proof steps used throughout *)

(** Settle a comparison of the code, ready for [lia]. *)
Ltac ltb_true a b := replace (a <? b)%Z with true by (symmetry; apply Z.ltb_lt; lia).
Ltac ltb_false a b := replace (a <? b)%Z with false by (symmetry; apply Z.ltb_ge; lia).
Ltac leb_true a b := replace (a <=? b)%Z with true by (symmetry; apply Z.leb_le; lia).

(** What a bit of a shift record says, as a fact for [lia]. *)
Ltac bit_fact H :=
  match type of H with
  | true = true <-> ?Q => assert Q by (apply H; reflexivity); clear H
  | false = true <-> ?Q =>
      assert (~ Q) by (let q := fresh in intros q; apply H in q; discriminate); clear H
  end.

Ltac bit_goal :=
  match goal with
  | |- true = true <-> _ => split; [intros _|reflexivity]
  | |- false = true <-> _ => split; [discriminate|intros; exfalso]
  end.

(** Push [inject_Z] through the operations of a hypothesis. *)
Ltac inject_in H :=
  unfold Z.sub in H;
  repeat first [rewrite inject_Z_plus in H | rewrite inject_Z_mult in H
               | rewrite inject_Z_opp in H].

(** * Properties *)

(** ** Formatter *)

Lemma human_loop_S fuel cap number level :
  human_loop (S fuel) cap number level =
  if fge number (f32_of_Z 1000) then
    if (level + 1 <=? cap)%Z
    then human_loop fuel cap (fdiv number (f32_of_Z 1000)) (level + 1)
    else Some (number, level + 1)
  else Some (number, level).
Proof. reflexivity. Qed.

Lemma scale_S cap value :
  scale (S cap) value =
  if fge value (f32_of_Z 1000)
  then let (v, levels) := scale cap (fdiv value (f32_of_Z 1000)) in (v, S levels)
  else (value, O).
Proof. reflexivity. Qed.

(** The loop of the source always finishes within [human_fuel] passes, and
    more fuel changes nothing. *)
Lemma human_loop_total (k : nat) (value : float) (time : bool) :
  bench_human_number_fuel (human_fuel + k) value time = Some (format value time).
Proof.
  unfold bench_human_number_fuel, format, human_fuel.
  destruct time; cbn [Nat.add scale]; rewrite !human_loop_S;
    repeat (destruct (fge _ (f32_of_Z 1000)); [ | reflexivity ]);
    reflexivity.
Qed.

(** ** binary32 facts

    The Standard Library gives the operations but no lemmas about them; what
    the statistics need is proved here from the definitions. *)

Lemma digits2_pos_bounds (p : positive) :
  2 ^ (Zpos (digits2_pos p) - 1) <= Zpos p < 2 ^ Zpos (digits2_pos p).
Proof.
  induction p as [p IH|p IH|]; cbn [digits2_pos]; rewrite ?Pos2Z.inj_succ.
  - replace (Z.succ (Zpos (digits2_pos p)) - 1) with (Z.succ (Zpos (digits2_pos p) - 1)) by lia.
    rewrite !Z.pow_succ_r by lia. lia.
  - replace (Z.succ (Zpos (digits2_pos p)) - 1) with (Z.succ (Zpos (digits2_pos p) - 1)) by lia.
    rewrite !Z.pow_succ_r by lia. lia.
  - cbn. lia.
Qed.

Lemma digits2_pos_unique (m : positive) (k : Z) :
  2 ^ (k - 1) <= Zpos m < 2 ^ k -> Zpos (digits2_pos m) = k.
Proof.
  intros [Hlo Hhi]. pose proof (digits2_pos_bounds m) as [Dlo Dhi].
  set (d := Zpos (digits2_pos m)) in *.
  assert (0 < d) by (unfold d; lia).
  destruct (Z.lt_trichotomy d k) as [Hlt|[Heq|Hgt]]; [|exact Heq|].
  - assert (2 ^ d <= 2 ^ (k - 1)) by (apply Z.pow_le_mono_r; lia). lia.
  - assert (k <= 0 \/ 0 < k) as [Hk|Hk] by lia.
    + assert (2 ^ k <= 1).
      { destruct (Z.eq_dec k 0) as [->|]; [cbn; lia|]. rewrite Z.pow_neg_r by lia. lia. }
      lia.
    + assert (2 ^ k <= 2 ^ (d - 1)) by (apply Z.pow_le_mono_r; lia). lia.
Qed.

Lemma shr_1_m (mrs : shr_record) :
  0 <= shr_m mrs -> shr_m (shr_1 mrs) = shr_m mrs / 2.
Proof.
  destruct mrs as [m r s]. cbn [shr_m]. intros Hm.
  destruct m as [|p|p]; [reflexivity| |lia].
  destruct p as [p|p|]; cbn [shr_1 shr_m].
  - rewrite Pos2Z.inj_xI. rewrite (Z.mul_comm 2), Z.div_add_l by lia.
    change (1 / 2) with 0. lia.
  - rewrite Pos2Z.inj_xO. rewrite (Z.mul_comm 2), Z.div_mul by lia. reflexivity.
  - reflexivity.
Qed.

Lemma shr_iter_m (q : positive) : forall mrs : shr_record,
  0 <= shr_m mrs -> shr_m (SpecFloat.iter_pos shr_1 q mrs) = shr_m mrs / 2 ^ Zpos q.
Proof.
  induction q as [q IH|q IH|]; intros mrs Hm; cbn [SpecFloat.iter_pos].
  - assert (H1 : 0 <= shr_m (shr_1 mrs)) by (rewrite shr_1_m by lia; apply Z.div_pos; lia).
    assert (H2 : 0 <= shr_m (SpecFloat.iter_pos shr_1 q (shr_1 mrs)))
      by (rewrite IH by lia; apply Z.div_pos; [lia|apply Z.pow_pos_nonneg; lia]).
    rewrite IH by lia. rewrite IH by lia. rewrite shr_1_m by lia.
    rewrite !Z.div_div by (try apply Z.pow_pos_nonneg; lia).
    f_equal. change (Zpos q~1) with (2 * Zpos q + 1).
    replace (2 * Zpos q + 1) with (1 + Zpos q + Zpos q) by lia.
    rewrite !Z.pow_add_r by lia. change (2 ^ 1) with 2. ring.
  - assert (H2 : 0 <= shr_m (SpecFloat.iter_pos shr_1 q mrs))
      by (rewrite IH by lia; apply Z.div_pos; [lia|apply Z.pow_pos_nonneg; lia]).
    rewrite IH by lia. rewrite IH by lia.
    rewrite !Z.div_div by (try apply Z.pow_pos_nonneg; lia).
    f_equal. change (Zpos q~0) with (2 * Zpos q).
    replace (2 * Zpos q) with (Zpos q + Zpos q) by lia.
    rewrite !Z.pow_add_r by lia. ring.
  - rewrite shr_1_m by lia. reflexivity.
Qed.

Lemma iter_xO_pow (n p : positive) : Zpos (Pos.iter xO p n) = Zpos p * 2 ^ Zpos n.
Proof.
  revert p. induction n as [n IH|n IH|]; intros p; cbn [Pos.iter].
  - change (Zpos (Pos.iter xO (Pos.iter xO p n) n)~0) with (2 * Zpos (Pos.iter xO (Pos.iter xO p n) n)).
    rewrite !IH. change (Zpos n~1) with (2 * Zpos n + 1).
    replace (2 * Zpos n + 1) with (1 + Zpos n + Zpos n) by lia.
    rewrite !Z.pow_add_r by lia. change (2 ^ 1) with 2. ring.
  - rewrite !IH. change (Zpos n~0) with (2 * Zpos n).
    replace (2 * Zpos n) with (Zpos n + Zpos n) by lia.
    rewrite !Z.pow_add_r by lia. ring.
  - change (2 ^ 1) with 2. lia.
Qed.

Lemma fexp32 (k : Z) : fexp 24 128 k = Z.max (k - 24) (-149).
Proof. reflexivity. Qed.

(** A 24-bit mantissa at an exponent in range is left alone by rounding. *)
Lemma round_aux_canonical (s : bool) (m : positive) (e : Z) :
  Zpos (digits2_pos m) = 24 -> -149 <= e <= 104 ->
  binary_round_aux 24 128 s (Zpos m) e loc_Exact = S754_finite s m e.
Proof.
  intros Hd He.
  assert (Hs : shr_fexp 24 128 (Zpos m) e loc_Exact
               = ({| shr_m := Zpos m; shr_r := false; shr_s := false |}, e)).
  { unfold shr_fexp. cbn [Zdigits2]. rewrite Hd, fexp32.
    replace (Z.max (24 + e - 24) (-149) - e) with 0 by lia. reflexivity. }
  unfold binary_round_aux. rewrite Hs. cbn [shr_m loc_of_shr_record round_nearest_even].
  rewrite Hs. cbn [shr_m].
  leb_true e (128 - 24).
  reflexivity.
Qed.


Lemma round_nearest_even_bounds (m : Z) (l : location) :
  m <= round_nearest_even m l <= m + 1.
Proof.
  destruct l as [|[| |]]; cbn [round_nearest_even]; try lia.
  destruct (Z.even m); lia.
Qed.

(** Rounding a positive integer with more than 24 bits keeps 24 of them. *)
Lemma round_aux_wide (p : positive) :
  24 < Zpos (digits2_pos p) <= 64 ->
  exists m e, binary_round_aux 24 128 false (Zpos p) 0 loc_Exact = S754_finite false m e
              /\ Zpos (digits2_pos m) = 24 /\ 1 <= e <= 41.
Proof.
  intros Hd. pose proof (digits2_pos_bounds p) as Hp.
  set (d := Zpos (digits2_pos p)) in *.
  assert (Hq : exists q, d - 24 = Zpos q).
  { destruct (d - 24) as [|q|q] eqn:E; try lia. exists q. reflexivity. }
  destruct Hq as [q Hq].
  assert (Hs : shr_fexp 24 128 (Zpos p) 0 loc_Exact
               = (SpecFloat.iter_pos shr_1 q {| shr_m := Zpos p; shr_r := false; shr_s := false |},
                  Zpos q)).
  { unfold shr_fexp. cbn [Zdigits2]. fold d. rewrite fexp32.
    replace (Z.max (d + 0 - 24) (-149) - 0) with (Zpos q) by lia. reflexivity. }
  unfold binary_round_aux. rewrite Hs.
  set (mrs := SpecFloat.iter_pos shr_1 q _).
  assert (Hm0 : shr_m mrs = Zpos p / 2 ^ Zpos q).
  { unfold mrs. rewrite shr_iter_m by (cbn; lia). reflexivity. }
  assert (Hpow : 2 ^ d = 2 ^ 24 * 2 ^ Zpos q).
  { rewrite <- Z.pow_add_r by lia. f_equal. lia. }
  assert (Hpow' : 2 ^ (d - 1) = 2 ^ 23 * 2 ^ Zpos q).
  { rewrite <- Z.pow_add_r by lia. f_equal. lia. }
  assert (H2q : 0 < 2 ^ Zpos q) by (apply Z.pow_pos_nonneg; lia).
  assert (Hrange : 2 ^ 23 <= shr_m mrs < 2 ^ 24).
  { rewrite Hm0. split.
    - apply Z.div_le_lower_bound; lia.
    - apply Z.div_lt_upper_bound; lia. }
  pose proof (round_nearest_even_bounds (shr_m mrs) (loc_of_shr_record mrs)) as Hr.
  destruct (round_nearest_even (shr_m mrs) (loc_of_shr_record mrs)) as [|m1|m1];
    try lia.
  destruct (Z.eq_dec (Zpos m1) (2 ^ 24)) as [Htop|Htop].
  - (* the mantissa was rounded up to 2^24: one more shift *)
    assert (m1 = 16777216%positive) as -> by lia.
    assert (Hs2 : shr_fexp 24 128 (Zpos 16777216) (Zpos q) loc_Exact
                  = ({| shr_m := 8388608; shr_r := false; shr_s := false |}, Zpos q + 1)).
    { unfold shr_fexp. change (Zdigits2 16777216) with 25. rewrite fexp32.
      replace (Z.max (25 + Zpos q - 24) (-149) - Zpos q) with 1 by lia. reflexivity. }
    rewrite Hs2. cbn [shr_m].
    leb_true (Zpos q + 1) (128 - 24).
    exists 8388608%positive, (Zpos q + 1). split; [reflexivity|]. split; [reflexivity|lia].
  - assert (Hd1 : Zpos (digits2_pos m1) = 24) by (apply digits2_pos_unique; lia).
    assert (Hs2 : shr_fexp 24 128 (Zpos m1) (Zpos q) loc_Exact
                  = ({| shr_m := Zpos m1; shr_r := false; shr_s := false |}, Zpos q)).
    { unfold shr_fexp. cbn [Zdigits2]. rewrite Hd1, fexp32.
      replace (Z.max (24 + Zpos q - 24) (-149) - Zpos q) with 0 by lia. reflexivity. }
    rewrite Hs2. cbn [shr_m].
    leb_true (Zpos q) (128 - 24).
    exists m1, (Zpos q). split; [reflexivity|]. split; [exact Hd1|lia].
Qed.

(** A positive integer of at most 24 bits is converted exactly. *)
Lemma of_Z_small (p : positive) :
  Zpos (digits2_pos p) <= 24 ->
  exists m e, binary_normalize 24 128 (Zpos p) 0 false = S754_finite false m e
              /\ Zpos (digits2_pos m) = 24 /\ -23 <= e <= 0
              /\ Zpos m = Zpos p * 2 ^ (- e).
Proof.
  intros Hd24. pose proof (digits2_pos_bounds p) as Hp.
  cbn [binary_normalize]. unfold binary_round.
  set (d := Zpos (digits2_pos p)) in *.
  assert (Hd : 1 <= d) by (unfold d; lia).
  rewrite fexp32.
  destruct (Z.eq_dec d 24) as [Heq|Hne].
  - replace (Z.max (d + 0 - 24) (-149)) with 0 by lia.
    unfold shl_align. change (0 - 0) with 0. cbv beta iota.
    rewrite round_aux_canonical by (try assumption; lia).
    eexists _, _. split; [reflexivity|]. split; [exact Heq|]. split; [lia|].
    change (2 ^ (- 0)) with 1. lia.
  - assert (Hq : exists q, d + 0 - 24 - 0 = Zneg q).
    { destruct (d + 0 - 24 - 0) as [|q|q] eqn:E; try lia. exists q. reflexivity. }
    destruct Hq as [q Hq].
    replace (Z.max (d + 0 - 24) (-149)) with (d + 0 - 24) by lia.
    unfold shl_align. rewrite Hq.
    assert (Hq' : Zpos q = 24 - d) by lia.
    assert (Hdig : Zpos (digits2_pos (Pos.iter xO p q)) = 24).
    { apply digits2_pos_unique. rewrite iter_xO_pow.
      assert (2 ^ 23 = 2 ^ (d - 1) * 2 ^ Zpos q)
        by (rewrite <- Z.pow_add_r by lia; f_equal; lia).
      assert (2 ^ 24 = 2 ^ d * 2 ^ Zpos q)
        by (rewrite <- Z.pow_add_r by lia; f_equal; lia).
      assert (0 < 2 ^ Zpos q) by (apply Z.pow_pos_nonneg; lia).
      change (24 - 1) with 23. nia. }
    rewrite round_aux_canonical by (try assumption; lia).
    eexists _, _. split; [reflexivity|]. split; [exact Hdig|]. split; [lia|].
    rewrite iter_xO_pow. f_equal. f_equal. lia.
Qed.

(** The conversion of a positive integer below 2^64 is a normal float. *)
Lemma of_Z_shape (z : Z) :
  0 < z < 2 ^ 64 ->
  exists m e, binary_normalize 24 128 z 0 false = S754_finite false m e
              /\ Zpos (digits2_pos m) = 24 /\ -23 <= e <= 41.
Proof.
  intros Hz. destruct z as [|p|p]; try lia.
  pose proof (digits2_pos_bounds p) as Hp.
  cbn [binary_normalize]. unfold binary_round.
  set (d := Zpos (digits2_pos p)) in *.
  assert (Hd : 1 <= d <= 64).
  { split; [unfold d; lia|].
    destruct (Z.le_gt_cases d 64) as [|Hgt]; [assumption|].
    assert (2 ^ 64 <= 2 ^ (d - 1)) by (apply Z.pow_le_mono_r; lia). lia. }
  rewrite fexp32.
  destruct (Z.le_gt_cases d 24) as [Hle|Hgt].
  - destruct (of_Z_small p Hle) as (m & e & Hr & Hm & He & _).
    cbn [binary_normalize] in Hr. unfold binary_round in Hr. rewrite fexp32 in Hr.
    fold d in Hr. rewrite Hr. exists m, e. split; [reflexivity|]. split; [exact Hm|lia].
  - replace (Z.max (d + 0 - 24) (-149)) with (d - 24) by lia.
    unfold shl_align.
    destruct (d - 24 - 0) as [|q|q] eqn:E; try lia.
    destruct (round_aux_wide p) as (m & e & Hr & Hm & He); [fold d; lia|].
    rewrite Hr. exists m, e. split; [reflexivity|]. split; [exact Hm|lia].
Qed.

Lemma div_eucl_pair (a b : Z) : Z.div_eucl a b = (a / b, a mod b).
Proof. unfold Z.div, Z.modulo. destruct (Z.div_eucl a b). reflexivity. Qed.

(** Dividing a normal float by 1.0f gives it back. *)
Lemma div_one (m : positive) (e : Z) :
  Zpos (digits2_pos m) = 24 -> -100 <= e <= 104 ->
  SFdiv 24 128 (S754_finite false m e) (S754_finite false 8388608 (-23))
  = S754_finite false m e.
Proof.
  intros Hd He. cbn [SFdiv xorb].
  assert (Hcore : SFdiv_core_binary 24 128 (Zpos m) e 8388608 (-23)
                  = (Zpos m~0, e - 1, loc_Exact)).
  { unfold SFdiv_core_binary. cbn [Zdigits2]. rewrite Hd.
    change (Zpos (digits2_pos 8388608)) with 24. rewrite fexp32.
    replace (Z.min (Z.max (24 + e - (24 + -23) - 24) (-149)) (e - -23)) with (e - 1) by lia.
    replace (e - -23 - (e - 1)) with 24 by lia.
    rewrite Z.shiftl_mul_pow2 by lia.
    rewrite div_eucl_pair.
    replace (Zpos m * 2 ^ 24) with (Zpos m~0 * 8388608) by lia.
    rewrite Z.div_mul, Z.mod_mul by lia. reflexivity. }
  rewrite Hcore.
  assert (Hs : shr_fexp 24 128 (Zpos m~0) (e - 1) loc_Exact
               = ({| shr_m := Zpos m; shr_r := false; shr_s := false |}, e)).
  { unfold shr_fexp. cbn [Zdigits2 digits2_pos]. rewrite Pos2Z.inj_succ, Hd, fexp32.
    replace (Z.max (Z.succ 24 + (e - 1) - 24) (-149) - (e - 1)) with 1 by lia.
    cbn [shr shr_record_of_loc SpecFloat.iter_pos shr_1]. f_equal. lia. }
  unfold binary_round_aux. rewrite Hs. cbn [shr_m loc_of_shr_record round_nearest_even].
  assert (Hs2 : shr_fexp 24 128 (Zpos m) e loc_Exact
               = ({| shr_m := Zpos m; shr_r := false; shr_s := false |}, e)).
  { unfold shr_fexp. cbn [Zdigits2]. rewrite Hd, fexp32.
    replace (Z.max (24 + e - 24) (-149) - e) with 0 by lia. reflexivity. }
  rewrite Hs2. cbn [shr_m].
  leb_true e (128 - 24).
  reflexivity.
Qed.

(** ** Rounding

    Every operation of [SpecFloat] ends in [binary_round_aux], which shifts
    the mantissa down to 24 bits and rounds it to nearest-even.  For results
    in the range of the normal numbers this costs a relative error of at most
    2^-24, proved here once and used for the conversion, the product and the
    quotient. *)

Lemma located_shr_1 (P X : Z) (mrs : shr_record) :
  0 < P -> 0 <= shr_m mrs -> located P X mrs -> located (2 * P) X (shr_1 mrs).
Proof.
  destruct mrs as [m r s]. unfold located. cbn [shr_m shr_r shr_s].
  intros HP Hm (Hin & Hr & Hs).
  destruct r, s; bit_fact Hr; bit_fact Hs;
    (destruct m as [|[p|p|]|p]; [| | | |lia]);
    cbn [shr_1 shr_m shr_r shr_s orb];
    try change (Zpos p~1) with (2 * Zpos p + 1) in *;
    try change (Zpos p~0) with (2 * Zpos p) in *;
    (split; [lia|split; bit_goal; lia]).
Qed.

Lemma shr_1_nonneg (mrs : shr_record) : 0 <= shr_m mrs -> 0 <= shr_m (shr_1 mrs).
Proof. intros H. rewrite shr_1_m by exact H. apply Z.div_pos; lia. Qed.

Lemma shr_iter_nonneg (q : positive) (mrs : shr_record) :
  0 <= shr_m mrs -> 0 <= shr_m (SpecFloat.iter_pos shr_1 q mrs).
Proof.
  intros H. rewrite shr_iter_m by exact H. apply Z.div_pos; [exact H|].
  apply Z.pow_pos_nonneg; lia.
Qed.

Lemma located_iter (X : Z) (q : positive) : forall (P : Z) (mrs : shr_record),
  0 < P -> 0 <= shr_m mrs -> located P X mrs ->
  located (P * 2 ^ Zpos q) X (SpecFloat.iter_pos shr_1 q mrs).
Proof.
  induction q as [q IH|q IH|]; intros P mrs HP Hm Hloc; cbn [SpecFloat.iter_pos].
  - assert (H2 : 0 < 2 ^ Zpos q) by (apply Z.pow_pos_nonneg; lia).
    replace (P * 2 ^ Zpos q~1) with ((2 * P * 2 ^ Zpos q) * 2 ^ Zpos q).
    2:{ replace (Zpos q~1) with (Zpos q + Zpos q + 1) by lia.
        rewrite !Z.pow_add_r by lia. change (2 ^ 1) with 2. ring. }
    apply IH; [lia|apply shr_iter_nonneg, shr_1_nonneg, Hm|].
    apply IH; [lia|apply shr_1_nonneg, Hm|].
    apply located_shr_1; assumption.
  - assert (H2 : 0 < 2 ^ Zpos q) by (apply Z.pow_pos_nonneg; lia).
    replace (P * 2 ^ Zpos q~0) with ((P * 2 ^ Zpos q) * 2 ^ Zpos q).
    2:{ replace (Zpos q~0) with (Zpos q + Zpos q) by lia.
        rewrite !Z.pow_add_r by lia. ring. }
    apply IH; [lia|apply shr_iter_nonneg, Hm|].
    apply IH; assumption.
  - change (2 ^ 1) with 2. rewrite Z.mul_comm. apply located_shr_1; assumption.
Qed.

(** Rounding to nearest moves the mantissa by at most half a unit. *)
Lemma located_round (P X : Z) (mrs : shr_record) :
  0 < P -> located P X mrs ->
  let m1 := round_nearest_even (shr_m mrs) (loc_of_shr_record mrs) in
  shr_m mrs <= m1 <= shr_m mrs + 1 /\ - P <= 2 * P * m1 - X <= P.
Proof.
  destruct mrs as [m r s]. unfold located. cbn [shr_m shr_r shr_s].
  intros HP (Hin & Hr & Hs).
  destruct r, s; bit_fact Hr; bit_fact Hs; cbn [loc_of_shr_record round_nearest_even];
    try destruct (Z.even m); lia.
Qed.

Lemma located_of_loc_exact (m : Z) : located 1 (2 * m) (shr_record_of_loc m loc_Exact).
Proof.
  unfold located. cbn [shr_record_of_loc shr_m shr_r shr_s].
  split; [lia|]. split; bit_goal; lia.
Qed.

(** The first step of [binary_round_aux] on a mantissa of [d >= 24] bits in
    the range of the normal numbers: the mantissa is shifted down to 24 bits,
    and the record still locates the number. *)
Lemma shr_fexp_located (mx : positive) (ex : Z) (lx : location) (D X : Z) :
  let n := Zpos (digits2_pos mx) - 24 in
  0 <= n -> -149 <= ex + n -> 0 < D ->
  located D X (shr_record_of_loc (Zpos mx) lx) ->
  exists mrs,
    shr_fexp 24 128 (Zpos mx) ex lx = (mrs, ex + n)
    /\ shr_m mrs = Zpos mx / 2 ^ n
    /\ 2 ^ 23 <= shr_m mrs < 2 ^ 24
    /\ located (D * 2 ^ n) X mrs.
Proof.
  intros n Hn Hlo HD Hloc. pose proof (digits2_pos_bounds mx) as Hp.
  set (d := Zpos (digits2_pos mx)) in *.
  assert (H2n : 0 < 2 ^ n) by (apply Z.pow_pos_nonneg; lia).
  assert (Hpow : 2 ^ d = 2 ^ 24 * 2 ^ n).
  { rewrite <- Z.pow_add_r by lia. f_equal. unfold n. lia. }
  assert (Hpow' : 2 ^ (d - 1) = 2 ^ 23 * 2 ^ n).
  { rewrite <- Z.pow_add_r by lia. f_equal. unfold n. lia. }
  assert (Hrange : 2 ^ 23 <= Zpos mx / 2 ^ n < 2 ^ 24).
  { split.
    - apply Z.div_le_lower_bound; lia.
    - apply Z.div_lt_upper_bound; lia. }
  assert (Hm0 : shr_m (shr_record_of_loc (Zpos mx) lx) = Zpos mx)
    by (destruct lx as [|[]]; reflexivity).
  unfold shr_fexp. cbn [Zdigits2]. fold d. rewrite fexp32.
  replace (Z.max (d + ex - 24) (-149) - ex) with n by (unfold n; lia).
  destruct n as [|q|q] eqn:En; [| |lia].
  - exists (shr_record_of_loc (Zpos mx) lx). cbn [shr]. rewrite Z.add_0_r.
    change (2 ^ 0) with 1 in *. rewrite Z.div_1_r in Hrange. rewrite Z.mul_1_r.
    split; [reflexivity|]. split; [rewrite Z.div_1_r; exact Hm0|].
    split; [rewrite Hm0; exact Hrange|exact Hloc].
  - exists (SpecFloat.iter_pos shr_1 q (shr_record_of_loc (Zpos mx) lx)).
    cbn [shr]. split; [reflexivity|].
    assert (Hm : shr_m (SpecFloat.iter_pos shr_1 q (shr_record_of_loc (Zpos mx) lx))
                 = Zpos mx / 2 ^ Zpos q).
    { rewrite shr_iter_m by (rewrite Hm0; lia). rewrite Hm0. reflexivity. }
    split; [exact Hm|]. split; [rewrite Hm; exact Hrange|].
    apply located_iter; [exact HD|rewrite Hm0; lia|exact Hloc].
Qed.

(** The second step: a mantissa of 24 bits in range is left alone, and 2^24,
    which rounding up can produce, is renormalised. *)
Lemma shr_fexp_normal (m : positive) (e : Z) :
  Zpos (digits2_pos m) = 24 -> -149 <= e ->
  shr_fexp 24 128 (Zpos m) e loc_Exact
  = ({| shr_m := Zpos m; shr_r := false; shr_s := false |}, e).
Proof.
  intros Hd He. unfold shr_fexp. cbn [Zdigits2]. rewrite Hd, fexp32.
  replace (Z.max (24 + e - 24) (-149) - e) with 0 by lia. reflexivity.
Qed.

Lemma shr_fexp_carry (e : Z) :
  -149 <= e ->
  shr_fexp 24 128 (Zpos 16777216) e loc_Exact
  = ({| shr_m := 8388608; shr_r := false; shr_s := false |}, e + 1).
Proof.
  intros He. unfold shr_fexp. change (Zdigits2 16777216) with 25. rewrite fexp32.
  replace (Z.max (25 + e - 24) (-149) - e) with 1 by lia. reflexivity.
Qed.

(** [binary_round_aux] on a mantissa of at least 24 bits in the range of the
    normal numbers: the result is a normal float within half a unit in the
    last place of the number located. *)
Lemma round_aux_located (sx : bool) (mx : positive) (ex : Z) (lx : location) (D X : Z) :
  let d := Zpos (digits2_pos mx) in
  24 <= d -> -149 <= ex + d - 24 -> ex + d - 23 <= 104 -> 0 < D ->
  located D X (shr_record_of_loc (Zpos mx) lx) ->
  exists m e,
    binary_round_aux 24 128 sx (Zpos mx) ex lx = S754_finite sx m e
    /\ Zpos (digits2_pos m) = 24
    /\ ex + d - 24 <= e <= ex + d - 23
    /\ - (D * 2 ^ (e - ex) * Zpos m)
       <= 2 ^ 23 * (2 * D * 2 ^ (e - ex) * Zpos m - X)
       <= D * 2 ^ (e - ex) * Zpos m.
Proof.
  intros d Hd Hlo Hhi HD Hloc.
  destruct (shr_fexp_located mx ex lx D X) as (mrs & Hs & _ & Hrange & Hl);
    try (fold d; lia); try assumption.
  fold d in Hs, Hl. set (n := d - 24) in *.
  assert (H2n : 0 < 2 ^ n) by (apply Z.pow_pos_nonneg; lia).
  unfold binary_round_aux. rewrite Hs.
  destruct (located_round (D * 2 ^ n) X mrs) as [Hr Herr]; [lia|exact Hl|].
  destruct (round_nearest_even (shr_m mrs) (loc_of_shr_record mrs)) as [|m1|m1];
    try lia.
  destruct (Z.eq_dec (Zpos m1) (2 ^ 24)) as [Htop|Htop].
  - assert (m1 = 16777216%positive) as -> by lia.
    rewrite shr_fexp_carry by lia. cbn [shr_m].
    leb_true (ex + n + 1) (128 - 24).
    exists 8388608%positive, (ex + n + 1). split; [reflexivity|]. split; [reflexivity|].
    split; [unfold n; lia|].
    replace (ex + n + 1 - ex) with (n + 1) by lia.
    rewrite Z.pow_add_r by lia. change (2 ^ 1) with 2.
    change (2 ^ 23) with 8388608. change (2 ^ 24) with 16777216 in *. lia.
  - assert (Hd1 : Zpos (digits2_pos m1) = 24) by (apply digits2_pos_unique; lia).
    rewrite shr_fexp_normal by (try exact Hd1; lia). cbn [shr_m].
    leb_true (ex + n) (128 - 24).
    exists m1, (ex + n). split; [reflexivity|]. split; [exact Hd1|].
    split; [unfold n; lia|].
    replace (ex + n - ex) with n by lia.
    change (2 ^ 23) with 8388608 in *. change (2 ^ 24) with 16777216 in *.
    assert (0 < D * 2 ^ n) by lia.
    nia.
Qed.



Lemma pow2_pos (e : Z) : (0 < 2 ^ e)%Q.
Proof. apply Qpower_0_lt. reflexivity. Qed.

Lemma pow2_add (a b : Z) : (2 ^ (a + b) == 2 ^ a * 2 ^ b)%Q.
Proof. apply Qpower_plus. discriminate. Qed.

Lemma pow2_inject (n : Z) : 0 <= n -> (inject_Z (2 ^ n) == 2 ^ n)%Q.
Proof. intros Hn. rewrite Zpower_Qpower by exact Hn. reflexivity. Qed.

Lemma fval_pos (m : positive) (e : Z) : (0 < fval m e)%Q.
Proof.
  unfold fval. apply Qmult_lt_0_compat; [|apply pow2_pos].
  change 0%Q with (inject_Z 0). rewrite <- Zlt_Qlt. lia.
Qed.

Lemma f_value_fval (m : positive) (e : Z) :
  (f_value (S754_finite false m e) == fval m e)%Q.
Proof.
  unfold f_value, fval. cbn [this Q2Qc]. rewrite Qred_correct.
  destruct (0 <=? e) eqn:He.
  - apply Z.leb_le in He. rewrite inject_Z_mult, pow2_inject by exact He. reflexivity.
  - apply Z.leb_gt in He.
    assert (Hp : 0 < 2 ^ (- e)) by (apply Z.pow_pos_nonneg; lia).
    rewrite (Qmake_Qdiv (Zpos m) (Z.to_pos (2 ^ (- e)))).
    rewrite Z2Pos.id by exact Hp. rewrite pow2_inject by lia.
    rewrite Qpower_opp. unfold Qdiv. rewrite Qinv_involutive. reflexivity.
Qed.

Lemma approximates_scaled (A X : Z) (c v r : Q) :
  (0 < c)%Q -> (v == inject_Z A * c)%Q -> (r == inject_Z X * c)%Q ->
  - A <= 2 ^ 24 * (A - X) <= A ->
  approximates 24 v r.
Proof.
  intros Hc Hv Hr [H1 H2]. unfold approximates.
  rewrite Zle_Qle in H1, H2. inject_in H1. inject_in H2.
  change (inject_Z (2 ^ 24)) with (16777216 # 1)%Q in *.
  change (2 ^ 24)%positive with 16777216%positive.
  set (a := inject_Z A) in *. set (x := inject_Z X) in *.
  rewrite Hv, Hr. split.
  - setoid_replace (a * c * (1 - (1 # 16777216)))%Q with ((a * (1 - (1 # 16777216))) * c)%Q
      using relation Qeq by ring.
    apply Qmult_le_compat_r; [lra|lra].
  - setoid_replace (a * c * (1 + (1 # 16777216)))%Q with ((a * (1 + (1 # 16777216))) * c)%Q
      using relation Qeq by ring.
    apply Qmult_le_compat_r; [lra|lra].
Qed.

Lemma approximates_refl (k : positive) (x r : Q) : (0 <= x)%Q -> (x == r)%Q -> approximates k x r.
Proof.
  intros Hx Hr. unfold approximates. rewrite <- Hr.
  assert (H : (0 <= x * (1 # 2 ^ k))%Q).
  { apply Qmult_le_0_compat; [exact Hx|]. unfold Qle. cbn. lia. }
  split; lra.
Qed.

(** The conversion of a positive integer below 2^64 rounds once. *)
Lemma f32_of_Z_rounds (z : Z) :
  0 < z < 2 ^ 64 ->
  exists m e, f32_of_Z z = S754_finite false m e
              /\ Zpos (digits2_pos m) = 24 /\ -23 <= e <= 41
              /\ (z < 2 ^ 32 -> e <= 9)
              /\ (2 ^ 24 <= z -> 1 <= e)
              /\ approximates 24 (fval m e) (inject_Z z).
Proof.
  intros Hz. destruct z as [|p|p]; try lia.
  pose proof (digits2_pos_bounds p) as Hp.
  set (d := Zpos (digits2_pos p)) in *.
  assert (Hd : 1 <= d <= 64).
  { split; [unfold d; lia|].
    destruct (Z.le_gt_cases d 64) as [|Hgt]; [assumption|].
    assert (2 ^ 64 <= 2 ^ (d - 1)) by (apply Z.pow_le_mono_r; lia). lia. }
  assert (Hd32 : Zpos p < 2 ^ 32 -> d <= 32).
  { intros H32. destruct (Z.le_gt_cases d 32) as [|Hgt]; [assumption|].
    assert (2 ^ 32 <= 2 ^ (d - 1)) by (apply Z.pow_le_mono_r; lia). lia. }
  destruct (Z.le_gt_cases d 24) as [Hle|Hgt].
  - destruct (of_Z_small p Hle) as (m & e & Hr & Hm & He & Hv).
    exists m, e. split; [exact Hr|]. split; [exact Hm|]. split; [lia|]. split; [lia|].
    split.
    { intros Hbig. assert (2 ^ d <= 2 ^ 24) by (apply Z.pow_le_mono_r; lia). lia. }
    apply approximates_refl; [apply Qlt_le_weak, fval_pos|].
    unfold fval. rewrite Hv, inject_Z_mult, pow2_inject by lia.
    rewrite <- Qmult_assoc, <- pow2_add. replace (- e + e) with 0 by lia.
    change (2 ^ 0)%Q with 1%Q. ring.
  - unfold f32_of_Z. cbn [binary_normalize]. unfold binary_round. fold d. rewrite fexp32.
    replace (Z.max (d + 0 - 24) (-149)) with (d - 24) by lia.
    unfold shl_align.
    destruct (d - 24 - 0) as [|q|q] eqn:E; try lia.
    destruct (round_aux_located false p 0 loc_Exact 1 (2 * Zpos p))
      as (m & e & Hr & Hm & He & Herr); try (fold d; lia).
    { apply located_of_loc_exact. }
    fold d in He. rewrite Z.sub_0_r in Herr.
    exists m, e. split; [exact Hr|]. split; [exact Hm|]. split; [lia|].
    split; [intros H32; specialize (Hd32 H32); lia|].
    split; [lia|].
    apply (approximates_scaled (2 * 2 ^ e * Zpos m) (2 * Zpos p) (1 # 2)).
    + reflexivity.
    + unfold fval. rewrite !inject_Z_mult, pow2_inject by lia.
      change (inject_Z 2) with 2%Q. field.
    + rewrite inject_Z_mult. change (inject_Z 2) with 2%Q. field.
    + lia.
Qed.

(** The product of two normal floats in range rounds once. *)
Lemma SFmul_rounds (m1 m2 : positive) (e1 e2 : Z) :
  Zpos (digits2_pos m1) = 24 -> Zpos (digits2_pos m2) = 24 ->
  -149 <= e1 + e2 + 23 -> e1 + e2 + 25 <= 104 ->
  exists m e,
    SFmul 24 128 (S754_finite false m1 e1) (S754_finite false m2 e2) = S754_finite false m e
    /\ Zpos (digits2_pos m) = 24
    /\ e1 + e2 + 23 <= e <= e1 + e2 + 25
    /\ approximates 24 (fval m e) (fval m1 e1 * fval m2 e2).
Proof.
  intros Hd1 Hd2 Hlo Hhi.
  pose proof (digits2_pos_bounds m1) as Hb1. pose proof (digits2_pos_bounds m2) as Hb2.
  rewrite Hd1 in Hb1. rewrite Hd2 in Hb2.
  change (2 ^ (24 - 1)) with 8388608 in *. change (2 ^ 24) with 16777216 in *.
  pose proof (digits2_pos_bounds (m1 * m2)) as Hp.
  set (d := Zpos (digits2_pos (m1 * m2))) in *.
  assert (Hprod : 2 ^ 46 <= Zpos (m1 * m2) < 2 ^ 48).
  { rewrite Pos2Z.inj_mul. change (2 ^ 46) with (8388608 * 8388608).
    change (2 ^ 48) with (16777216 * 16777216). nia. }
  assert (Hd : 47 <= d <= 48).
  { split.
    - destruct (Z.le_gt_cases 47 d) as [|Hlt]; [assumption|].
      assert (2 ^ d <= 2 ^ 46) by (apply Z.pow_le_mono_r; lia). lia.
    - destruct (Z.le_gt_cases d 48) as [|Hgt]; [assumption|].
      assert (2 ^ 48 <= 2 ^ (d - 1)) by (apply Z.pow_le_mono_r; lia). lia. }
  cbn [SFmul xorb].
  destruct (round_aux_located false (m1 * m2) (e1 + e2) loc_Exact 1 (2 * Zpos (m1 * m2)))
    as (m & e & Hr & Hm & He & Herr); try (fold d; lia).
  { apply located_of_loc_exact. }
  fold d in He.
  exists m, e. split; [exact Hr|]. split; [exact Hm|]. split; [lia|].
  apply (approximates_scaled (2 * 2 ^ (e - (e1 + e2)) * Zpos m) (2 * Zpos (m1 * m2))
           ((1 # 2) * 2 ^ (e1 + e2))%Q).
  - apply Qmult_lt_0_compat; [reflexivity|apply pow2_pos].
  - unfold fval. rewrite !inject_Z_mult, pow2_inject by lia.
    change (inject_Z 2) with 2%Q.
    setoid_replace (2 ^ e)%Q with (2 ^ (e - (e1 + e2)) * 2 ^ (e1 + e2))%Q
      using relation Qeq.
    + field.
    + rewrite <- pow2_add. replace (e - (e1 + e2) + (e1 + e2)) with e by lia. reflexivity.
  - unfold fval. rewrite Pos2Z.inj_mul, !inject_Z_mult. change (inject_Z 2) with 2%Q.
    rewrite pow2_add. field.
  - lia.
Qed.

Lemma inject_pos_nonzero (p : positive) : ~ (inject_Z (Zpos p) == 0)%Q.
Proof. unfold Qeq. cbn. lia. Qed.

(** The location [SFdiv_core_binary] computes for a quotient. *)
Lemma located_new_location (D N : Z) :
  0 < D -> 0 <= N ->
  located D (2 * N) (shr_record_of_loc (N / D) (new_location D (N mod D))).
Proof.
  intros HD HN.
  pose proof (Z.div_mod N D ltac:(lia)) as Hdm.
  pose proof (Z.mod_pos_bound N D HD) as Hr.
  set (q := N / D) in *. set (r := N mod D) in *.
  assert (HDq : 2 * N = 2 * D * q + 2 * r) by lia.
  clearbody q r. clear Hdm.
  unfold new_location, new_location_even, new_location_odd.
  destruct (Z.even D) eqn:Heven.
  - destruct (Z.eqb_spec r 0) as [Hr0|Hr0].
    + unfold located. cbn [shr_record_of_loc shr_m shr_r shr_s].
      split; [lia|]. split; bit_goal; lia.
    + destruct (Z.compare_spec (2 * r) D) as [Hc|Hc|Hc];
        unfold located; cbn [shr_record_of_loc shr_m shr_r shr_s];
        (split; [lia|]); split; bit_goal; lia.
  - assert (Hodd : exists k, D = 2 * k + 1).
    { apply Z.odd_spec. rewrite <- Z.negb_even, Heven. reflexivity. }
    destruct Hodd as [k Hk].
    destruct (Z.eqb_spec r 0) as [Hr0|Hr0].
    + unfold located. cbn [shr_record_of_loc shr_m shr_r shr_s].
      split; [lia|]. split; bit_goal; lia.
    + destruct (Z.compare_spec (2 * r + 1) D) as [Hc|Hc|Hc];
        unfold located; cbn [shr_record_of_loc shr_m shr_r shr_s];
        (split; [lia|]); split; bit_goal; lia.
Qed.

(** The quotient of two normal floats in range rounds once. *)
Lemma SFdiv_rounds (m1 m2 : positive) (e1 e2 : Z) :
  Zpos (digits2_pos m1) = 24 -> Zpos (digits2_pos m2) = 24 ->
  -149 <= e1 - e2 - 24 -> e1 - e2 - 22 <= 104 ->
  exists m e,
    SFdiv 24 128 (S754_finite false m1 e1) (S754_finite false m2 e2) = S754_finite false m e
    /\ Zpos (digits2_pos m) = 24
    /\ e1 - e2 - 24 <= e <= e1 - e2 - 22
    /\ approximates 24 (fval m e) (fval m1 e1 / fval m2 e2).
Proof.
  intros Hd1 Hd2 Hlo Hhi.
  pose proof (digits2_pos_bounds m1) as Hb1. pose proof (digits2_pos_bounds m2) as Hb2.
  rewrite Hd1 in Hb1. rewrite Hd2 in Hb2.
  change (2 ^ (24 - 1)) with 8388608 in *. change (2 ^ 24) with 16777216 in *.
  set (N := Zpos m1 * 16777216).
  assert (Hcore : SFdiv_core_binary 24 128 (Zpos m1) e1 (Zpos m2) e2
                  = (N / Zpos m2, e1 - e2 - 24, new_location (Zpos m2) (N mod Zpos m2))).
  { unfold SFdiv_core_binary. cbn [Zdigits2]. rewrite Hd1, Hd2, fexp32.
    replace (Z.min (Z.max (24 + e1 - (24 + e2) - 24) (-149)) (e1 - e2)) with (e1 - e2 - 24)
      by lia.
    replace (e1 - e2 - (e1 - e2 - 24)) with 24 by lia.
    rewrite Z.shiftl_mul_pow2 by lia. change (2 ^ 24) with 16777216. fold N.
    rewrite div_eucl_pair. reflexivity. }
  cbn [SFdiv xorb]. rewrite Hcore.
  assert (Hq : 2 ^ 23 <= N / Zpos m2 < 2 ^ 25).
  { change (2 ^ 23) with 8388608. change (2 ^ 25) with 33554432. split.
    - apply Z.div_le_lower_bound; unfold N; lia.
    - apply Z.div_lt_upper_bound; unfold N; lia. }
  destruct (N / Zpos m2) as [|q|q] eqn:Eq; try lia.
  pose proof (digits2_pos_bounds q) as Hp.
  set (d := Zpos (digits2_pos q)) in *.
  assert (Hd : 24 <= d <= 25).
  { split.
    - destruct (Z.le_gt_cases 24 d) as [|Hlt]; [assumption|].
      assert (2 ^ d <= 2 ^ 23) by (apply Z.pow_le_mono_r; lia). lia.
    - destruct (Z.le_gt_cases d 25) as [|Hgt]; [assumption|].
      assert (2 ^ 25 <= 2 ^ (d - 1)) by (apply Z.pow_le_mono_r; lia). lia. }
  destruct (round_aux_located false q (e1 - e2 - 24)
              (new_location (Zpos m2) (N mod Zpos m2)) (Zpos m2) (2 * N))
    as (m & e & Hr & Hm & He & Herr); try (fold d; lia).
  { rewrite <- Eq. apply located_new_location; unfold N; lia. }
  fold d in He.
  exists m, e. split; [exact Hr|]. split; [exact Hm|]. split; [lia|].
  set (ex := e1 - e2 - 24) in *.
  apply (approximates_scaled (2 * Zpos m2 * 2 ^ (e - ex) * Zpos m) (2 * N)
           ((1 # 2) * 2 ^ ex / inject_Z (Zpos m2))%Q).
  - apply Qlt_shift_div_l.
    + change 0%Q with (inject_Z 0). rewrite <- Zlt_Qlt. lia.
    + rewrite Qmult_0_l. apply Qmult_lt_0_compat; [reflexivity|apply pow2_pos].
  - unfold fval. rewrite !inject_Z_mult, pow2_inject by lia.
    change (inject_Z 2) with 2%Q.
    setoid_replace (2 ^ e)%Q with (2 ^ (e - ex) * 2 ^ ex)%Q using relation Qeq.
    + field. apply inject_pos_nonzero.
    + rewrite <- pow2_add. replace (e - ex + ex) with e by lia. reflexivity.
  - unfold fval, N. rewrite !inject_Z_mult. change (inject_Z 2) with 2%Q.
    change (inject_Z 16777216) with (2 ^ 24)%Q.
    setoid_replace (2 ^ e1)%Q with (2 ^ 24 * 2 ^ ex * 2 ^ e2)%Q using relation Qeq.
    + field. split; [apply inject_pos_nonzero|].
      pose proof (pow2_pos e2). lra.
    + rewrite <- !pow2_add. replace (24 + ex + e2) with e1 by (unfold ex; lia). reflexivity.
  - lia.
Qed.

Lemma inject_Z_pos (z : Z) : 0 < z -> (0 < inject_Z z)%Q.
Proof. intros Hz. change 0%Q with (inject_Z 0). rewrite <- Zlt_Qlt. exact Hz. Qed.

(** Closeness to a quotient, without the division. *)
Lemma approximates_div (k : positive) (v x y : Q) :
  (0 < y)%Q -> approximates k v (x / y) ->
  (v * (1 - (1 # 2 ^ k)) * y <= x /\ x <= v * (1 + (1 # 2 ^ k)) * y)%Q.
Proof.
  intros Hy [H1 H2].
  assert (Hx : (x / y * y == x)%Q) by (field; lra).
  split.
  - rewrite <- Hx. apply Qmult_le_compat_r; [exact H1|lra].
  - rewrite <- Hx at 1. apply Qmult_le_compat_r; [exact H2|lra].
Qed.

Lemma approximates_f_value (k : positive) (x : float) (m : positive) (e : Z) (r : Q) :
  x = S754_finite false m e -> approximates k (fval m e) r -> approximates k (f_value x) r.
Proof.
  intros -> [H1 H2]. unfold approximates. rewrite f_value_fval. split; assumption.
Qed.



(** ** Exact arithmetic *)

Lemma Zc_add a b : Zc (a + b) = (Zc a + Zc b)%Qc.
Proof.
  unfold Zc. apply Qc_is_canon. simpl.
  rewrite !Qred_correct. rewrite inject_Z_plus. reflexivity.
Qed.

Lemma Zc_mul a b : Zc (a * b) = (Zc a * Zc b)%Qc.
Proof.
  unfold Zc. apply Qc_is_canon. simpl.
  rewrite !Qred_correct. rewrite inject_Z_mult. reflexivity.
Qed.

Lemma Zc_0 : Zc 0 = 0%Qc.
Proof. reflexivity. Qed.

Lemma Zc_1 : Zc 1 = 1%Qc.
Proof. reflexivity. Qed.

Lemma Zc_inj a b : Zc a = Zc b -> a = b.
Proof.
  unfold Zc. intros E. apply Q2Qc_eq_iff in E.
  unfold Qeq in E. simpl in E. lia.
Qed.

Lemma Zc_nonzero a : a <> 0 -> Zc a <> 0%Qc.
Proof. intros Ha E. apply Ha. apply Zc_inj. rewrite E. reflexivity. Qed.

Lemma sum_list_snoc l x : sum_list (l ++ [x]) = (sum_list l + x)%Qc.
Proof.
  induction l as [|y l IH]; cbn [sum_list foldr app] in *.
  - rewrite Zc_0. ring.
  - fold (sum_list (l ++ [x])). fold (sum_list l). rewrite IH. ring.
Qed.

Lemma Zc_succ_nonzero n : 0 <= n -> (Zc n + 1)%Qc <> 0%Qc.
Proof.
  intros Hn. replace (Zc n + 1)%Qc with (Zc (n + 1)).
  - apply Zc_nonzero. lia.
  - rewrite Zc_add. reflexivity.
Qed.

(** ** Welford's update in exact arithmetic *)

Lemma push_all_snoc {F} `{FloatOps F} (ds : list Z) (d : Z) :
  push_all (ds ++ [d]) = bench_stats_push (push_all ds) d.
Proof. unfold push_all. rewrite fold_left_app. reflexivity. Qed.

(** The counter is the number of pushes modulo 2^32. *)
Lemma push_all_count {F} `{FloatOps F} (ds : list Z) :
  count (push_all ds) = wrap32 (Z.of_nat (length ds)).
Proof.
  induction ds as [|d ds IH] using rev_ind; [reflexivity|].
  rewrite push_all_snoc, length_app. cbn [bench_stats_push count length].
  rewrite IH. unfold wrap32. rewrite Nat2Z.inj_add. cbn [Z.of_nat Pos.of_succ_nat].
  rewrite Zplus_mod_idemp_l. reflexivity.
Qed.

(** The two assignments of [bench_stats_push], read off the code. *)
Lemma push_mean {F} `{FloatOps F} (s : bench_stats_t F) (v : Z) :
  mean (bench_stats_push s v)
  = fadd (mean s) (fdiv (fsub (of_Z v) (mean s)) (of_Z (count (bench_stats_push s v)))).
Proof. reflexivity. Qed.

Lemma push_d_squared {F} `{FloatOps F} (s : bench_stats_t F) (v : Z) :
  d_squared (bench_stats_push s v)
  = fadd (d_squared s)
         (fmul (fsub (of_Z v) (mean (bench_stats_push s v))) (fsub (of_Z v) (mean s))).
Proof. reflexivity. Qed.

Section Welford.
Local Open Scope Qc_scope.

(** After [n] pushes, [n * mean] is the sum and [d_squared] is the sum of
    squares minus [mean * sum]. *)
Lemma welford_invariant (ds : list Z) :
  (Z.of_nat (length ds) < 2 ^ 32)%Z ->
  let s := push_all (F := Qc) ds in
  Zc (Z.of_nat (length ds)) * mean s = sum_list (Zc <$> ds)
  /\ d_squared s = squares ds - mean s * sum_list (Zc <$> ds).
Proof.
  induction ds as [|d ds IH] using rev_ind; intros Hlen s.
  - subst s. cbn. split; apply Qc_is_canon; reflexivity.
  - rewrite length_app in Hlen. cbn [length] in Hlen.
    destruct IH as [IHm IHd]; [lia|].
    subst s. rewrite push_all_snoc.
    set (s := push_all ds) in *.
    assert (Hc : count (bench_stats_push s d) = (Z.of_nat (length ds) + 1)%Z).
    { cbn [bench_stats_push count]. unfold s. rewrite push_all_count.
      unfold wrap32. rewrite Zplus_mod_idemp_l. apply Z.mod_small. lia. }
    assert (Hm : Zc (Z.of_nat (length ds) + 1) * mean (bench_stats_push s d)
                 = sum_list (Zc <$> ds) + Zc d).
    { cbn [bench_stats_push mean count] in *. rewrite Hc.
      cbn [of_Z fadd fsub fdiv rational]. fold (Zc d).
      fold (Zc (Z.of_nat (length ds) + 1)).
      rewrite <- IHm. rewrite Zc_add, Zc_1. field.
      apply Zc_succ_nonzero. lia. }
    rewrite length_app, Nat2Z.inj_add. cbn [length Z.of_nat Pos.of_succ_nat].
    unfold squares. rewrite !fmap_app.
    change ((fun d0 : Z => Zc d0 * Zc d0) <$> [d]) with [Zc d * Zc d].
    change (Zc <$> [d]) with [Zc d].
    rewrite !sum_list_snoc. fold (squares ds). split; [exact Hm|].
    rewrite push_d_squared. cbn [of_Z fadd fsub fmul rational]. fold (Zc d).
    rewrite IHd.
    set (m' := mean (bench_stats_push s d)) in *.
    rewrite Zc_add, Zc_1 in Hm.
    assert (Hd : Zc d = (Zc (Z.of_nat (length ds)) + 1) * m' - sum_list (Zc <$> ds)).
    { rewrite Hm. ring. }
    rewrite Hd. rewrite <- IHm. ring.
Qed.

Lemma sum_shifted_squares (c : Qc) (ds : list Z) :
  sum_list ((fun d => (Zc d - c) * (Zc d - c)) <$> ds)
  = squares ds - (Zc 2 * c) * sum_list (Zc <$> ds) + Zc (Z.of_nat (length ds)) * (c * c).
Proof.
  unfold squares. induction ds as [|d ds IH].
  - cbn [fmap list_fmap sum_list foldr length]. change (Z.of_nat 0) with 0%Z.
    rewrite Zc_0. ring.
  - cbn [fmap list_fmap sum_list foldr length].
    fold (sum_list ((fun d => (Zc d - c) * (Zc d - c)) <$> ds)).
    fold (sum_list ((fun d => Zc d * Zc d) <$> ds)). fold (sum_list (Zc <$> ds)).
    rewrite IH. rewrite Nat2Z.inj_succ. unfold Z.succ. rewrite Zc_add, Zc_1.
    replace (Zc 2) with (1 + 1) by (apply Qc_is_canon; reflexivity). ring.
Qed.

(** Welford's recurrence computes the arithmetic mean and the population
    variance of the durations pushed, as long as the 32-bit counter has not
    wrapped around. *)
Lemma welford_exact (ds : list Z) :
  (1 <= Z.of_nat (length ds) < 2 ^ 32)%Z ->
  mean (push_all (F := Qc) ds) = arithmetic_mean ds
  /\ bench_stats_variance (push_all (F := Qc) ds) = population_variance ds.
Proof.
  intros Hlen. destruct (welford_invariant ds) as [Hm Hd]; [lia|].
  cbv zeta in Hm, Hd.
  set (s := push_all ds) in *. set (n := Zc (Z.of_nat (length ds))) in *.
  assert (Hn : n <> 0) by (apply Zc_nonzero; lia).
  assert (Hmean : mean s = arithmetic_mean ds).
  { unfold arithmetic_mean. fold n. rewrite <- Hm. field. exact Hn. }
  split; [exact Hmean|].
  unfold bench_stats_variance, population_variance.
  cbn [of_Z fdiv rational]. unfold s at 2. rewrite push_all_count.
  unfold wrap32. rewrite Z.mod_small by lia. fold (Zc (Z.of_nat (length ds))). fold n.
  rewrite sum_shifted_squares. fold n. rewrite Hd. rewrite <- Hmean.
  rewrite <- Hm. replace (Zc 2) with (1 + 1) by (apply Qc_is_canon; reflexivity).
  field. exact Hn.
Qed.
End Welford.

(** ** Running the harness *)

Lemma add_output_add_output l1 l2 w :
  add_output l2 (add_output l1 w) = add_output (l1 ++ l2) w.
Proof. unfold add_output. cbn. rewrite app_assoc. reflexivity. Qed.

Lemma add_output_nil w : add_output [] w = w.
Proof. destruct w. unfold add_output. cbn. rewrite app_nil_r. reflexivity. Qed.

Lemma bind_run {A B} (c : M A) (k : A -> M B) (w : world) (a : A) (w' : world) :
  c w = Done a w' -> bind c k w = k a w'.
Proof. intros E. unfold bind. rewrite E. reflexivity. Qed.

Lemma bind_fprintf {B} (f : FILE) (s : string) (k : unit -> M B) (w : world) :
  bind (fprintf f s) k w = k tt (add_output [(f, s)] w).
Proof. reflexivity. Qed.

Lemma print_indent_run (b : bench_t) (w : world) :
  _bench_print_indent b w
  = Done tt (add_output (replicate (Z.to_nat (indent b)) (out b, " ")) w).
Proof.
  unfold _bench_print_indent. revert w.
  induction (Z.to_nat (indent b)) as [|n IH]; intros w.
  - cbn. rewrite add_output_nil. reflexivity.
  - rewrite Nat.iter_succ. cbn [replicate]. rewrite bind_fprintf.
    rewrite IH, add_output_add_output. reflexivity.
Qed.

Lemma same_but_allocs_refl w : same_but_allocs w w.
Proof. repeat split. Qed.

(** On a well-formed array [bench_array_push] never runs into undefined
    behaviour: it either stores the pointer or reports failure and leaves the
    array as it was. *)
Lemma bench_array_push_ok (a : bench_array_t) (ptr : option addr) (w : world) :
  array_ok a ->
  exists (r : bool) (a' : bench_array_t) (w' : world),
    bench_array_push a ptr w = Done (r, a') w'
    /\ same_but_allocs w w'
    /\ (r = false -> a' = a)
    /\ (r = true -> size a' = size a + 1
                    /\ live_entries a' = live_entries a ++ [ptr]).
Proof.
  intros (buf & Hbuf & Hlen & Hsize & Hcap & Hcap2).
  unfold bench_array_push.
  destruct (size a =? capacity a) eqn:Hfull.
  - apply Z.eqb_eq in Hfull.
    unfold bind at 1. unfold bench_array_resize.
    assert (Hw : wrap64 (capacity a * 2) = capacity a * 2)
      by (unfold wrap64; apply Z.mod_small; lia).
    rewrite Hw.
    ltb_false (capacity a * 2) (size a).
    unfold bind at 1. cbn [allocate].
    destruct (w_alloc w (w_allocs w)); cbn [negb ret].
    + rewrite Hbuf. cbn [entries size capacity resized].
      set (buf' := take _ buf ++ _).
      assert (Hlen' : length buf' = Z.to_nat (capacity a * 2)).
      { unfold buf'. rewrite length_app, length_take, length_replicate. lia. }
      replace (Z.to_nat (size a) <? length buf')%nat with true
        by (symmetry; apply Nat.ltb_lt; lia).
      eexists true, _, _. split; [reflexivity|]. split; [repeat split|].
      split; [discriminate|]. intros _. cbn [size].
      split; [unfold wrap64; apply Z.mod_small; lia|].
      unfold live_entries. cbn [entries size]. rewrite Hbuf. cbn [from_option id].
      replace (wrap64 (size a + 1)) with (size a + 1)
        by (unfold wrap64; symmetry; apply Z.mod_small; lia).
      assert (Hb : buf' = buf ++ replicate (Z.to_nat (capacity a)) None).
      { unfold buf'. rewrite take_ge by lia. f_equal. f_equal. rewrite Hlen.
        rewrite Z2Nat.inj_mul by lia. change (Z.to_nat 2) with 2%nat. lia. }
      rewrite Hb. rewrite Hfull.
      replace (Z.to_nat (capacity a)) with (length buf + 0)%nat at 1 by lia.
      rewrite insert_app_r. rewrite (take_ge buf) by lia.
      replace (Z.to_nat (capacity a + 1)) with (length buf + 1)%nat by lia.
      rewrite take_app_add'; [|reflexivity]. f_equal.
      destruct (Z.to_nat (capacity a)) eqn:En; [lia|]. reflexivity.
    + eexists false, a, _. split; [reflexivity|]. split; [repeat split|].
      split; [reflexivity|discriminate].
  - apply Z.eqb_neq in Hfull.
    unfold bind at 1. cbn [ret negb]. rewrite Hbuf.
    replace (Z.to_nat (size a) <? length buf)%nat with true
      by (symmetry; apply Nat.ltb_lt; lia).
    eexists true, _, w. split; [reflexivity|]. split; [apply same_but_allocs_refl|].
    split; [discriminate|]. intros _. cbn [size].
    split; [unfold wrap64; apply Z.mod_small; lia|].
    unfold live_entries. cbn [entries size]. rewrite Hbuf. cbn [from_option id].
    replace (wrap64 (size a + 1)) with (size a + 1)
      by (unfold wrap64; symmetry; apply Z.mod_small; lia).
    replace (Z.to_nat (size a + 1)) with (S (Z.to_nat (size a))) by lia.
    erewrite take_S_r by (apply list_lookup_insert_eq; lia).
    rewrite take_insert_ge by lia. reflexivity.
Qed.

Lemma string_app_assoc (s1 s2 s3 : string) : (s1 +:+ s2) +:+ s3 = s1 +:+ (s2 +:+ s3).
Proof.
  induction s1 as [|c s1 IH]; [reflexivity|]. exact (f_equal (String c) IH).
Qed.

Lemma string_app_nil_r (s : string) : s +:+ "" = s.
Proof.
  induction s as [|c s IH]; [reflexivity|]. exact (f_equal (String c) IH).
Qed.

Lemma text_for_app (f : FILE) (l1 l2 : list (FILE * string)) :
  text_for f (l1 ++ l2) = text_for f l1 +:+ text_for f l2.
Proof.
  unfold text_for. induction l1 as [|p l1 IH]; [reflexivity|].
  cbn [app foldr]. rewrite IH. destruct (decide (p.1 = f)); [|reflexivity].
  rewrite string_app_assoc. reflexivity.
Qed.

Lemma text_for_cons (f : FILE) (s : string) (l : list (FILE * string)) :
  text_for f ((f, s) :: l) = s +:+ text_for f l.
Proof. unfold text_for. cbn [foldr fst snd]. rewrite decide_True by reflexivity. reflexivity. Qed.

Lemma text_for_indent (f : FILE) (n : nat) : text_for f (replicate n (f, " ")) = spaces n.
Proof.
  induction n as [|n IH]; [reflexivity|].
  cbn [replicate spaces]. rewrite text_for_cons, IH. reflexivity.
Qed.

Lemma contents_add_output (f : FILE) (l : list (FILE * string)) (w : world) :
  contents f (add_output l w) = contents f w +:+ text_for f l.
Proof. unfold contents. cbn [add_output w_output]. apply text_for_app. Qed.

(** [bench_measure] up to the sampling loop: the name is printed, the
    measurement is allocated and initialised at the fresh address, it is
    pushed (or not: the result of the push is not looked at), and the clock is
    read once. *)
Lemma bench_measure_start (fuel : nat) (b : bench_t) (name : string) (w : world) :
  array_ok (measurements b) ->
  w_alloc w (w_allocs w) = true ->
  exists (array : bench_array_t) (pushed : bool) (w1 : world),
    bench_measure fuel b name w
    = (sampling_loop fuel (w_next w) (target_time b) ;;;
       report_measurement (with_measurements b array) (w_next w)) w1
    /\ (pushed = false -> array = measurements b)
    /\ (pushed = true ->
        size array = size (measurements b) + 1
        /\ live_entries array = live_entries (measurements b) ++ [Some (w_next w)])
    /\ w_output w1
       = w_output w ++ replicate (Z.to_nat (indent b)) (out b, " ")
                    ++ [(out b, name +:+ " - ")]
    /\ w_clock w1 = w_clock w
    /\ w_ticks w1 = S (w_ticks w)
    /\ w_alloc w1 = w_alloc w
    /\ w_heap w1
       = <[w_next w := {| m_name := if w_alloc w (S (w_allocs w)) then Some name else None;
                          stats := bench_stats_init |}]> (w_heap w)
    /\ w_next w1 = Pos.succ (w_next w).
Proof.
  intros Hok Halloc. unfold bench_measure.
  rewrite (bind_run _ _ _ _ _ (print_indent_run b w)).
  rewrite bind_fprintf.
  unfold malloc, bench_measurement_init, strdup.
  unfold bind at 1. unfold bind at 1. cbn [allocate add_output set_allocs w_alloc w_allocs].
  rewrite Halloc. cbn [set_next w_next w_alloc w_allocs].
  unfold bind at 1. unfold bind at 1. unfold bind at 1.
  cbn [allocate ret store set_allocs set_heap w_alloc w_allocs w_heap w_next].
  match goal with
  | |- context [bind (bench_array_push ?a ?p) _ ?W] =>
      destruct (bench_array_push_ok a p W Hok)
        as (r & array & w' & Hpush & Hsame & Hfail & Hpushed)
  end.
  rewrite (bind_run _ _ _ _ _ Hpush).
  destruct Hsame as (Ho & Hc & Ht & Ha & Hh & Hn). cbn in Ho, Hc, Ht, Ha, Hh, Hn.
  unfold bind at 1. cbn [bench_now].
  exists array, r, (set_ticks (S (w_ticks w')) w').
  split; [reflexivity|].
  split; [exact Hfail|]. split; [exact Hpushed|].
  cbn [set_ticks w_output w_clock w_ticks w_alloc w_heap w_next].
  rewrite Ho, Hc, Ht, Ha, Hh, Hn. rewrite <- app_assoc. repeat split.
Qed.

(** *** The sampling loop *)

Lemma sampling_loop_exit (fuel : nat) (a : addr) (target : Z) (w : world)
  (ms : bench_measurement_t) :
  w_heap w !! a = Some ms ->
  target <= total (stats ms) ->
  sampling_loop (S fuel) a target w = Done tt w.
Proof.
  intros Hh Ht. cbn [sampling_loop]. unfold bind at 1. unfold load. rewrite Hh.
  ltb_false (total (stats ms)) target.
  reflexivity.
Qed.

Lemma sampling_loop_step (fuel : nat) (a : addr) (target : Z) (w : world)
  (ms : bench_measurement_t) :
  w_heap w !! a = Some ms ->
  total (stats ms) < target ->
  sampling_loop (S fuel) a target w
  = sampling_loop fuel a target (loop_iteration a ms w).
Proof.
  intros Hh Ht. cbn [sampling_loop]. unfold bind at 1. unfold load. rewrite Hh.
  ltb_true (total (stats ms)) target.
  reflexivity.
Qed.

Lemma wrap32_range z : 0 <= wrap32 z < 2 ^ 32.
Proof. unfold wrap32. apply Z.mod_pos_bound. lia. Qed.

Lemma wrap64_range z : 0 <= wrap64 z < 2 ^ 64.
Proof. unfold wrap64. apply Z.mod_pos_bound. lia. Qed.

Lemma wrap32_add_l a b : wrap32 (wrap32 a + b) = wrap32 (a + b).
Proof. unfold wrap32. apply Zplus_mod_idemp_l. Qed.

(** Whenever the loop finishes, it has made some number [iters] of passes,
    two clock readings each; the total has reached the target, and the
    counter holds the number of passes modulo 2^32.  If the total was below
    the target to begin with, there was at least one pass. *)
Lemma sampling_loop_done (fuel : nat) : forall (a : addr) (target : Z) (w w' : world)
  (ms : bench_measurement_t),
  w_heap w !! a = Some ms ->
  0 <= count (stats ms) < 2 ^ 32 ->
  sampling_loop fuel a target w = Done tt w' ->
  exists (iters : nat) (ms' : bench_measurement_t),
    w_ticks w' = (w_ticks w + 2 * iters)%nat
    /\ w_heap w' !! a = Some ms'
    /\ target <= total (stats ms')
    /\ count (stats ms') = wrap32 (count (stats ms) + Z.of_nat iters)
    /\ (total (stats ms) < target -> (1 <= iters)%nat)
    /\ (iters = 0%nat -> ms' = ms)
    /\ ((1 <= iters)%nat -> 0 <= total (stats ms') < 2 ^ 64)
    /\ m_name ms' = m_name ms
    /\ w_output w' = w_output w.
Proof.
  induction fuel as [|fuel IH]; intros a target w w' ms Hh Hc Hrun.
  - discriminate Hrun.
  - destruct (Z.lt_ge_cases (total (stats ms)) target) as [Hlt|Hge].
    + rewrite (sampling_loop_step _ _ _ _ ms Hh Hlt) in Hrun.
      eapply IH in Hrun.
      2:{ unfold loop_iteration. cbn [set_heap w_heap]. apply lookup_insert_eq. }
      2:{ cbn [stats bench_stats_push count]. apply wrap32_range. }
      destruct Hrun as (iters & ms' & Ht & Hh' & Htot & Hcount & _ & Hz & Hr & Hname & Hout).
      exists (S iters), ms'. cbn in Ht, Hcount, Hname, Hout.
      split; [lia|]. split; [exact Hh'|]. split; [exact Htot|].
      split; [rewrite Hcount, wrap32_add_l; f_equal; lia|].
      split; [lia|]. split; [discriminate|].
      split; [|split; [exact Hname|exact Hout]].
      intros _. destruct iters as [|iters]; [|apply Hr; lia].
      rewrite Hz by reflexivity.
      cbn [stats bench_stats_push total]. apply wrap64_range.
    + rewrite (sampling_loop_exit _ _ _ _ ms Hh Hge) in Hrun.
      injection Hrun as <-. exists 0%nat, ms.
      split; [lia|]. split; [exact Hh|]. split; [exact Hge|].
      split; [unfold wrap32; rewrite Z.add_0_r, Z.mod_small by lia; reflexivity|].
      split; [lia|]. split; [reflexivity|]. split; [lia|]. split; reflexivity.
Qed.

(** While the clock does not move, the loop only counts. *)
Lemma sampling_loop_idle (k : nat) : forall (fuel : nat) (a : addr) (target : Z)
  (w : world) (ms : bench_measurement_t),
  w_heap w !! a = Some ms ->
  total (stats ms) = 0 ->
  0 < target ->
  (forall j, (w_ticks w <= j < w_ticks w + 2 * k)%nat -> w_clock w j = 0) ->
  exists (w' : world) (ms' : bench_measurement_t),
    sampling_loop (k + fuel) a target w = sampling_loop fuel a target w'
    /\ w_heap w' !! a = Some ms'
    /\ total (stats ms') = 0
    /\ wrap32 (count (stats ms')) = wrap32 (count (stats ms) + Z.of_nat k)
    /\ w_ticks w' = (w_ticks w + 2 * k)%nat
    /\ w_clock w' = w_clock w
    /\ w_output w' = w_output w.
Proof.
  induction k as [|k IH]; intros fuel a target w ms Hh Htot Htarget Hclock.
  - exists w, ms. split; [reflexivity|]. split; [exact Hh|]. split; [exact Htot|].
    split; [f_equal; lia|]. split; [lia|]. split; reflexivity.
  - change (S k + fuel)%nat with (S (k + fuel)).
    rewrite (sampling_loop_step _ _ _ _ ms Hh) by lia.
    destruct (IH fuel a target (loop_iteration a ms w)
                {| m_name := m_name ms;
                   stats := bench_stats_push (stats ms) 0 |})
      as (w' & ms' & Hrun & Hh' & Htot' & Hcount & Ht & Hc & Ho).
    + unfold loop_iteration. cbn [set_heap w_heap].
      rewrite !Hclock by lia. rewrite lookup_insert_eq. reflexivity.
    + cbn [stats bench_stats_push total]. rewrite Htot. reflexivity.
    + exact Htarget.
    + intros j Hj. cbn in Hj |- *. apply Hclock. lia.
    + exists w', ms'. split; [exact Hrun|]. split; [exact Hh'|]. split; [exact Htot'|].
      cbn in Hcount, Ht, Hc, Ho.
      split; [rewrite Hcount, wrap32_add_l; f_equal; lia|].
      split; [lia|]. split; assumption.
Qed.

(** ** Statistics of a single sample *)

Lemma f32_of_Z_normal (z : Z) :
  0 < z < 2 ^ 64 ->
  exists m e, f32_of_Z z = S754_finite false m e
              /\ Zpos (digits2_pos m) = 24 /\ -23 <= e <= 41.
Proof. apply of_Z_shape. Qed.

Lemma f32_of_Z_nonzero_finite (z : Z) :
  0 < z < 2 ^ 64 -> nonzero_finite (f32_of_Z z) = true.
Proof.
  intros Hz. destruct (f32_of_Z_normal z Hz) as (m & e & -> & _). reflexivity.
Qed.

(** Integers of at most 24 bits are floats. *)
Lemma f32_of_Z_exact (z : Z) : 0 <= z < 2 ^ 24 -> f_value (f32_of_Z z) = Zc z.
Proof.
  intros Hz. destruct z as [|p|p]; [reflexivity| |lia].
  assert (Hd : Zpos (digits2_pos p) <= 24).
  { pose proof (digits2_pos_bounds p) as [Hlo _].
    destruct (Z.le_gt_cases (Zpos (digits2_pos p)) 24) as [|Hgt]; [assumption|].
    assert (2 ^ 24 <= 2 ^ (Zpos (digits2_pos p) - 1)) by (apply Z.pow_le_mono_r; lia).
    lia. }
  destruct (of_Z_small p Hd) as (m & e & Hr & _ & He & Hm).
  unfold f32_of_Z, f32_prec, f32_emax. rewrite Hr. unfold f_value, Zc.
  apply Q2Qc_eq_iff.
  assert (Hpow : 0 < 2 ^ (- e)) by (apply Z.pow_pos_nonneg; lia).
  destruct (0 <=? e) eqn:E.
  - apply Z.leb_le in E. assert (e = 0) as -> by lia.
    change (2 ^ (- 0)) with 1 in Hm. change (2 ^ 0) with 1.
    rewrite Hm. rewrite !Z.mul_1_r. reflexivity.
  - unfold Qeq. cbn [Qnum Qden inject_Z]. rewrite Z2Pos.id by lia. lia.
Qed.

Lemma f32_sub_self (m : positive) (e : Z) :
  fsub (S754_finite false m e) (S754_finite false m e) = S754_zero false.
Proof. cbn [fsub binary32 SFsub]. rewrite Z.sub_diag. reflexivity. Qed.

(** The first push: [(v - 0) / 1] is [v], and [(v - v) * v] is zero. *)
Lemma push_first (v : Z) :
  0 <= v < 2 ^ 64 ->
  mean (bench_stats_push (F := float) bench_stats_init v) = f32_of_Z v
  /\ d_squared (bench_stats_push (F := float) bench_stats_init v) = S754_zero false.
Proof.
  intros Hv. set (s := bench_stats_push bench_stats_init v).
  assert (Hmean : mean s = f32_of_Z v).
  { destruct (Z.eq_dec v 0) as [->|Hne]; [reflexivity|].
    destruct (f32_of_Z_normal v) as (m & e & Hx & Hm & He); [lia|].
    unfold s. rewrite push_mean. cbn [bench_stats_push bench_stats_init count mean].
    cbn [of_Z fadd fsub fdiv binary32]. rewrite Hx.
    change (wrap32 (0 + 1)) with 1.
    change (f32_of_Z 1) with (S754_finite false 8388608 (-23)).
    change (f32_of_Z 0) with (S754_zero false).
    cbn [SFsub]. unfold f32_prec, f32_emax. rewrite div_one by (try assumption; lia).
    reflexivity. }
  split; [exact Hmean|].
  unfold s at 1. rewrite push_d_squared. fold s. rewrite Hmean.
  cbn [bench_stats_init d_squared mean of_Z].
  change (@of_Z float binary32 v) with (f32_of_Z v).
  destruct (Z.eq_dec v 0) as [->|Hne]; [reflexivity|].
  destruct (f32_of_Z_normal v) as (m & e & Hx & _); [lia|].
  rewrite Hx. rewrite f32_sub_self. reflexivity.
Qed.



(** C10, as amended.  After exactly one [bench_stats_push] of a duration [v]
    into a freshly initialised [bench_stats_t], [count] is 1, [total] is [v],
    [mean] is [v] converted to [float] (the value [v] itself whenever [v] is
    below 2^24, and within a relative error of 2^-24 of [v] always), and
    [d_squared] is zero; [bench_stats_variance] and [bench_stats_stddev] both
    return zero. *)
Theorem single_sample_statistics (v : Z) (Hv : 0 <= v < 2 ^ 64) :
  let s := bench_stats_push (F := float) bench_stats_init v in
  count s = 1
  /\ total s = v
  /\ mean s = f32_of_Z v
  /\ (v < 2 ^ 24 -> f_value (mean s) = Zc v)
  /\ approximates 24 (f_value (mean s)) (inject_Z v)
  /\ d_squared s = S754_zero false
  /\ bench_stats_variance s = S754_zero false
  /\ bench_stats_stddev s = S754_zero false.
Proof.
  intros s. destruct (push_first v Hv) as [Hmean Hd]. fold s in Hmean, Hd.
  assert (Hvar : bench_stats_variance s = S754_zero false).
  { unfold bench_stats_variance. rewrite Hd. reflexivity. }
  split; [reflexivity|].
  split; [cbn; unfold wrap64; apply Z.mod_small; lia|].
  split; [exact Hmean|].
  split; [intros Hsmall; rewrite Hmean; apply f32_of_Z_exact; lia|].
  split.
  { rewrite Hmean. destruct (Z.eq_dec v 0) as [->|Hne].
    - apply approximates_refl; [apply Qle_refl|reflexivity].
    - destruct (f32_of_Z_rounds v) as (m & e & Hr & _ & _ & _ & _ & Hclose); [lia|].
      eapply approximates_f_value; eassumption. }
  split; [exact Hd|]. split; [exact Hvar|].
  unfold bench_stats_stddev. rewrite Hvar. reflexivity.
Qed.

Lemma single_sample_statistics_witness :
  let s := bench_stats_push (F := float) bench_stats_init 16777217 in
  count s = 1 /\ total s = 16777217 /\ mean s = S754_finite false 8388608 1
  /\ approximates 24 (f_value (mean s)) (inject_Z 16777217)
  /\ bench_stats_stddev s = S754_zero false.
Proof.
  destruct (single_sample_statistics 16777217) as (Hc & Ht & Hm & _ & Hr & _ & _ & Hs);
    [lia|].
  repeat split; try assumption; apply Hr.
Defined.

(** A duration of 2^24 + 1 ns is not a [float]: the mean after one push is
    2^24, not the duration. *)
Lemma single_sample_mean_is_rounded :
  let s := bench_stats_push (F := float) bench_stats_init 16777217 in
  count s = 1 /\ total s = 16777217
  /\ mean s = S754_finite false 8388608 1
  /\ f_value (mean s) = Zc 16777216
  /\ f_value (mean s) <> Zc 16777217
  /\ fmt_f2 (mean s) = "16777216.00".
Proof.
  intros s. split; [reflexivity|]. split; [reflexivity|]. split; [reflexivity|].
  assert (Hm : f_value (mean s) = Zc 16777216) by (apply Qc_is_canon; reflexivity).
  split; [exact Hm|]. split; [|reflexivity].
  rewrite Hm. intros E. apply Zc_inj in E. discriminate.
Qed.

(** ** Throughput *)

(** Seven roundings stay within a relative error of 2^-21. *)
Lemma ops_per_sec_rounds (s : bench_stats_t float) :
  0 < count s < 2 ^ 32 -> 0 < total s < 2 ^ 64 ->
  exists m e,
    bench_stats_ops_per_sec s = S754_finite false m e
    /\ approximates 21 (fval m e)
         (inject_Z (count s) / inject_Z (total s) * inject_Z 1000000000)%Q.
Proof.
  intros Hc Ht. unfold bench_stats_ops_per_sec. cbn [of_Z fmul fdiv binary32].
  unfold f32_prec, f32_emax.
  destruct (f32_of_Z_rounds (count s)) as (mc & ec & -> & Hdc & Hec & Hec' & _ & Kn); [lia|].
  destruct (f32_of_Z_rounds (total s)) as (mt & et & -> & Hdt & Het & _ & _ & Kt); [lia|].
  specialize (Hec' ltac:(lia)).
  destruct (SFdiv_rounds mc mt ec et) as (m1 & e1 & -> & Hd1 & He1 & Kq); try lia.
  change (f32_of_Z NANOS) with (S754_finite false 8388608 (-23)).
  change (f32_of_Z 1000) with (S754_finite false 16384000 (-14)).
  destruct (SFmul_rounds m1 8388608 e1 (-23)) as (m2 & e2 & -> & Hd2 & He2 & Ka);
    try reflexivity; try lia.
  destruct (SFmul_rounds m2 16384000 e2 (-14)) as (m3 & e3 & -> & Hd3 & He3 & Kb);
    try reflexivity; try lia.
  destruct (SFmul_rounds m3 16384000 e3 (-14)) as (m4 & e4 & -> & Hd4 & He4 & Kc);
    try reflexivity; try lia.
  destruct (SFmul_rounds m4 16384000 e4 (-14)) as (m5 & e5 & -> & Hd5 & He5 & Kd);
    try reflexivity; try lia.
  exists m5, e5. split; [reflexivity|].
  assert (V1 : (fval 8388608 (-23) == 1)%Q) by reflexivity.
  assert (V1000 : (fval 16384000 (-14) == 1000)%Q) by reflexivity.
  pose proof (fval_pos mc ec) as Pc. pose proof (fval_pos mt et) as Pt.
  pose proof (fval_pos m1 e1) as P1. pose proof (fval_pos m5 e5) as P5.
  pose proof (inject_Z_pos (count s) ltac:(lia)) as Pcount.
  pose proof (inject_Z_pos (total s) ltac:(lia)) as Ptotal.
  apply approximates_div in Kq; [|exact Pt].
  unfold approximates in *. rewrite V1 in Ka. rewrite V1000 in Kb, Kc, Kd.
  change (2 ^ 24)%positive with 16777216%positive in *.
  change (2 ^ 21)%positive with 2097152%positive.
  change (inject_Z 1000000000) with (1000000000 # 1)%Q.
  set (vc := fval mc ec) in *. set (vt := fval mt et) in *.
  set (v1 := fval m1 e1) in *. set (v2 := fval m2 e2) in *.
  set (v3 := fval m3 e3) in *. set (v4 := fval m4 e4) in *.
  set (v5 := fval m5 e5) in *.
  set (c := inject_Z (count s)) in *. set (t := inject_Z (total s)) in *.
  clearbody vc vt v1 v2 v3 v4 v5 c t.
  destruct Kn as [Kn1 Kn2]. destruct Kt as [Kt1 Kt2]. destruct Kq as [Kq1 Kq2].
  destruct Ka as [Ka1 Ka2]. destruct Kb as [Kb1 Kb2]. destruct Kc as [Kc1 Kc2].
  destruct Kd as [Kd1 Kd2].
  set (a := (1 - (1 # 16777216))%Q) in *. set (b := (1 + (1 # 16777216))%Q) in *.
  assert (Ha : (a == 16777215 # 16777216)%Q) by reflexivity.
  assert (Hb : (b == 16777217 # 16777216)%Q) by reflexivity.
  assert (L1 : (a * a * a * a * v5 <= 1000000000 * v1)%Q).
  { rewrite Ha in *. lra. }
  assert (U1 : (1000000000 * v1 <= b * b * b * b * v5)%Q).
  { rewrite Hb in *. lra. }
  assert (L2 : (a * a * a * a * v5 * vt <= 1000000000 * v1 * vt)%Q).
  { apply Qmult_le_compat_r; [exact L1|lra]. }
  assert (U2 : (1000000000 * v1 * vt <= b * b * b * b * v5 * vt)%Q).
  { apply Qmult_le_compat_r; [exact U1|lra]. }
  assert (L3 : (v5 * (vt * a) <= v5 * t)%Q).
  { rewrite !(Qmult_comm v5). apply Qmult_le_compat_r; [exact Kt1|lra]. }
  assert (U3 : (v5 * t <= v5 * (vt * b))%Q).
  { rewrite !(Qmult_comm v5). apply Qmult_le_compat_r; [exact Kt2|lra]. }
  assert (Lo : (v5 * (1 - (1 # 2097152)) * t <= c * 1000000000)%Q).
  { unfold a, b in *. lra. }
  assert (Up : (c * 1000000000 <= v5 * (1 + (1 # 2097152)) * t)%Q).
  { unfold a, b in *. lra. }
  split.
  - setoid_replace (c / t * (1000000000 # 1))%Q with (c * 1000000000 / t)%Q
      using relation Qeq by (field; lra).
    apply Qle_shift_div_l; assumption.
  - setoid_replace (c / t * (1000000000 # 1))%Q with (c * 1000000000 / t)%Q
      using relation Qeq by (field; lra).
    apply Qle_shift_div_r; assumption.
Qed.

Lemma ops_per_sec_zero (s : bench_stats_t float) :
  count s = 0 -> 0 < total s < 2 ^ 64 ->
  bench_stats_ops_per_sec s = S754_zero false.
Proof.
  intros Hc Ht. unfold bench_stats_ops_per_sec. rewrite Hc.
  cbn [of_Z fmul fdiv binary32].
  destruct (f32_of_Z_normal (total s) Ht) as (m & e & -> & _). reflexivity.
Qed.

(** C4, as amended.  [bench_stats_ops_per_sec] is [count / total * 10^9]
    computed in [float]: in exact arithmetic it is that quotient for every
    [total > 0]; in binary32, for every [count] below 2^32 and every [total]
    between 1 and 2^64 - 1, the result is finite and within a relative error
    of 2^-21 of the quotient (two conversions, a division and four
    multiplications, each rounding once); for [count = 100] and
    [total = 10^9] it is exactly 100.0. *)
Theorem ops_per_sec_formula :
  (forall s : bench_stats_t Qc,
      0 < total s ->
      bench_stats_ops_per_sec s = (Zc (count s) / Zc (total s) * Zc (10 ^ 9))%Qc)
  /\ (forall s : bench_stats_t float,
         0 <= count s < 2 ^ 32 -> 0 < total s < 2 ^ 64 ->
         is_finite (bench_stats_ops_per_sec s) = true
         /\ approximates 21 (f_value (bench_stats_ops_per_sec s))
              (inject_Z (count s) / inject_Z (total s) * inject_Z (10 ^ 9))%Q)
  /\ (forall m d : float,
         bench_stats_ops_per_sec (mk_stats 100 1000000000 m d) = f32_of_Z 100
         /\ f_value (f32_of_Z 100) = Zc 100).
Proof.
  split; [|split].
  - intros s Ht. unfold bench_stats_ops_per_sec. cbn [of_Z fmul fdiv rational].
    fold (Zc (count s)). fold (Zc (total s)). fold (Zc NANOS). fold (Zc 1000).
    change (10 ^ 9) with (1 * 1000 * 1000 * 1000). unfold NANOS.
    rewrite !Zc_mul. rewrite Zc_1. field. apply Zc_nonzero. lia.
  - intros s Hc Ht. destruct (Z.eq_dec (count s) 0) as [H0|H0].
    + rewrite (ops_per_sec_zero s H0 Ht). split; [reflexivity|].
      rewrite H0. apply approximates_refl; [apply Qle_refl|].
      cbn [f_value this Q2Qc]. unfold Qdiv. rewrite Qmult_0_l, Qmult_0_l. reflexivity.
    + destruct (ops_per_sec_rounds s) as (m & e & Hr & Hclose); [lia|lia|].
      rewrite Hr. split; [reflexivity|].
      eapply approximates_f_value; [reflexivity|exact Hclose].
  - intros m d. split; [vm_compute; reflexivity|].
    apply f32_of_Z_exact. lia.
Qed.

Lemma ops_per_sec_formula_witness :
  bench_stats_ops_per_sec (mk_stats 3 4 (Zc 0) (Zc 0)) = Zc 750000000
  /\ approximates 21 (f_value (bench_stats_ops_per_sec (push_all (F := float) [9])))
       (inject_Z 1 / inject_Z 9 * inject_Z (10 ^ 9))%Q.
Proof.
  destruct ops_per_sec_formula as (H & Hf & _). split.
  - rewrite H by (cbn; lia). apply Qc_is_canon. reflexivity.
  - destruct (Hf (push_all (F := float) [9])) as [_ Hr];
      [vm_compute; split; congruence|vm_compute; split; congruence|exact Hr].
Defined.

(** One iteration that took 9 ns: the throughput printed is 111111120, the
    [float] operations having rounded; 10^9/9 is 111111111.1... *)
Lemma ops_per_sec_is_rounded :
  let s := push_all (F := float) [9] in
  count s = 1 /\ total s = 9
  /\ bench_stats_ops_per_sec s = S754_finite false 13888890 3
  /\ f_value (bench_stats_ops_per_sec s) = Zc 111111120
  /\ f_value (bench_stats_ops_per_sec s) <> (Zc (count s) / Zc (total s) * Zc (10 ^ 9))%Qc
  /\ fmt_f2 (bench_stats_ops_per_sec s) = "111111120.00".
Proof.
  intros s. split; [reflexivity|]. split; [reflexivity|].
  split; [vm_compute; reflexivity|].
  assert (Hv : f_value (bench_stats_ops_per_sec s) = Zc 111111120)
    by (apply Qc_is_canon; vm_compute; reflexivity).
  split; [exact Hv|]. split; [|vm_compute; reflexivity].
  rewrite Hv. intros E. apply (f_equal this) in E. vm_compute in E. discriminate E.
Qed.

(** ** Mean and variance of a sequence *)












(** ** The formatter *)

(** C9. [bench_human_number] divides the value by 1000 while it is at least
    1000, at most 3 times for a time and 4 times for a count, and prints the
    scaled value with two decimals followed by the unit of the level. *)
Theorem human_number_format :
  (forall (value : float) (time : bool),
      bench_human_number value time = format value time
      /\ (forall k : nat,
             bench_human_number_fuel (human_fuel + k) value time
             = Some (format value time))
      /\ (snd (scale (if time then 3 else 4) value) <= (if time then 3 else 4))%nat)
  /\ bench_human_number (f32_of_Z 999) false = "999.00"
  /\ bench_human_number (f32_of_Z 1500) false = "1.50k"
  /\ bench_human_number (f32_of_Z 999) true = "999.00ns"
  /\ bench_human_number (f32_of_Z 1500000) true = "1.50ms".
Proof.
  split; [|vm_compute; repeat split].
  intros value time. split; [|split].
  - unfold bench_human_number.
    rewrite <- (Nat.add_0_r human_fuel), human_loop_total. reflexivity.
  - intros k. apply human_loop_total.
  - assert (Hcap : forall cap v, (snd (scale cap v) <= cap)%nat).
    { induction cap as [|cap IH]; intros v; [reflexivity|].
      rewrite scale_S. destruct (fge v (f32_of_Z 1000)); [|cbn; lia].
      specialize (IH (fdiv v (f32_of_Z 1000))).
      destruct (scale cap (fdiv v (f32_of_Z 1000))). cbn [snd] in *. lia. }
    apply Hcap.
Qed.

(** ** The sampling loop of [bench_measure] *)

Lemma report_measurement_run (b : bench_t) (a : addr) (w : world)
  (ms : bench_measurement_t) :
  w_heap w !! a = Some ms ->
  report_measurement b a w
  = Done (0, b) (add_output [(out b, bench_stats_print (stats ms)); (out b, "
")] w).
Proof.
  intros Hh. unfold report_measurement. unfold bind at 1. unfold load. rewrite Hh.
  rewrite !bind_fprintf, add_output_add_output. reflexivity.
Qed.

(** A finished call of [bench_measure]: the loop made [iters >= 1] passes when
    the target is at least a nanosecond; the statistics read for the summary
    are those at the fresh address. *)
Lemma bench_measure_done (fuel : nat) (b : bench_t) (name : string) (w w' : world)
  (r : Z * bench_t) :
  array_ok (measurements b) ->
  w_alloc w (w_allocs w) = true ->
  bench_measure fuel b name w = Done r w' ->
  exists (iters : nat) (ms : bench_measurement_t),
    r.1 = 0
    /\ w_ticks w' = (w_ticks w + 1 + 2 * iters)%nat
    /\ w_heap w' !! w_next w = Some ms
    /\ target_time b <= total (stats ms)
    /\ count (stats ms) = wrap32 (Z.of_nat iters)
    /\ (0 < target_time b -> (1 <= iters)%nat)
    /\ ((1 <= iters)%nat -> 0 <= total (stats ms) < 2 ^ 64)
    /\ (iters = 0%nat -> stats ms = bench_stats_init)
    /\ w_output w'
       = w_output w ++ replicate (Z.to_nat (indent b)) (out b, " ")
                    ++ [(out b, name +:+ " - ");
                        (out b, bench_stats_print (stats ms));
                        (out b, "
")].
Proof.
  intros Hok Halloc Hrun.
  destruct (bench_measure_start fuel b name w Hok Halloc)
    as (array & pushed & w1 & Heq & _ & _ & Hout & Hclock & Hticks & _ & Hheap & _).
  rewrite Heq in Hrun. unfold bind at 1 in Hrun.
  destruct (sampling_loop fuel (w_next w) (target_time b) w1) as [[] w2| |] eqn:Hloop;
    try discriminate.
  eapply sampling_loop_done in Hloop.
  2:{ rewrite Hheap. apply lookup_insert_eq. }
  2:{ cbn. lia. }
  destruct Hloop as (iters & ms & Ht & Hh & Htot & Hcount & Hpos & Hz & Hr & _ & Ho).
  rewrite (report_measurement_run _ _ _ ms Hh) in Hrun. injection Hrun as <- <-.
  exists iters, ms. cbn [fst add_output w_ticks w_heap w_output with_measurements out] in *.
  split; [reflexivity|]. split; [lia|]. split; [exact Hh|]. split; [exact Htot|].
  split; [rewrite Hcount; f_equal; lia|].
  split; [intros Hpos'; apply Hpos; cbn; lia|].
  split; [exact Hr|].
  split; [intros ->; rewrite (Hz eq_refl); reflexivity|].
  rewrite Ho, Hout, <- !app_assoc. reflexivity.
Qed.

(** C2, as amended.  The loop goes on exactly while [total] is below the
    target; for a suite whose [target_time] is at least one nanosecond it
    never finishes without a pass, and when the first measured call alone
    reaches the target it stops after exactly one pass with [count = 1]. *)
Theorem sampling_loop_runs_at_least_once
  (b : bench_t) (name : string) (w : world)
  (Hok : array_ok (measurements b))
  (Halloc : w_alloc w (w_allocs w) = true)
  (Htarget : 1 <= target_time b) :
  (forall (fuel : nat) (a : addr) (w0 : world) (ms : bench_measurement_t),
      w_heap w0 !! a = Some ms ->
      sampling_loop (S fuel) a (target_time b) w0
      = if total (stats ms) <? target_time b
        then sampling_loop fuel a (target_time b) (loop_iteration a ms w0)
        else Done tt w0)
  /\ (forall (fuel : nat) (r : Z * bench_t) (w' : world),
         bench_measure fuel b name w = Done r w' ->
         exists iters : nat,
           (1 <= iters)%nat /\ w_ticks w' = (w_ticks w + 1 + 2 * iters)%nat)
  /\ (forall (fuel : nat) (d : Z),
         d = wrap64 (wrap64 (w_clock w (S (S (w_ticks w))))
                     - wrap64 (w_clock w (S (w_ticks w)))) ->
         target_time b <= d ->
         exists (b' : bench_t) (w' : world) (ms : bench_measurement_t),
           bench_measure (S (S fuel)) b name w = Done (0, b') w'
           /\ w_ticks w' = (w_ticks w + 3)%nat
           /\ w_heap w' !! w_next w = Some ms
           /\ stats ms = bench_stats_push bench_stats_init d
           /\ count (stats ms) = 1
           /\ total (stats ms) = d).
Proof.
  split; [|split].
  - intros fuel a w0 ms Hh. destruct (Z.ltb_spec (total (stats ms)) (target_time b)).
    + apply sampling_loop_step; assumption.
    + apply (sampling_loop_exit _ _ _ _ ms); assumption.
  - intros fuel r w' Hrun.
    destruct (bench_measure_done fuel b name w w' r Hok Halloc Hrun)
      as (iters & ms & _ & Ht & _ & _ & _ & Hpos & _).
    exists iters. split; [apply Hpos; lia|exact Ht].
  - intros fuel d Hd Hslow.
    destruct (bench_measure_start (S (S fuel)) b name w Hok Halloc)
      as (array & pushed & w1 & Heq & _ & _ & Hout & Hclock & Hticks & _ & Hheap & _).
    rewrite Heq.
    set (ms0 := {| m_name := if w_alloc w (S (w_allocs w)) then Some name else None;
                   stats := bench_stats_init |}) in *.
    assert (Hh0 : w_heap w1 !! w_next w = Some ms0)
      by (rewrite Hheap; apply lookup_insert_eq).
    assert (Hd' : wrap64 (wrap64 (w_clock w1 (S (w_ticks w1)))
                         - wrap64 (w_clock w1 (w_ticks w1))) = d).
    { rewrite Hclock, Hticks. symmetry. exact Hd. }
    set (ms1 := {| m_name := m_name ms0; stats := bench_stats_push bench_stats_init d |}).
    assert (Hh1 : w_heap (loop_iteration (w_next w) ms0 w1) !! w_next w = Some ms1).
    { unfold loop_iteration. cbn [set_heap w_heap]. rewrite Hd'.
      apply lookup_insert_eq. }
    assert (Htot : total (stats ms1) = d).
    { cbn. unfold wrap64. apply Z.mod_small. rewrite Hd. apply wrap64_range. }
    unfold bind at 1.
    rewrite (sampling_loop_step _ _ _ _ ms0 Hh0) by (cbn; lia).
    rewrite (sampling_loop_exit _ _ _ _ ms1 Hh1) by lia.
    rewrite (report_measurement_run _ _ _ ms1 Hh1).
    eexists _, _, ms1. split; [reflexivity|].
    cbn [add_output loop_iteration set_heap set_ticks w_ticks w_heap].
    split; [lia|]. split; [|split; [reflexivity|split; [reflexivity|exact Htot]]].
    rewrite Hd'. apply lookup_insert_eq.
Qed.

Lemma sampling_loop_runs_at_least_once_witness :
  exists (b' : bench_t) (w' : world) (ms : bench_measurement_t),
    bench_measure 2 (fresh_suite SECONDS) "slow" (start_world slow_clock always)
    = Done (0, b') w'
    /\ w_ticks w' = 3%nat
    /\ w_heap w' !! 1%positive = Some ms
    /\ stats ms = bench_stats_push bench_stats_init 2000000000
    /\ count (stats ms) = 1
    /\ total (stats ms) = 2000000000.
Proof.
  assert (Hok : array_ok (measurements (fresh_suite SECONDS))).
  { exists (replicate 16 None). cbn. repeat split; lia. }
  destruct (sampling_loop_runs_at_least_once (fresh_suite SECONDS) "slow"
              (start_world slow_clock always) Hok eq_refl) as (_ & _ & H).
  - vm_compute. congruence.
  - apply (H 0%nat 2000000000); [reflexivity|vm_compute; congruence].
Defined.

(** With a target of zero the loop is not entered at all: no clock reading
    besides the first, and the summary is printed from statistics with
    [count = 0], although the first call would have taken two seconds. *)
Lemma zero_target_runs_no_iteration :
  exists (b' : bench_t) (w' : world),
    bench_measure 5 (fresh_suite 0) "slow" (start_world slow_clock always)
    = Done (0, b') w'
    /\ w_ticks w' = 1%nat
    /\ stats <$> (w_heap w' !! 1%positive) = Some bench_stats_init
    /\ is_nan (bench_stats_variance (F := float) bench_stats_init) = true.
Proof. eexists _, _. vm_compute. repeat split. Qed.

(** C7, as amended.  When [bench_measure] prints the summary of a measurement
    in a suite with [target_time >= 1], the loop has made [iters >= 1] passes,
    [total >= target_time > 0] (so the throughput divides by a nonzero
    [float]), and [count] is [iters] modulo 2^32: it is at least 1, and the
    variance divides by a nonzero [float], as long as the loop made fewer than
    2^32 passes. *)
Theorem statistics_read_after_loop
  (fuel : nat) (b : bench_t) (name : string) (w w' : world) (r : Z * bench_t)
  (Hok : array_ok (measurements b))
  (Halloc : w_alloc w (w_allocs w) = true)
  (Htarget : 1 <= target_time b)
  (Hrun : bench_measure fuel b name w = Done r w') :
  exists (iters : nat) (ms : bench_measurement_t),
    (1 <= iters)%nat
    /\ w_ticks w' = (w_ticks w + 1 + 2 * iters)%nat
    /\ w_heap w' !! w_next w = Some ms
    /\ contents (out b) w'
       = contents (out b) w +:+ spaces (Z.to_nat (indent b))
         +:+ name +:+ " - " +:+ bench_stats_print (stats ms) +:+ "
"
    /\ target_time b <= total (stats ms)
    /\ 0 < total (stats ms)
    /\ nonzero_finite (of_Z (total (stats ms))) = true
    /\ count (stats ms) = wrap32 (Z.of_nat iters)
    /\ (Z.of_nat iters < 2 ^ 32 ->
        1 <= count (stats ms) /\ nonzero_finite (of_Z (count (stats ms))) = true).
Proof.
  destruct (bench_measure_done fuel b name w w' r Hok Halloc Hrun)
    as (iters & ms & _ & Ht & Hh & Htot & Hcount & Hpos & Hr & _ & Hout).
  assert (Hi : (1 <= iters)%nat) by (apply Hpos; lia).
  exists iters, ms. split; [exact Hi|]. split; [exact Ht|]. split; [exact Hh|].
  split.
  { unfold contents. rewrite Hout. rewrite !text_for_app, text_for_indent.
    rewrite !text_for_cons. cbn [text_for foldr].
    rewrite !string_app_assoc. reflexivity. }
  split; [exact Htot|]. split; [lia|].
  split; [apply f32_of_Z_nonzero_finite; specialize (Hr Hi); lia|].
  split; [exact Hcount|]. intros Hsmall.
  assert (Hc : count (stats ms) = Z.of_nat iters)
    by (rewrite Hcount; unfold wrap32; apply Z.mod_small; lia).
  split; [lia|]. apply f32_of_Z_nonzero_finite. lia.
Qed.

Lemma statistics_read_after_loop_witness :
  exists ms : bench_measurement_t,
    stats ms = bench_stats_push bench_stats_init 2000000000
    /\ 1 <= count (stats ms)
    /\ nonzero_finite (of_Z (count (stats ms))) = true
    /\ nonzero_finite (of_Z (total (stats ms))) = true.
Proof.
  assert (Hok : array_ok (measurements (fresh_suite SECONDS))).
  { exists (replicate 16 None). cbn. repeat split; lia. }
  assert (Htarget : 1 <= target_time (fresh_suite SECONDS)) by (vm_compute; congruence).
  destruct (statistics_read_after_loop 5 (fresh_suite SECONDS) "slow"
              (start_world slow_clock always) _ _ Hok eq_refl Htarget eq_refl)
    as (iters & ms & Hi & Ht & Hh & _ & _ & _ & Hf & Hc & Hs).
  assert (iters = 1%nat) as -> by (cbn in Ht; lia).
  exists ms. destruct Hs as [Hc1 Hf1]; [vm_compute; reflexivity|].
  split; [|split; [exact Hc1|split; [exact Hf1|exact Hf]]].
  vm_compute in Hh. injection Hh as <-. reflexivity.
Defined.

(** A run of exactly 2^32 passes: the clock stands still during the first
    2^32 - 1 calls and the last one takes a second.  The loop then stops with
    [total = 10^9] and [count = 0], and the variance printed is a division by
    zero. *)
Lemma counter_wraps_in_sampling_loop :
  exists (b' : bench_t) (w' : world) (ms : bench_measurement_t),
    bench_measure (Z.to_nat (2 ^ 32 + 1)) (fresh_suite SECONDS) "idle"
                  (start_world stalled_clock always)
    = Done (0, b') w'
    /\ w_heap w' !! 1%positive = Some ms
    /\ total (stats ms) = 1000000000
    /\ count (stats ms) = 0
    /\ is_finite (bench_stats_variance (stats ms)) = false.
Proof.
  assert (Hok : array_ok (measurements (fresh_suite SECONDS))).
  { exists (replicate 16 None). cbn. repeat split; lia. }
  set (w := start_world stalled_clock always).
  destruct (bench_measure_start (Z.to_nat (2 ^ 32 + 1)) (fresh_suite SECONDS) "idle"
              w Hok eq_refl)
    as (array & pushed & w1 & Heq & _ & _ & _ & Hclock & Hticks & _ & Hheap & _).
  rewrite Heq. clear Heq.
  change (w_next w) with 1%positive in *.
  change (w_ticks w) with 0%nat in Hticks. change (w_clock w) with stalled_clock in Hclock.
  change (target_time (fresh_suite SECONDS)) with 1000000000.
  set (ms0 := {| m_name := _; stats := _ |}) in Hheap.
  assert (Hh0 : w_heap w1 !! 1%positive = Some ms0)
    by (rewrite Hheap; apply lookup_insert_eq).
  set (k := Z.to_nat (2 ^ 32 - 1)).
  assert (Hk : Z.of_nat k = 2 ^ 32 - 1) by (unfold k; rewrite Z2Nat.id; lia).
  replace (Z.to_nat (2 ^ 32 + 1)) with (k + 2)%nat by lia.
  clearbody k.
  destruct (sampling_loop_idle k 2 1%positive 1000000000 w1 ms0 Hh0 eq_refl)
    as (w2 & ms2 & Hrun & Hh2 & Htot2 & Hcount2 & Hticks2 & Hclock2 & _).
  { lia. }
  { intros j Hj. rewrite Hclock. unfold stalled_clock.
    ltb_true (Z.of_nat j) (2 ^ 33).
    reflexivity. }
  unfold bind at 1. rewrite Hrun.
  rewrite (sampling_loop_step _ _ _ _ ms2 Hh2) by lia.
  set (ms3 := {| m_name := m_name ms2;
                 stats := bench_stats_push (stats ms2) 1000000000 |}).
  assert (Hh3 : w_heap (loop_iteration 1%positive ms2 w2) !! 1%positive = Some ms3).
  { unfold loop_iteration. cbn [set_heap w_heap].
    rewrite Hclock2, Hclock, Hticks2, Hticks. unfold stalled_clock.
    replace (Z.of_nat (1 + 2 * k) <? 2 ^ 33) with true
      by (symmetry; apply Z.ltb_lt; lia).
    replace (Z.of_nat (S (1 + 2 * k)) <? 2 ^ 33) with false
      by (symmetry; apply Z.ltb_ge; lia).
    change (wrap64 (wrap64 1000000000 - wrap64 0)) with 1000000000.
    apply lookup_insert_eq. }
  assert (Htot3 : total (stats ms3) = 1000000000).
  { cbn [ms3 stats bench_stats_push total]. rewrite Htot2. reflexivity. }
  assert (Hcount3 : count (stats ms3) = 0).
  { cbn [ms3 stats bench_stats_push count].
    rewrite <- wrap32_add_l, Hcount2, wrap32_add_l.
    cbn [ms0 stats bench_stats_init count].
    replace (0 + Z.of_nat k + 1) with (2 ^ 32) by lia. reflexivity. }
  rewrite (sampling_loop_exit _ _ _ _ ms3 Hh3) by lia.
  rewrite (report_measurement_run _ _ _ ms3 Hh3).
  eexists _, _, ms3. split; [reflexivity|].
  split; [exact Hh3|]. split; [exact Htot3|]. split; [exact Hcount3|].
  unfold bench_stats_variance. rewrite Hcount3.
  change (of_Z 0) with (S754_zero false).
  destruct (d_squared (stats ms3)) as [sg|sg| |sg m e]; reflexivity.
Qed.

(** ** The summary line *)

(** C5.  The summary is [<name> - <throughput> i/s (±<p>%) (<mean>/i)], but
    the number [p] printed before the percent sign is [bench_stats_stddev]
    itself, in nanoseconds, not the deviation relative to the mean: two calls
    of 0.25 s and 0.75 s have a mean of 0.5 s and a deviation of 0.25 s, half
    of the mean, and the line says 250000000.00 where the relative deviation
    is 50.00. *)
Theorem summary_prints_absolute_stddev :
  (forall s : bench_stats_t float,
      bench_stats_print s
      = bench_human_number (bench_stats_ops_per_sec s) false
        +:+ " i/s (±" +:+ fmt_f2 (bench_stats_stddev s) +:+ "%) ("
        +:+ bench_human_number (mean s) true +:+ "/i)")
  /\ (exists (b' : bench_t) (w' : world) (ms : bench_measurement_t),
         bench_measure 5 (fresh_suite SECONDS) "two" (start_world uneven_clock always)
         = Done (0, b') w'
         /\ w_heap w' !! 1%positive = Some ms
         /\ stats ms = push_all [250000000; 750000000]
         /\ contents 1 w' = "two - 2.00 i/s (±250000000.00%) (500.00ms/i)
"
         /\ fmt_f2 (mean (stats ms)) = "500000000.00"
         /\ fmt_f2 (bench_stats_stddev (stats ms)) = "250000000.00"
         /\ fmt_f2 (fmul (fdiv (bench_stats_stddev (stats ms)) (mean (stats ms)))
                         (f32_of_Z 100)) = "50.00").
Proof.
  split; [reflexivity|].
  eexists _, _, _.
  repeat (split; [vm_compute; reflexivity|]). vm_compute. reflexivity.
Qed.

(** ** Allocation failure in [bench_measure] *)

(** C6.  The array of the suite is full and the [realloc] that would grow it
    fails.  [bench_array_push] reports the failure, but [bench_measure] does
    not look at the result: the measurement is not in the array, the sampling
    loop runs all the same, the summary is printed and 0 is returned.  When
    the [malloc] of the measurement itself fails, [bench_measure] writes
    through the NULL pointer. *)
Theorem failed_growth_is_not_reported :
  bench_measure 5 (fresh_suite SECONDS) "m01" (start_world slow_clock never) = Undefined
  /\ exists (b16 : bench_t) (w16 : world) (b17 : bench_t) (w17 : world)
         (ms : bench_measurement_t),
    full_suite (start_world slow_clock no_growth) = Done b16 w16
    /\ size (measurements b16) = 16 /\ capacity (measurements b16) = 16
    /\ w_next w16 = 17%positive
    /\ bench_array_push (measurements b16) (Some 17%positive)
                        (set_allocs (2 + w_allocs w16) w16)
       = Done (false, measurements b16) (set_allocs (3 + w_allocs w16) w16)
    /\ bench_measure 5 b16 "m17" w16 = Done (0, b17) w17
    /\ b17 = b16
    /\ (Some 17%positive ∉ live_entries (measurements b17))
    /\ w_heap w17 !! 17%positive = Some ms
    /\ m_name ms = Some "m17"
    /\ count (stats ms) = 1
    /\ w_ticks w17 = (w_ticks w16 + 3)%nat
    /\ contents 1 w17 = contents 1 w16 +:+ "m17 - 0.50 i/s (±0.00%) (2.00s/i)
".
Proof.
  split; [vm_compute; reflexivity|].
  eexists _, _, _, _, _.
  do 7 (split; [vm_compute; reflexivity|]).
  split.
  { vm_compute. intros H.
    repeat (apply elem_of_cons in H as [H|H]; [discriminate H|]).
    inversion H. }
  repeat (split; [vm_compute; reflexivity|]). vm_compute. reflexivity.
Qed.

(** ** Creating suites and groups *)

(** [bench_create] when its three allocations succeed. *)
Lemma bench_create_run (nm : string) (o : FILE) (ind : Z) (d : pointer) (w : world) :
  w_alloc w (w_allocs w) = true ->
  w_alloc w (S (w_allocs w)) = true ->
  w_alloc w (S (S (w_allocs w))) = true ->
  bench_create nm o ind d w
  = Done (Some {| name := Some nm; out := o; indent := ind; data := d;
                  target_time := 1000000000; measurements := fresh_array |})
         (mk_world (w_output w
                    ++ (if (ind =? 0)%Z then [(o, "benc.h v1.0.0
")] else [])
                    ++ replicate (Z.to_nat ind) (o, " ")
                    ++ [(o, "# " +:+ nm +:+ "
")])
                   (w_clock w) (w_ticks w) (w_alloc w) (3 + w_allocs w)
                   (w_heap w) (w_next w)).
Proof.
  intros H0 H1 H2. unfold bench_create, strdup, bench_array_init, bench_array_resize.
  unfold bind at 1. cbn [allocate]. rewrite H0. cbn [negb].
  unfold bind at 1. unfold bind at 1. cbn [allocate set_allocs w_alloc w_allocs ret].
  rewrite H1.
  unfold bind at 1. cbn [size Z.ltb Z.compare]. unfold bind at 1.
  cbn [allocate set_allocs w_alloc w_allocs ret]. rewrite H2. cbn [negb ret].
  destruct (ind =? 0)%Z.
  - rewrite bind_fprintf.
    erewrite bind_run by apply print_indent_run.
    cbn [fprintf_s out indent]. rewrite bind_fprintf. unfold ret.
    unfold add_output. cbn. rewrite <- !app_assoc. reflexivity.
  - unfold bind at 1. unfold ret at 1.
    erewrite bind_run by apply print_indent_run.
    cbn [fprintf_s out indent]. rewrite bind_fprintf. unfold ret.
    unfold add_output. cbn. rewrite <- !app_assoc. reflexivity.
Qed.

Lemma contents_after_create (nm : string) (o : FILE) (ind : Z) (l : list (FILE * string)) :
  text_for o (l ++ (if (ind =? 0)%Z then [(o, "benc.h v1.0.0
")] else []) ++ replicate (Z.to_nat ind) (o, " ") ++ [(o, "# " +:+ nm +:+ "
")])
  = text_for o l +:+ suite_header ind nm.
Proof.
  unfold suite_header. rewrite !text_for_app, text_for_indent, text_for_cons.
  cbn [text_for foldr]. rewrite string_app_nil_r.
  destruct (ind =? 0)%Z.
  - rewrite text_for_cons. cbn [text_for foldr]. rewrite string_app_nil_r.
    rewrite ?string_app_assoc. reflexivity.
  - cbn [text_for foldr]. rewrite ?string_app_assoc. reflexivity.
Qed.

(** ** Ordering floats *)

Lemma SFcompare_rank (x y : float) :
  is_nan x = false -> is_nan y = false ->
  (SFltb x y = true <-> rank_lt (f_rank x) (f_rank y))
  /\ (SFleb x y = true <-> ~ rank_lt (f_rank y) (f_rank x)).
Proof.
  intros Hx Hy. unfold SFltb, SFleb.
  destruct x as [sx|sx| |sx mx ex], y as [sy|sy| |sy my ey];
    try discriminate; try destruct sx; try destruct sy;
    cbn [SFcompare f_rank rank_lt];
    try (split; split; intros; try discriminate; try reflexivity; lia).
  - rewrite (Pos.compare_cont_spec mx my Eq). cbn [Pos.switch_Eq].
    destruct (Z.compare_spec ex ey) as [E|E|E];
      try (split; split; intros; try discriminate; try reflexivity; lia).
    destruct (Pos.compare_spec mx my) as [M|M|M]; cbn [CompOpp];
      split; split; intros; try discriminate; try reflexivity; lia.
  - rewrite (Pos.compare_cont_spec mx my Eq). cbn [Pos.switch_Eq].
    destruct (Z.compare_spec ex ey) as [E|E|E];
      try (split; split; intros; try discriminate; try reflexivity; lia).
    destruct (Pos.compare_spec mx my) as [M|M|M];
      split; split; intros; try discriminate; try reflexivity; lia.
Qed.

Lemma rank_lt_asym (a b : Z * Z * Z) : rank_lt a b -> ~ rank_lt b a.
Proof. destruct a as [[a1 a2] a3], b as [[b1 b2] b3]. cbn. lia. Qed.

Lemma rank_le_trans (a b c : Z * Z * Z) :
  ~ rank_lt b a -> ~ rank_lt c b -> ~ rank_lt c a.
Proof.
  destruct a as [[a1 a2] a3], b as [[b1 b2] b3], c as [[c1 c2] c3]. cbn. lia.
Qed.

(** The comparison function of the source orders by descending throughput:
    it is non-positive exactly when the first measurement is at least as fast
    as the second. *)
Lemma compare_measurement_le (h : gmap addr bench_measurement_t) (a b : addr) :
  is_nan (throughput h a) = false -> is_nan (throughput h b) = false ->
  (_bench_compare_measurement h a b <= 0
   <-> SFleb (throughput h b) (throughput h a) = true)
  /\ (_bench_compare_measurement h a b < 0
      <-> SFltb (throughput h b) (throughput h a) = true)
  /\ (0 < _bench_compare_measurement h a b
      <-> SFltb (throughput h a) (throughput h b) = true).
Proof.
  intros Ha Hb. unfold _bench_compare_measurement. fold (throughput h a) (throughput h b).
  destruct (SFcompare_rank (throughput h b) (throughput h a) Hb Ha) as [Hlt Hle].
  destruct (SFcompare_rank (throughput h a) (throughput h b) Ha Hb) as [Hlt' Hle'].
  pose proof (rank_lt_asym (f_rank (throughput h a)) (f_rank (throughput h b))) as Hasym.
  destruct (SFltb (throughput h b) (throughput h a)) eqn:E1;
    destruct (SFltb (throughput h a) (throughput h b)) eqn:E2;
    repeat split; intros; try lia; try discriminate; try reflexivity;
    try (apply Hle; intros Hr; apply Hlt' in Hr; discriminate);
    try (exfalso; apply Hasym; [apply Hlt'|apply Hlt]; reflexivity);
    try (exfalso; match goal with H : SFleb _ _ = true |- _ => apply Hle in H; apply H end;
         apply Hlt'; reflexivity).
Qed.

Lemma compare_measurement_consistent (h : gmap addr bench_measurement_t) (l : list addr) :
  (forall a, a ∈ l -> is_nan (throughput h a) = false) ->
  cmp_consistent (_bench_compare_measurement h) l.
Proof.
  intros Hnan x y z Hx Hy Hz.
  destruct (compare_measurement_le h x y (Hnan x Hx) (Hnan y Hy)) as (Hxy & Hxy1 & _).
  destruct (compare_measurement_le h y x (Hnan y Hy) (Hnan x Hx)) as (_ & _ & Hyx).
  destruct (compare_measurement_le h y z (Hnan y Hy) (Hnan z Hz)) as (Hyz & _ & _).
  destruct (compare_measurement_le h x z (Hnan x Hx) (Hnan z Hz)) as (Hxz & _ & _).
  split.
  - rewrite Hxy1, Hyx. reflexivity.
  - rewrite Hxy, Hyz, Hxz.
    destruct (SFcompare_rank (throughput h y) (throughput h x)) as [_ H1]; auto.
    destruct (SFcompare_rank (throughput h z) (throughput h y)) as [_ H2]; auto.
    destruct (SFcompare_rank (throughput h z) (throughput h x)) as [_ H3]; auto.
    rewrite H1, H2, H3. intros A B. eapply rank_le_trans; eassumption.
Qed.

(** ** Running [bench_compare] *)

Lemma all_valid_pointers (h : gmap addr bench_measurement_t) (l : list addr) :
  (forall a, a ∈ l -> is_Some (h !! a)) -> all_valid h (Some <$> l) = Some l.
Proof.
  induction l as [|a l IH]; intros Hl; [reflexivity|].
  cbn [fmap list_fmap all_valid]. fold (Some <$> l).
  destruct (Hl a) as [m Hm]; [left|]. rewrite Hm, IH; [reflexivity|].
  intros a' Ha'. apply Hl. right. exact Ha'.
Qed.

Lemma ranking_lines_some (ind : nat) (f : bench_stats_t float) (ms : list bench_measurement_t) :
  ranking_lines ind (Some f) ms = foldr (fun m acc => slower_line ind f m +:+ acc) "" ms.
Proof. induction ms as [|m ms IH]; [reflexivity|]. cbn [ranking_lines foldr]. rewrite IH. reflexivity. Qed.

Lemma ranking_report_lines (ind : nat) (ms : list bench_measurement_t) :
  ranking_report ind ms
  = spaces ind +:+ "Comparing...
" +:+ ranking_lines ind None ms.
Proof.
  unfold ranking_report. destruct ms as [|m ms]; [reflexivity|].
  cbn [ranking_lines]. rewrite ranking_lines_some, !string_app_assoc. reflexivity.
Qed.

Lemma compare_loop_run (b : bench_t) (l : list addr) :
  forall (first : option (bench_stats_t float)) (w : world),
  (forall a, a ∈ l -> exists m nm, w_heap w !! a = Some m /\ m_name m = Some nm) ->
  exists chunks : list (FILE * string),
    compare_loop b first (Some <$> l) w = Done tt (add_output chunks w)
    /\ text_for (out b) chunks
       = ranking_lines (Z.to_nat (indent b)) first (deref (w_heap w) <$> l).
Proof.
  induction l as [|a l IH]; intros first w Hl.
  - exists []. rewrite add_output_nil. split; reflexivity.
  - destruct (Hl a) as (m & nm & Hm & Hnm); [left|].
    assert (Hd : deref (w_heap w) a = m) by (unfold deref; rewrite Hm; reflexivity).
    cbn [fmap list_fmap compare_loop]. fold (Some <$> l). fold (deref (w_heap w) <$> l).
    unfold bind at 1. unfold compare_entry. unfold bind at 1. unfold load. rewrite Hm.
    erewrite bind_run by apply print_indent_run.
    rewrite Hnm. destruct first as [f|]; cbn [fprintf_s].
    + rewrite !bind_fprintf. unfold ret at 1. rewrite !add_output_add_output.
      destruct (IH (Some f) (add_output
                   (replicate (Z.to_nat (indent b)) (out b, " ")
                    ++ [(out b, "  - " +:+ nm +:+ "")]
                    ++ [(out b, " (" +:+ fmt_f2 (fsub (fmul (fdiv (mean (stats m)) (mean f))
                                                            (of_Z 100)) (of_Z 100))
                                 +:+ "% slower)
")]) w)) as (chunks & Hrun & Htext).
      { intros a' Ha'. apply Hl. right. exact Ha'. }
      rewrite Hrun. rewrite add_output_add_output.
      eexists. split; [reflexivity|].
      rewrite !text_for_app, Htext, text_for_indent, !text_for_cons.
      cbn [text_for foldr add_output w_heap ranking_lines]. rewrite Hd.
      unfold slower_line, name_of, percent_slower. rewrite Hnm. cbn [from_option id].
      rewrite !string_app_nil_r, !string_app_assoc. reflexivity.
    + rewrite !bind_fprintf. unfold ret at 1. rewrite !add_output_add_output.
      destruct (IH (Some (stats m)) (add_output
                   (replicate (Z.to_nat (indent b)) (out b, " ")
                    ++ [(out b, "  - " +:+ nm +:+ " (fastest)
")]) w)) as (chunks & Hrun & Htext).
      { intros a' Ha'. apply Hl. right. exact Ha'. }
      rewrite Hrun. rewrite add_output_add_output.
      eexists. split; [reflexivity|].
      rewrite !text_for_app, Htext, text_for_indent, !text_for_cons.
      cbn [text_for foldr add_output w_heap ranking_lines]. rewrite Hd.
      unfold name_of. rewrite Hnm. cbn [from_option id].
      rewrite !string_app_nil_r, !string_app_assoc. reflexivity.
Qed.

Lemma for_each_free_run (l : list addr) : forall w : world,
  NoDup l ->
  (forall a, a ∈ l -> is_Some (w_heap w !! a)) ->
  exists h' : gmap addr bench_measurement_t,
    for_each bench_measurement_free (Some <$> l) w = Done tt (set_heap h' w)
    /\ (forall a, a ∈ l -> h' !! a = None)
    /\ (forall a, a ∉ l -> h' !! a = w_heap w !! a).
Proof.
  induction l as [|a l IH]; intros w Hnd Hl.
  - exists (w_heap w). split; [destruct w; reflexivity|].
    split; [intros a Ha; inversion Ha|reflexivity].
  - apply NoDup_cons in Hnd as [Hnotin Hnd].
    destruct (Hl a) as [m Hm]; [left|].
    cbn [fmap list_fmap for_each]. fold (Some <$> l).
    unfold bind at 1. unfold bench_measurement_free. unfold bind at 1. unfold load.
    rewrite Hm. cbn [free].
    destruct (IH (set_heap (delete a (w_heap w)) w) Hnd) as (h' & Hrun & Hin & Hout).
    { intros a' Ha'. cbn [set_heap w_heap].
      rewrite lookup_delete_ne by (intros ->; contradiction).
      apply Hl. right. exact Ha'. }
    exists h'. split; [exact Hrun|]. cbn [set_heap w_heap] in Hout.
    split.
    + intros a' Ha'. apply elem_of_cons in Ha' as [->|Ha']; [|apply Hin; exact Ha'].
      rewrite Hout by exact Hnotin. apply lookup_delete_eq.
    + intros a' Ha'. apply not_elem_of_cons in Ha' as [Hne Ha'].
      rewrite Hout by exact Ha'. apply lookup_delete_ne. congruence.
Qed.

Lemma StronglySorted_weaken {A} (R R' : A -> A -> Prop) (l : list A) :
  (forall x y, x ∈ l -> y ∈ l -> R x y -> R' x y) ->
  StronglySorted R l -> StronglySorted R' l.
Proof.
  intros Himpl Hs. induction Hs as [|a l Hs IH Hall]; constructor.
  - apply IH. intros x y Hx Hy. apply Himpl; right; assumption.
  - rewrite List.Forall_forall in Hall |- *. intros y Hy. apply Himpl.
    + left.
    + right. apply list_elem_of_In. exact Hy.
    + apply Hall. exact Hy.
Qed.

(** [bench_compare] on a suite that is ready to be compared. *)
Lemma bench_compare_run
  (qsort : (addr -> addr -> Z) -> list addr -> list addr)
  (b : bench_t) (w : world) (ptrs : list addr) :
  qsort_contract qsort ->
  suite_ready b w ptrs ->
  exists (sorted : list addr) (w' : world),
    bench_compare qsort b w = Done tt w'
    /\ Permutation ptrs sorted
    /\ descending (w_heap w) sorted
    /\ contents (out b) w'
       = contents (out b) w
         +:+ (if 1 <? size (measurements b)
              then ranking_report (Z.to_nat (indent b)) (deref (w_heap w) <$> sorted)
              else "")
    /\ (forall a, a ∈ ptrs -> w_heap w' !! a = None).
Proof.
  intros Hq (buf & Hbuf & Hsize & Htake & Hlen & Hnd & Hvalid).
  assert (Hsome : forall a, a ∈ ptrs -> is_Some (w_heap w !! a)).
  { intros a Ha. destruct (Hvalid a Ha) as (m & nm & Hm & _). eauto. }
  assert (Hnames : forall a, a ∈ ptrs ->
             exists m nm, w_heap w !! a = Some m /\ m_name m = Some nm).
  { intros a Ha. destruct (Hvalid a Ha) as (m & nm & Hm & Hnm & _). eauto. }
  assert (Hnan : forall a, a ∈ ptrs -> is_nan (throughput (w_heap w) a) = false).
  { intros a Ha. destruct (Hvalid a Ha) as (m & nm & Hm & _ & Hn).
    unfold throughput, deref. rewrite Hm. exact Hn. }
  unfold bench_compare. destruct (1 <? size (measurements b)) eqn:Hmany.
  - destruct (Hq (_bench_compare_measurement (w_heap w)) ptrs) as [Hperm Hsorted].
    { apply compare_measurement_consistent. exact Hnan. }
    set (sorted := qsort (_bench_compare_measurement (w_heap w)) ptrs) in *.
    assert (Hin : forall a, a ∈ sorted -> a ∈ ptrs).
    { intros a Ha. rewrite Hperm. exact Ha. }
    unfold bind at 1. unfold bind at 1. unfold sort_entries at 1.
    rewrite Hbuf, Htake, (all_valid_pointers _ _ Hsome). fold sorted.
    set (m' := {| size := _; capacity := _; entries := _ |}).
    assert (Hlive : live_entries m' = Some <$> sorted).
    { unfold live_entries, m'. cbn [entries size from_option id].
      apply take_app_length'. rewrite length_fmap, <- Hlen.
      apply Permutation_length. exact Hperm. }
    erewrite bind_run by apply print_indent_run.
    rewrite bind_fprintf, add_output_add_output.
    cbn [with_measurements out indent].
    unfold bind at 1.
    match goal with
    | |- context [compare_loop ?b' None (live_entries m') ?W] =>
        destruct (compare_loop_run b' sorted None W) as (chunks & Hrun & Htext)
    end.
    { intros a Ha. cbn [add_output w_heap]. apply Hnames, Hin, Ha. }
    cbn [out indent with_measurements add_output w_heap] in Htext.
    rewrite Hlive, Hrun. unfold ret at 1. rewrite add_output_add_output.
    unfold bench_free. cbn [measurements with_measurements]. rewrite Hlive.
    match goal with
    | |- context [for_each bench_measurement_free (Some <$> sorted) ?W] =>
        destruct (for_each_free_run sorted W) as (h' & Hfree & Hgone & _)
    end.
    { rewrite <- Hperm. exact Hnd. }
    { intros a Ha. cbn [add_output w_heap]. apply Hsome, Hin, Ha. }
    rewrite Hfree. exists sorted. eexists. split; [reflexivity|].
    split; [exact Hperm|]. split.
    { unfold descending. eapply StronglySorted_weaken; [|exact Hsorted].
      intros x y Hx Hy Hxy. cbv beta in Hxy.
      apply (compare_measurement_le (w_heap w) x y); auto. }
    split.
    { unfold contents. cbn [set_heap add_output w_output].
      rewrite !text_for_app, text_for_indent, text_for_cons, Htext.
      cbn [text_for foldr out indent with_measurements add_output w_heap].
      rewrite ranking_report_lines, string_app_nil_r, !string_app_assoc. reflexivity. }
    intros a Ha. cbn [set_heap w_heap]. apply Hgone. rewrite <- Hperm. exact Ha.
  - unfold bind at 1. unfold ret at 1. unfold bench_free.
    assert (Hlive : live_entries (measurements b) = Some <$> ptrs).
    { unfold live_entries. rewrite Hbuf. exact Htake. }
    rewrite Hlive.
    destruct (for_each_free_run ptrs w Hnd Hsome) as (h' & Hfree & Hgone & _).
    rewrite Hfree. exists ptrs. eexists. split; [reflexivity|].
    split; [reflexivity|]. split.
    { apply Z.ltb_ge in Hmany. unfold descending.
      destruct ptrs as [|a [|a' ptrs]]; [constructor|repeat constructor|].
      cbn [length] in Hlen. lia. }
    split.
    { unfold contents. cbn [set_heap w_output]. rewrite string_app_nil_r. reflexivity. }
    intros a Ha. cbn [set_heap w_heap]. apply Hgone, Ha.
Qed.

(** *** Insertion sort keeps the promise of [qsort] *)

Lemma insert_sorted_perm (cmp : addr -> addr -> Z) (x : addr) (l : list addr) :
  Permutation (x :: l) (insert_sorted cmp x l).
Proof.
  induction l as [|y l IH]; [reflexivity|].
  cbn [insert_sorted]. destruct (cmp x y <=? 0); [reflexivity|].
  rewrite perm_swap. apply perm_skip. exact IH.
Qed.

Lemma insertion_sort_perm (cmp : addr -> addr -> Z) (l : list addr) :
  Permutation l (insertion_sort cmp l).
Proof.
  induction l as [|x l IH]; [reflexivity|].
  cbn [insertion_sort foldr]. fold (insertion_sort cmp l).
  rewrite <- insert_sorted_perm. apply perm_skip. exact IH.
Qed.

Lemma insert_sorted_sorted (cmp : addr -> addr -> Z) (u : list addr) (x : addr)
  (l : list addr) :
  cmp_consistent cmp u -> x ∈ u -> (forall y, y ∈ l -> y ∈ u) ->
  StronglySorted (fun a b => cmp a b <= 0) l ->
  StronglySorted (fun a b => cmp a b <= 0) (insert_sorted cmp x l).
Proof.
  intros Hc Hx Hl Hs. induction Hs as [|y l Hs IH Hall].
  - repeat constructor.
  - assert (Hy : y ∈ u) by (apply Hl; left).
    assert (Hl' : forall z, z ∈ l -> z ∈ u) by (intros z Hz; apply Hl; right; exact Hz).
    cbn [insert_sorted]. destruct (Z.leb_spec (cmp x y) 0) as [Hle|Hgt].
    + constructor; [constructor; assumption|].
      constructor; [exact Hle|].
      rewrite List.Forall_forall in Hall |- *. intros z Hz.
      assert (Hz' : z ∈ u) by (apply Hl', list_elem_of_In, Hz).
      destruct (Hc x y z Hx Hy Hz') as [_ Htrans]. apply Htrans; [exact Hle|].
      apply Hall, Hz.
    + constructor; [apply IH; exact Hl'|].
      eapply Permutation_Forall; [apply insert_sorted_perm|].
      constructor; [|exact Hall].
      destruct (Hc y x y Hy Hx Hy) as [Hanti _]. lia.
Qed.

Lemma insertion_sort_contract : qsort_contract insertion_sort.
Proof.
  intros cmp l Hc. split; [apply insertion_sort_perm|].
  assert (H : forall l', (forall y, y ∈ l' -> y ∈ l) ->
                         StronglySorted (fun a b => cmp a b <= 0) (insertion_sort cmp l')).
  { induction l' as [|x l' IH]; intros Hsub; [constructor|].
    cbn [insertion_sort foldr]. fold (insertion_sort cmp l').
    apply (insert_sorted_sorted cmp l).
    - exact Hc.
    - apply Hsub. left.
    - intros y Hy. apply Hsub. right. rewrite (insertion_sort_perm cmp l'). exact Hy.
    - apply IH. intros y Hy. apply Hsub. right. exact Hy. }
  apply H. auto.
Qed.

(** *** The example: A at 1000/s, B at 2000/s, C at 500/s *)

Lemma abc_ready : suite_ready (suite_of [1; 2; 3]%positive) abc_world [1; 2; 3]%positive.
Proof.
  eexists. split; [reflexivity|]. split; [cbn; lia|]. split; [reflexivity|].
  split; [reflexivity|]. split.
  - repeat constructor; intros H;
      repeat (apply elem_of_cons in H as [H|H]; [discriminate H|]); inversion H.
  - intros a Ha.
    repeat (apply elem_of_cons in Ha as [->|Ha];
            [eexists _, _; split; [reflexivity|]; split; [reflexivity|];
             vm_compute; reflexivity|]).
    inversion Ha.
Qed.

Lemma abc_order (sorted : list addr) :
  Permutation [1; 2; 3]%positive sorted -> descending abc_heap sorted ->
  sorted = [2; 1; 3]%positive.
Proof.
  intros Hperm Hdesc.
  pose proof (Permutation_length Hperm) as Hlen.
  destruct sorted as [|x [|y [|z [|]]]]; try discriminate Hlen.
  assert (Hx : x ∈ [1; 2; 3]%positive) by (rewrite Hperm; left).
  assert (Hy : y ∈ [1; 2; 3]%positive) by (rewrite Hperm; right; left).
  assert (Hz : z ∈ [1; 2; 3]%positive) by (rewrite Hperm; do 2 right; left).
  assert (H1 : 1%positive ∈ [x; y; z]) by (rewrite <- Hperm; left).
  assert (H2 : 2%positive ∈ [x; y; z]) by (rewrite <- Hperm; right; left).
  assert (H3 : 3%positive ∈ [x; y; z]) by (rewrite <- Hperm; do 2 right; left).
  unfold descending in Hdesc.
  apply StronglySorted_inv in Hdesc as [Hdesc Hxs].
  apply StronglySorted_inv in Hdesc as [_ Hys].
  apply Forall_cons in Hxs as [Hxy Hxs]. apply Forall_cons in Hxs as [Hxz _].
  apply Forall_cons in Hys as [Hyz _].
  repeat (apply elem_of_cons in Hx as [->|Hx]); [| | |inversion Hx];
    (repeat (apply elem_of_cons in Hy as [->|Hy]); [| | |inversion Hy]);
    (repeat (apply elem_of_cons in Hz as [->|Hz]); [| | |inversion Hz]);
    vm_compute in Hxy, Hxz, Hyz; try discriminate; try reflexivity;
    exfalso;
    first [ solve [ clear - H1;
                    repeat (apply elem_of_cons in H1 as [H1|H1]; [discriminate H1|]);
                    inversion H1 ]
          | solve [ clear - H2;
                    repeat (apply elem_of_cons in H2 as [H2|H2]; [discriminate H2|]);
                    inversion H2 ]
          | solve [ clear - H3;
                    repeat (apply elem_of_cons in H3 as [H3|H3]; [discriminate H3|]);
                    inversion H3 ] ].
Qed.

(** C3.  [bench_compare] prints a ranking exactly when the suite holds two or
    more measurements.  The ranking lists the measurements by descending
    operations per second, the first marked as the fastest and every other
    one with [(mean / fastest mean) * 100 - 100] percent slower; for A at
    1000/s, B at 2000/s and C at 500/s the order is B, A, C, and a suite with
    one measurement prints nothing. *)
Theorem compare_ranks_by_throughput
  (qsort : (addr -> addr -> Z) -> list addr -> list addr)
  (Hq : qsort_contract qsort) :
  (forall (b : bench_t) (w : world) (ptrs : list addr),
      suite_ready b w ptrs ->
      exists (sorted : list addr) (w' : world),
        bench_compare qsort b w = Done tt w'
        /\ Permutation ptrs sorted
        /\ descending (w_heap w) sorted
        /\ contents (out b) w'
           = contents (out b) w
             +:+ (if 1 <? size (measurements b)
                  then ranking_report (Z.to_nat (indent b)) (deref (w_heap w) <$> sorted)
                  else ""))
  /\ (exists w' : world,
         bench_compare qsort (suite_of [1; 2; 3]%positive) abc_world = Done tt w'
         /\ contents 1 w' = "Comparing...
  - B (fastest)
  - A (100.00% slower)
  - C (300.00% slower)
")
  /\ (exists w' : world,
         bench_compare qsort (suite_of [1%positive]) abc_world = Done tt w'
         /\ contents 1 w' = "").
Proof.
  split; [|split].
  - intros b w ptrs Hready.
    destruct (bench_compare_run qsort b w ptrs Hq Hready)
      as (sorted & w' & Hrun & Hperm & Hdesc & Hout & _).
    exists sorted, w'. auto.
  - destruct (bench_compare_run qsort _ _ _ Hq abc_ready)
      as (sorted & w' & Hrun & Hperm & Hdesc & Hout & _).
    exists w'. split; [exact Hrun|].
    rewrite (abc_order sorted Hperm Hdesc) in Hout.
    cbn [out suite_of] in Hout. rewrite Hout. vm_compute. reflexivity.
  - vm_compute. eexists. split; reflexivity.
Qed.

Lemma compare_ranks_by_throughput_witness :
  (exists w' : world,
      bench_compare insertion_sort (suite_of [1; 2; 3]%positive) abc_world = Done tt w'
      /\ contents 1 w' = "Comparing...
  - B (fastest)
  - A (100.00% slower)
  - C (300.00% slower)
"
      /\ w_heap w' = ∅)
  /\ (exists sorted : list addr,
         Permutation [1; 2; 3]%positive sorted /\ descending abc_heap sorted).
Proof.
  destruct (compare_ranks_by_throughput insertion_sort insertion_sort_contract)
    as (Hgeneral & (w' & Hrun & Hout) & _).
  split.
  - exists w'. split; [exact Hrun|]. split; [exact Hout|].
    vm_compute in Hrun. injection Hrun as <-. reflexivity.
  - destruct (Hgeneral _ _ _ abc_ready) as (sorted & _ & _ & Hperm & Hdesc & _).
    exists sorted. split; [exact Hperm|exact Hdesc].
Defined.

(** ** Groups *)

(** C8, as amended.  [bench_group] creates a child suite with the parent's
    sink, the parent's indent plus 2 and a target of one second;
    [bench_create] prints the version banner exactly when the indent it is
    given is 0, that is, for the child of a parent with indent -2 and for no
    other child, and prints ["# <name>"] behind the child's indentation; the
    group function runs on the child, and when it returns a suite ready to be
    compared, [bench_group] returns after [bench_compare] has written the
    ranking of that suite to its sink (for two or more measurements) and has
    freed its measurements. *)
Theorem group_creates_nested_suite
  (qsort : (addr -> addr -> Z) -> list addr -> list addr)
  (b : bench_t) (nm : string) (fn : bench_group_fn) (ptr : pointer) (w : world)
  (Hint : indent b + 2 <= INT_MAX)
  (H0 : w_alloc w (w_allocs w) = true)
  (H1 : w_alloc w (S (w_allocs w)) = true)
  (H2 : w_alloc w (S (S (w_allocs w))) = true) :
  let child := child_suite b nm ptr in
  let w1 := after_create nm (out b) (indent b + 2) w in
  bench_create nm (out b) (indent b + 2) ptr w = Done (Some child) w1
  /\ out child = out b
  /\ indent child = indent b + 2
  /\ target_time child = SECONDS
  /\ size (measurements child) = 0
  /\ contents (out b) w1
     = contents (out b) w
       +:+ (if indent b =? -2 then "benc.h v1.0.0
" else "")
       +:+ spaces (Z.to_nat (indent b + 2)) +:+ "# " +:+ nm +:+ "
"
  /\ (forall (o : FILE) (ind : Z) (d : pointer),
         exists (b0 : bench_t) (w0 : world),
           bench_create nm o ind d w = Done (Some b0) w0
           /\ contents o w0 = contents o w +:+ suite_header ind nm)
  /\ bench_group qsort b nm fn ptr w
     = (let* b2 := fn child in bench_compare qsort b2) w1
  /\ (forall w' : world,
         bench_group qsort b nm fn ptr w = Done tt w' ->
         exists (b2 : bench_t) (w2 : world),
           fn child w1 = Done b2 w2 /\ bench_compare qsort b2 w2 = Done tt w')
  /\ (forall (b2 : bench_t) (w2 : world) (ptrs : list addr),
         qsort_contract qsort ->
         fn child w1 = Done b2 w2 ->
         suite_ready b2 w2 ptrs ->
         exists (sorted : list addr) (w' : world),
           bench_group qsort b nm fn ptr w = Done tt w'
           /\ Permutation ptrs sorted
           /\ descending (w_heap w2) sorted
           /\ contents (out b2) w'
              = contents (out b2) w2
                +:+ (if 1 <? size (measurements b2)
                     then ranking_report (Z.to_nat (indent b2))
                            (deref (w_heap w2) <$> sorted)
                     else "")
           /\ (forall a, a ∈ ptrs -> w_heap w' !! a = None)).
Proof.
  intros child w1.
  pose proof (bench_create_run nm (out b) (indent b + 2) ptr w H0 H1 H2) as Hc.
  fold (after_create nm (out b) (indent b + 2) w) in Hc. fold w1 in Hc.
  change {| name := Some nm; out := out b; indent := indent b + 2; data := ptr;
            target_time := 1000000000; measurements := fresh_array |} with child in Hc.
  assert (Hg : bench_group qsort b nm fn ptr w
               = (let* b2 := fn child in bench_compare qsort b2) w1).
  { unfold bench_group. ltb_false INT_MAX (indent b + 2).
    unfold bind at 1. rewrite Hc. reflexivity. }
  split; [exact Hc|].
  split; [reflexivity|]. split; [reflexivity|]. split; [reflexivity|].
  split; [reflexivity|].
  split.
  { unfold contents, w1, after_create. cbn [w_output]. rewrite contents_after_create.
    unfold suite_header.
    destruct (Z.eqb_spec (indent b) (-2)) as [E|E].
    - replace (indent b + 2 =? 0) with true by (symmetry; apply Z.eqb_eq; lia).
      rewrite ?string_app_assoc. reflexivity.
    - replace (indent b + 2 =? 0) with false by (symmetry; apply Z.eqb_neq; lia).
      reflexivity. }
  split.
  { intros o ind d. eexists _, _. split; [apply bench_create_run; assumption|].
    unfold contents. cbn [w_output]. apply contents_after_create. }
  split; [exact Hg|].
  split.
  { intros w' Hrun. rewrite Hg in Hrun. unfold bind at 1 in Hrun.
    destruct (fn child w1) as [b2 w2| |] eqn:Hfn; try discriminate.
    exists b2, w2. split; [reflexivity|exact Hrun]. }
  intros b2 w2 ptrs Hq Hfn Hready.
  destruct (bench_compare_run qsort b2 w2 ptrs Hq Hready)
    as (sorted & w' & Hrun & Hperm & Hdesc & Htext & Hfreed).
  exists sorted, w'. split.
  { rewrite Hg. unfold bind at 1. rewrite Hfn. exact Hrun. }
  split; [exact Hperm|]. split; [exact Hdesc|]. split; [exact Htext|exact Hfreed].
Qed.

Lemma group_creates_nested_suite_witness :
  exists (b2 : bench_t) (w2 w' : world),
    measure_all 5 ["fast"; "slow"] (child_suite (fresh_suite SECONDS) "publish" 0)
      (after_create "publish" 1 2 (start_world slow_clock always)) = Done b2 w2
    /\ bench_group insertion_sort (fresh_suite SECONDS) "publish"
         (measure_all 5 ["fast"; "slow"]) 0 (start_world slow_clock always) = Done tt w'
    /\ contents 1 w2 = "  # publish
  fast - 0.50 i/s (±0.00%) (2.00s/i)
  slow - 0.50 i/s (±0.00%) (2.00s/i)
"
    /\ contents 1 w' = contents 1 w2 +:+ "  Comparing...
    - fast (fastest)
    - slow (0.00% slower)
"
    /\ w_heap w' = ∅.
Proof.
  destruct (group_creates_nested_suite insertion_sort (fresh_suite SECONDS) "publish"
              (measure_all 5 ["fast"; "slow"]) 0 (start_world slow_clock always))
    as (_ & _ & _ & _ & _ & _ & _ & _ & _ & Hrank).
  - vm_compute. congruence.
  - reflexivity.
  - reflexivity.
  - reflexivity.
  - destruct (measure_all 5 ["fast"; "slow"] (child_suite (fresh_suite SECONDS) "publish" 0)
                (after_create "publish" 1 (indent (fresh_suite SECONDS) + 2)
                   (start_world slow_clock always))) as [b2 w2| |] eqn:Hfn;
      try (vm_compute in Hfn; discriminate Hfn).
    destruct (Hrank b2 w2 [1; 2]%positive insertion_sort_contract Hfn)
      as (sorted & w' & Hrun & Hperm & _ & Htext & Hfreed).
    + vm_compute in Hfn. injection Hfn as <- <-.
      eexists. split; [reflexivity|]. split; [cbn; lia|]. split; [reflexivity|].
      split; [reflexivity|]. split.
      * repeat constructor; intros H;
          repeat (apply elem_of_cons in H as [H|H]; [discriminate H|]); inversion H.
      * intros a Ha.
        repeat (apply elem_of_cons in Ha as [->|Ha];
                [eexists _, _; split; [reflexivity|]; split; [reflexivity|];
                 vm_compute; reflexivity|]).
        inversion Ha.
    + exists b2, w2, w'. split; [exact Hfn|]. split; [exact Hrun|].
      vm_compute in Hfn. injection Hfn as <- <-.
      split; [vm_compute; reflexivity|].
      split; [vm_compute in Hrun; injection Hrun as <-; vm_compute; reflexivity|].
      vm_compute in Hrun. injection Hrun as <-. vm_compute. reflexivity.
Defined.

(** Where C8 fails.  [bench_create] takes any [int] as indent: the child of
    a suite created with indent -2 has indent 0, and prints the version
    banner a second time. *)
Lemma group_under_negative_indent_reprints_banner :
  exists (b : bench_t) (w w' : world),
    bench_create "root" 1 (-2) 0 (start_world slow_clock always) = Done (Some b) w
    /\ indent b = -2
    /\ indent (child_suite b "child" 0) = 0
    /\ bench_group insertion_sort b "child" ret 0 w = Done tt w'
    /\ contents 1 w' = "# root
benc.h v1.0.0
# child
".
Proof.
  eexists _, _, _. split; [vm_compute; reflexivity|]. split; [reflexivity|].
  split; [reflexivity|]. split; vm_compute; reflexivity.
Qed.

(** * Further properties

    The dynamic array on its own, the sampling loop as a function of the
    clock, what [bench_compare] does to the heap, whole sessions, the example
    program, the failure paths of [bench_create], [bench_group] and
    [bench_measure], and the two bodies of [bench_now]. *)

(** ** The dynamic array *)

(** A push that finds room, or that is granted the larger buffer, stores the
    pointer behind the entries in use; the capacity doubles exactly when the
    array was full, and only then is the allocator asked. *)
Lemma bench_array_push_stores (a : bench_array_t) (ptr : option addr) (w : world) :
  array_ok a ->
  size a < capacity a \/ w_alloc w (w_allocs w) = true ->
  exists (a' : bench_array_t) (w' : world) (buf' : list (option addr)),
    bench_array_push a ptr w = Done (true, a') w'
    /\ w' = (if size a =? capacity a then set_allocs (S (w_allocs w)) w else w)
    /\ same_but_allocs w w'
    /\ size a' = size a + 1
    /\ capacity a' = (if size a =? capacity a then 2 * capacity a else capacity a)
    /\ entries a' = Some buf'
    /\ length buf' = Z.to_nat (capacity a')
    /\ live_entries a' = live_entries a ++ [ptr].
Proof.
  intros (buf & Hbuf & Hlen & Hsize & Hcap & Hcap2) Hroom.
  unfold bench_array_push.
  destruct (size a =? capacity a) eqn:Hfull.
  - apply Z.eqb_eq in Hfull.
    destruct Hroom as [Hroom|Hroom]; [lia|].
    unfold bind at 1. unfold bench_array_resize.
    assert (Hw : wrap64 (capacity a * 2) = capacity a * 2)
      by (unfold wrap64; apply Z.mod_small; lia).
    rewrite Hw.
    ltb_false (capacity a * 2) (size a).
    unfold bind at 1. cbn [allocate]. rewrite Hroom. cbn [negb ret].
    rewrite Hbuf. cbn [entries size capacity resized].
    set (buf' := take _ buf ++ _).
    assert (Hlen' : length buf' = Z.to_nat (capacity a * 2)).
    { unfold buf'. rewrite length_app, length_take, length_replicate. lia. }
    replace (Z.to_nat (size a) <? length buf')%nat with true
      by (symmetry; apply Nat.ltb_lt; lia).
    eexists _, _, _. split; [reflexivity|]. split; [reflexivity|].
    split; [repeat split|].
    cbn [size capacity entries].
    split; [unfold wrap64; apply Z.mod_small; lia|].
    split; [lia|]. split; [reflexivity|].
    split; [rewrite length_insert; lia|].
    unfold live_entries. cbn [entries size]. rewrite Hbuf. cbn [from_option id].
    replace (wrap64 (size a + 1)) with (size a + 1)
      by (unfold wrap64; symmetry; apply Z.mod_small; lia).
    assert (Hb : buf' = buf ++ replicate (Z.to_nat (capacity a)) None).
    { unfold buf'. rewrite take_ge by lia. f_equal. f_equal. rewrite Hlen.
      rewrite Z2Nat.inj_mul by lia. change (Z.to_nat 2) with 2%nat. lia. }
    rewrite Hb. rewrite Hfull.
    replace (Z.to_nat (capacity a)) with (length buf + 0)%nat at 1 by lia.
    rewrite insert_app_r. rewrite (take_ge buf) by lia.
    replace (Z.to_nat (capacity a + 1)) with (length buf + 1)%nat by lia.
    rewrite take_app_add'; [|reflexivity]. f_equal.
    destruct (Z.to_nat (capacity a)) eqn:En; [lia|]. reflexivity.
  - apply Z.eqb_neq in Hfull.
    unfold bind at 1. cbn [ret negb]. rewrite Hbuf.
    replace (Z.to_nat (size a) <? length buf)%nat with true
      by (symmetry; apply Nat.ltb_lt; lia).
    eexists _, w, _. split; [reflexivity|]. split; [reflexivity|].
    split; [apply same_but_allocs_refl|].
    cbn [size capacity entries].
    split; [unfold wrap64; apply Z.mod_small; lia|].
    split; [reflexivity|]. split; [reflexivity|].
    split; [rewrite length_insert; lia|].
    unfold live_entries. cbn [entries size]. rewrite Hbuf. cbn [from_option id].
    replace (wrap64 (size a + 1)) with (size a + 1)
      by (unfold wrap64; symmetry; apply Z.mod_small; lia).
    replace (Z.to_nat (size a + 1)) with (S (Z.to_nat (size a))) by lia.
    erewrite take_S_r by (apply list_lookup_insert_eq; lia).
    rewrite take_insert_ge by lia. reflexivity.
Qed.

Lemma same_but_allocs_trans w1 w2 w3 :
  same_but_allocs w1 w2 -> same_but_allocs w2 w3 -> same_but_allocs w1 w3.
Proof.
  intros (A1 & A2 & A3 & A4 & A5 & A6) (B1 & B2 & B3 & B4 & B5 & B6).
  repeat split; congruence.
Qed.

Lemma fresh_array_ok : array_ok fresh_array.
Proof. exists (replicate 16 None). cbn. repeat split; lia. Qed.

(** Pushing a list of pointers with an allocator that grants every request. *)
Lemma push_each_stores (ptrs : list (option addr)) :
  forall (a : bench_array_t) (w : world),
  array_ok a ->
  (forall k, w_alloc w k = true) ->
  size a + Z.of_nat (length ptrs) < 2 ^ 32 ->
  capacity a < 2 ^ 33 ->
  exists (a' : bench_array_t) (w' : world),
    push_each a ptrs w = Done (true, a') w'
    /\ same_but_allocs w w'
    /\ array_ok a'
    /\ size a' = size a + Z.of_nat (length ptrs)
    /\ live_entries a' = live_entries a ++ ptrs
    /\ (capacity a' = capacity a \/ capacity a' < 2 * size a').
Proof.
  induction ptrs as [|ptr ptrs IH]; intros a w Hok Halloc Hlen Hcap.
  - exists a, w. cbn [push_each length] in *. split; [reflexivity|].
    split; [apply same_but_allocs_refl|]. split; [exact Hok|].
    split; [lia|]. split; [rewrite app_nil_r; reflexivity|]. left. reflexivity.
  - cbn [length] in Hlen.
    destruct (bench_array_push_stores a ptr w Hok (or_intror (Halloc _)))
      as (a1 & w1 & buf1 & Hpush & _ & Hsame & Hsize1 & Hcap1 & Hbuf1 & Hlen1 & Hlive1).
    pose proof Hok as (buf & Hbuf & Hblen & Hsz & Hcpos & Hc2).
    assert (Hcap1' : capacity a1 = capacity a /\ size a < capacity a
                     \/ capacity a1 = 2 * size a /\ size a = capacity a).
    { destruct (size a =? capacity a) eqn:E.
      - apply Z.eqb_eq in E. right. lia.
      - apply Z.eqb_neq in E. left. lia. }
    clear Hcap1.
    assert (Hok1 : array_ok a1).
    { exists buf1. split; [exact Hbuf1|]. split; [exact Hlen1|]. lia. }
    destruct (IH a1 w1 Hok1) as (a' & w' & Hrun & Hsame' & Hok' & Hsize' & Hlive' & Hcap');
      [|lia|lia|].
    { destruct Hsame as (_ & _ & _ & Ha & _). intros k. rewrite Ha. apply Halloc. }
    exists a', w'. cbn [push_each]. unfold bind at 1. rewrite Hpush.
    split; [exact Hrun|].
    split; [eapply same_but_allocs_trans; eassumption|].
    split; [exact Hok'|]. split; [cbn [length]; lia|].
    split; [rewrite Hlive', Hlive1, <- app_assoc; reflexivity|].
    lia.
Qed.

(** X1.  With an allocator that grants every request, any number (below
    2^32) of pointers pushed onto a freshly initialised array are all kept:
    the push never fails, slot [i] holds the [i]-th pointer pushed, [size] is
    their number, and the capacity is 16 or less than twice the size. *)
Theorem pushed_pointers_are_kept_in_order (ptrs : list (option addr)) (w : world)
  (Halloc : forall k, w_alloc w k = true)
  (Hlen : Z.of_nat (length ptrs) < 2 ^ 32) :
  exists (a : bench_array_t) (w' : world),
    array_of ptrs w = Done (true, a) w'
    /\ size a = Z.of_nat (length ptrs)
    /\ live_entries a = ptrs
    /\ (forall i : nat, (i < length ptrs)%nat -> default [] (entries a) !! i = ptrs !! i)
    /\ size a <= capacity a
    /\ (capacity a = 16 \/ capacity a < 2 * size a)
    /\ same_but_allocs w w'.
Proof.
  unfold array_of. unfold bind at 1. unfold bench_array_init, bench_array_resize.
  cbn [size]. change (16 <? 0) with false. cbv iota.
  unfold bind at 1. cbn [allocate]. rewrite Halloc. cbn [negb ret entries resized].
  change (replicate (Z.to_nat 16) None) with (replicate 16 (@None addr)).
  fold fresh_array.
  destruct (push_each_stores ptrs fresh_array (set_allocs (S (w_allocs w)) w) fresh_array_ok)
    as (a & w' & Hrun & Hsame & Hok' & Hsize & Hlive & Hcap).
  { intros k. apply Halloc. }
  { cbn. lia. }
  { cbn. lia. }
  exists a, w'. split; [exact Hrun|].
  cbn [size fresh_array] in Hsize.
  change (live_entries fresh_array) with (@nil (option addr)) in Hlive.
  cbn [app] in Hlive.
  split; [lia|]. split; [exact Hlive|].
  split.
  { intros i Hi. rewrite <- Hlive. unfold live_entries.
    rewrite lookup_take_lt by lia. reflexivity. }
  destruct Hok' as (buf & Hbuf & Hblen & Hsz & Hcpos & Hc2).
  split; [lia|]. split; [exact Hcap|].
  destruct Hsame as (A1 & A2 & A3 & A4 & A5 & A6). repeat split; assumption.
Qed.

Lemma pushed_pointers_are_kept_in_order_witness :
  exists (a : bench_array_t) (w' : world),
    array_of [Some 7%positive; None; Some 3%positive] (start_world slow_clock always)
    = Done (true, a) w'
    /\ live_entries a = [Some 7%positive; None; Some 3%positive].
Proof.
  destruct (pushed_pointers_are_kept_in_order
              [Some 7%positive; None; Some 3%positive] (start_world slow_clock always))
    as (a & w' & Hrun & _ & Hlive & _).
  - reflexivity.
  - cbn. lia.
  - exists a, w'. split; [exact Hrun|exact Hlive].
Defined.

(** X2.  For a capacity of at least one slot whose size in bytes fits
    [size_t] (8 bytes a pointer), [bench_array_resize] succeeds exactly when
    the capacity asked for is not below the size and the allocator grants
    the buffer; it does not even ask the allocator for a capacity below the
    size; and whether it succeeds or not, the size and the entries in use are
    as before.  (A capacity of 0 is left out: what [realloc(p, 0)] does to
    the old buffer depends on the C library.) *)
Theorem resize_keeps_live_entries (a : bench_array_t) (c : Z) (w : world)
  (Hfits : 0 < c < 2 ^ 61)
  (Hlive : length (live_entries a) = Z.to_nat (size a)) :
  exists (ok : bool) (a' : bench_array_t) (w' : world),
    bench_array_resize a c w = Done (ok, a') w'
    /\ (ok = true <-> size a <= c /\ w_alloc w (w_allocs w) = true)
    /\ (c < size a -> w' = w)
    /\ (ok = false -> a' = a)
    /\ (ok = true ->
        capacity a' = c
        /\ exists buf', entries a' = Some buf' /\ length buf' = Z.to_nat c)
    /\ size a' = size a
    /\ live_entries a' = live_entries a.
Proof.
  unfold bench_array_resize. destruct (c <? size a) eqn:Hc.
  - apply Z.ltb_lt in Hc. exists false, a, w. split; [reflexivity|].
    split; [split; [discriminate|lia]|]. repeat split; try discriminate.
  - apply Z.ltb_ge in Hc. unfold bind at 1. cbn [allocate].
    destruct (w_alloc w (w_allocs w)) eqn:Ha; cbn [negb ret].
    + eexists true, _, _. split; [reflexivity|].
      split; [split; [intros _; split; [lia|reflexivity]|reflexivity]|].
      split; [lia|]. split; [discriminate|]. cbn [capacity entries size].
      split.
      { intros _. split; [reflexivity|]. eexists. split; [reflexivity|].
        unfold resized. destruct (entries a) as [buf|].
        - rewrite length_app, length_take, length_replicate. lia.
        - apply length_replicate. }
      split; [reflexivity|].
      unfold live_entries in *. cbn [entries size from_option id].
      unfold resized. destruct (entries a) as [buf|]; cbn [from_option id] in *.
      * rewrite length_take in Hlive.
        rewrite take_app_le by (rewrite length_take; lia).
        rewrite take_take. f_equal. lia.
      * rewrite take_nil in Hlive. cbn [length] in Hlive. rewrite <- Hlive. reflexivity.
    + exists false, a. eexists. split; [reflexivity|].
      split; [split; [discriminate|intros [_ H]; discriminate H]|].
      split; [lia|]. repeat split; discriminate.
Qed.

Lemma resize_keeps_live_entries_witness :
  exists (a' : bench_array_t) (w' : world),
    bench_array_resize fresh_array 32 (start_world slow_clock always) = Done (true, a') w'
    /\ capacity a' = 32 /\ live_entries a' = [].
Proof.
  destruct (resize_keeps_live_entries fresh_array 32 (start_world slow_clock always))
    as (ok & a' & w' & Hrun & Hok & _ & _ & Hcap & _ & Hlive).
  - lia.
  - reflexivity.
  - assert (ok = true) as -> by (apply Hok; split; [cbn; lia|reflexivity]).
    exists a', w'. split; [exact Hrun|]. split; [apply Hcap; reflexivity|exact Hlive].
Defined.

(** X3.  An array initialised with capacity 0 can never take a pointer:
    doubling 0 gives 0, so [bench_array_push] asks for a buffer of no slots,
    and either the allocator refuses and the push reports failure, or it
    grants the buffer and the push writes slot 0 of a buffer without
    slots. *)
Theorem zero_capacity_array_never_grows (w : world) (ptr : option addr) :
  exists (ok : bool) (a : bench_array_t) (w1 : world),
    bench_array_init 0 w = Done (ok, a) w1
    /\ ok = w_alloc w (w_allocs w)
    /\ size a = 0 /\ capacity a = 0
    /\ bench_array_push a ptr w1
       = if w_alloc w1 (w_allocs w1) then Undefined
         else Done (false, a) (set_allocs (S (w_allocs w1)) w1).
Proof.
  unfold bench_array_init, bench_array_resize. cbn [size].
  change (0 <? 0) with false. cbv iota. unfold bind at 1. cbn [allocate].
  destruct (w_alloc w (w_allocs w)) eqn:Ha; cbn [negb ret].
  - eexists true, _, _. split; [reflexivity|]. split; [reflexivity|].
    split; [reflexivity|]. split; [reflexivity|].
    unfold bench_array_push. cbn [size capacity entries].
    change (0 =? 0) with true. cbv iota. change (wrap64 (0 * 2)) with 0.
    unfold bench_array_resize. cbn [size]. change (0 <? 0) with false. cbv iota.
    unfold bind at 1. unfold bind at 1. cbn [allocate set_allocs w_alloc w_allocs].
    destruct (w_alloc w (S (w_allocs w))); reflexivity.
  - eexists false, _, _. split; [reflexivity|]. split; [reflexivity|].
    split; [reflexivity|]. split; [reflexivity|].
    unfold bench_array_push. cbn [size capacity entries].
    change (0 =? 0) with true. cbv iota. change (wrap64 (0 * 2)) with 0.
    unfold bench_array_resize. cbn [size]. change (0 <? 0) with false. cbv iota.
    unfold bind at 1. unfold bind at 1. cbn [allocate set_allocs w_alloc w_allocs].
    destruct (w_alloc w (S (w_allocs w))); reflexivity.
Qed.

(** X4.  On a well-formed array of fewer than 2^60 slots,
    [bench_array_push] asks the allocator only when the array is full.
    With room left it stores the pointer and leaves the world as it is; on a
    full array it doubles the capacity if the allocator agrees, and if the
    allocator refuses it reports failure and leaves the array untouched. *)
Theorem push_asks_allocator_only_when_full
  (a : bench_array_t) (ptr : option addr) (w : world)
  (Hok : array_ok a) (Hsmall : capacity a < 2 ^ 60) :
  (size a < capacity a ->
   exists a' : bench_array_t,
     bench_array_push a ptr w = Done (true, a') w
     /\ capacity a' = capacity a
     /\ live_entries a' = live_entries a ++ [ptr])
  /\ (size a = capacity a -> w_alloc w (w_allocs w) = false ->
      bench_array_push a ptr w = Done (false, a) (set_allocs (S (w_allocs w)) w))
  /\ (size a = capacity a -> w_alloc w (w_allocs w) = true ->
      exists a' : bench_array_t,
        bench_array_push a ptr w = Done (true, a') (set_allocs (S (w_allocs w)) w)
        /\ capacity a' = 2 * capacity a
        /\ live_entries a' = live_entries a ++ [ptr]).
Proof.
  pose proof Hok as (buf & Hbuf & Hlen & Hsize & Hcap & Hcap2).
  split; [|split].
  - intros Hroom.
    destruct (bench_array_push_stores a ptr w Hok (or_introl Hroom))
      as (a' & w' & buf' & Hpush & Hw' & _ & _ & Hcap' & _ & _ & Hlive').
    replace (size a =? capacity a) with false in Hw', Hcap'
      by (symmetry; apply Z.eqb_neq; lia).
    subst w'. exists a'. split; [exact Hpush|]. split; [exact Hcap'|exact Hlive'].
  - intros Hfull Halloc. unfold bench_array_push.
    replace (size a =? capacity a) with true by (symmetry; apply Z.eqb_eq; lia).
    unfold bind at 1. unfold bench_array_resize.
    replace (wrap64 (capacity a * 2)) with (capacity a * 2)
      by (unfold wrap64; symmetry; apply Z.mod_small; lia).
    ltb_false (capacity a * 2) (size a).
    unfold bind at 1. cbn [allocate]. rewrite Halloc. reflexivity.
  - intros Hfull Halloc.
    destruct (bench_array_push_stores a ptr w Hok (or_intror Halloc))
      as (a' & w' & buf' & Hpush & Hw' & _ & _ & Hcap' & _ & _ & Hlive').
    replace (size a =? capacity a) with true in Hw', Hcap'
      by (symmetry; apply Z.eqb_eq; lia).
    subst w'. exists a'. split; [exact Hpush|]. split; [exact Hcap'|exact Hlive'].
Qed.

Lemma push_asks_allocator_only_when_full_witness :
  exists a' : bench_array_t,
    bench_array_push fresh_array (Some 1%positive) (start_world slow_clock never)
    = Done (true, a') (start_world slow_clock never)
    /\ live_entries a' = [Some 1%positive].
Proof.
  destruct (push_asks_allocator_only_when_full fresh_array (Some 1%positive)
              (start_world slow_clock never) fresh_array_ok) as (Hroom & _ & _);
    [cbn; lia|].
  destruct Hroom as (a' & Hpush & _ & Hlive); [cbn; lia|].
  exists a'. split; [exact Hpush|exact Hlive].
Defined.


(** ** Throughput is a number *)

Lemma shr_fexp_nonneg (prec emax m e : Z) (l : location) :
  0 <= m -> 0 <= shr_m (shr_fexp prec emax m e l).1.
Proof.
  intros Hm. unfold shr_fexp, shr.
  assert (H0 : shr_m (shr_record_of_loc m l) = m) by (destruct l as [|[]]; reflexivity).
  destruct (fexp prec emax (Zdigits2 m + e) - e) as [|p|p]; cbn [fst]; try lia.
  rewrite shr_iter_m by lia. rewrite H0.
  apply Z.div_pos; [lia|]. apply Z.pow_pos_nonneg; lia.
Qed.

Lemma round_nearest_even_nonneg (m : Z) (l : location) :
  0 <= m -> 0 <= round_nearest_even m l.
Proof.
  intros Hm. destruct l as [|[]]; cbn [round_nearest_even]; try lia.
  destruct (Z.even m); lia.
Qed.

(** Rounding a non-negative mantissa gives a zero, a finite float or an
    infinity, never a NaN. *)
Lemma round_aux_not_nan (prec emax : Z) (s : bool) (m e : Z) (l : location) :
  0 <= m -> is_nan (binary_round_aux prec emax s m e l) = false.
Proof.
  intros Hm. unfold binary_round_aux.
  pose proof (shr_fexp_nonneg prec emax m e l Hm) as H1.
  destruct (shr_fexp prec emax m e l) as [mrs' e']. cbn [fst] in H1.
  pose proof (shr_fexp_nonneg prec emax
                (round_nearest_even (shr_m mrs') (loc_of_shr_record mrs')) e' loc_Exact
                (round_nearest_even_nonneg _ _ H1)) as H2.
  destruct (shr_fexp prec emax _ e' loc_Exact) as [mrs'' e'']. cbn [fst] in H2.
  destruct (shr_m mrs'') as [|p|p]; [reflexivity| |lia].
  destruct (e'' <=? emax - prec); reflexivity.
Qed.

Lemma f32_of_Z_not_nan (z : Z) : is_nan (f32_of_Z z) = false.
Proof.
  unfold f32_of_Z, binary_normalize. destruct z as [|p|p]; [reflexivity| |];
    unfold binary_round; destruct (shl_align _ _ _) as [mz ez];
    apply round_aux_not_nan; lia.
Qed.

(** Dividing a number by a finite non-zero float, or multiplying it with one,
    gives a number. *)
Lemma div_not_nan (x y : float) :
  is_nan x = false -> nonzero_finite y = true ->
  is_nan (SFdiv f32_prec f32_emax x y) = false.
Proof.
  intros Hx Hy. destruct y as [sy|sy| |sy my ey]; try discriminate Hy.
  destruct x as [sx|sx| |sx mx ex]; try discriminate Hx; try reflexivity.
  unfold SFdiv, SFdiv_core_binary.
  rewrite div_eucl_pair. apply round_aux_not_nan.
  apply Z.div_pos; [|lia].
  destruct (ex - ey - _) as [|p|p]; [lia| |lia].
  rewrite Z.shiftl_mul_pow2 by lia.
  apply Z.mul_nonneg_nonneg; [lia|]. apply Z.pow_nonneg. lia.
Qed.

Lemma mul_not_nan (x y : float) :
  is_nan x = false -> nonzero_finite y = true ->
  is_nan (SFmul f32_prec f32_emax x y) = false.
Proof.
  intros Hx Hy. destruct y as [sy|sy| |sy my ey]; try discriminate Hy.
  destruct x as [sx|sx| |sx mx ex]; try discriminate Hx; try reflexivity.
  unfold SFmul. apply round_aux_not_nan. lia.
Qed.

Lemma throughput_not_nan (s : bench_stats_t float) :
  0 < total s < 2 ^ 64 -> is_nan (bench_stats_ops_per_sec s) = false.
Proof.
  intros Ht. unfold bench_stats_ops_per_sec. cbn [of_Z fmul fdiv binary32].
  repeat (apply mul_not_nan; [|vm_compute; reflexivity]).
  apply div_not_nan; [apply f32_of_Z_not_nan|].
  apply f32_of_Z_nonzero_finite. exact Ht.
Qed.

(** X5.  In binary32, [bench_stats_ops_per_sec] is a number (not a NaN)
    whenever [total] is not zero, whatever [count] is; with [total = 0] it is
    a NaN for [count = 0] and plus infinity for any other [count]. *)
Theorem throughput_is_a_number_unless_nothing_was_measured :
  (forall s : bench_stats_t float,
      0 < total s < 2 ^ 64 -> is_nan (bench_stats_ops_per_sec s) = false)
  /\ (forall s : bench_stats_t float,
         total s = 0 -> count s = 0 -> is_nan (bench_stats_ops_per_sec s) = true)
  /\ (forall s : bench_stats_t float,
         total s = 0 -> 0 < count s < 2 ^ 32 ->
         bench_stats_ops_per_sec s = S754_infinity false).
Proof.
  split; [exact throughput_not_nan|]. split.
  - intros s Ht Hc. unfold bench_stats_ops_per_sec. rewrite Ht, Hc. reflexivity.
  - intros s Ht Hc. unfold bench_stats_ops_per_sec. rewrite Ht.
    cbn [of_Z fmul fdiv binary32].
    destruct (f32_of_Z_normal (count s)) as (m & e & -> & _); [lia|].
    reflexivity.
Qed.

Lemma throughput_is_a_number_unless_nothing_was_measured_witness :
  is_nan (bench_stats_ops_per_sec (mk_stats 3 1500000000 (f32_of_Z 500000000) (f32_of_Z 0)))
  = false.
Proof.
  destruct throughput_is_a_number_unless_nothing_was_measured as (H & _ & _).
  apply H. cbn. lia.
Defined.


(** ** The sampling loop as a function of the clock *)

Lemma measured_shift (clock : nat -> Z) (t k : nat) :
  measured clock t (S k) = measured clock (S (S t)) k.
Proof.
  unfold measured.
  replace (t + 2 * S k)%nat with (S (S t) + 2 * k)%nat by lia. reflexivity.
Qed.

Lemma samples_S (clock : nat -> Z) (t n : nat) :
  samples clock t (S n) = measured clock t 0 :: samples clock (S (S t)) n.
Proof.
  unfold samples. cbn [seq fmap list_fmap]. f_equal.
  generalize 0%nat. induction n as [|n IH]; intros j; [reflexivity|].
  cbn [seq fmap list_fmap]. rewrite measured_shift. f_equal. apply IH.
Qed.

Lemma samples_snoc (clock : nat -> Z) (t n : nat) :
  samples clock t (S n) = samples clock t n ++ [measured clock t n].
Proof. unfold samples. rewrite seq_S, fmap_app. reflexivity. Qed.

Lemma loop_iteration_measured (a : addr) (ms : bench_measurement_t) (w : world) :
  loop_iteration a ms w
  = set_heap (<[a := {| m_name := m_name ms;
                        stats := bench_stats_push (stats ms)
                                   (measured (w_clock w) (w_ticks w) 0) |}]> (w_heap w))
             (set_ticks (S (S (w_ticks w))) w).
Proof. unfold loop_iteration, measured. rewrite Nat.mul_0_r, Nat.add_0_r. reflexivity. Qed.

(** The loop makes [n] passes when the total stays below the target during
    the first [n - 1] and reaches it with the [n]-th. *)
Lemma sampling_loop_run (n : nat) : forall (a : addr) (target : Z) (w : world)
  (ms : bench_measurement_t) (fuel : nat),
  w_heap w !! a = Some ms ->
  (forall k, (k < n)%nat ->
     total (fold_left bench_stats_push (samples (w_clock w) (w_ticks w) k) (stats ms))
     < target) ->
  target <= total (fold_left bench_stats_push (samples (w_clock w) (w_ticks w) n) (stats ms)) ->
  sampling_loop (S n + fuel) a target w = Done tt (after_sampling a ms n w).
Proof.
  induction n as [|n IH]; intros a target w ms fuel Hh Hbelow Hreach.
  - cbn [samples seq fmap list_fmap fold_left] in Hreach.
    rewrite (sampling_loop_exit _ _ _ _ ms Hh Hreach). f_equal.
    unfold after_sampling, samples. cbn [seq fmap list_fmap fold_left].
    replace {| m_name := m_name ms; stats := stats ms |} with ms by (destruct ms; reflexivity).
    rewrite insert_id by exact Hh. rewrite Nat.add_0_r.
    destruct w; reflexivity.
  - change (S (S n) + fuel)%nat with (S (S n + fuel)).
    rewrite (sampling_loop_step _ _ _ _ ms Hh).
    2:{ apply (Hbelow 0%nat). lia. }
    rewrite loop_iteration_measured.
    set (ms1 := {| m_name := m_name ms;
                   stats := bench_stats_push (stats ms)
                              (measured (w_clock w) (w_ticks w) 0) |}).
    rewrite (IH a target _ ms1 fuel).
    + f_equal. unfold after_sampling.
      cbn [set_heap set_ticks w_heap w_ticks w_clock w_output w_alloc w_allocs w_next].
      rewrite insert_insert_eq. rewrite samples_S. cbn [fold_left m_name stats ms1].
      replace (S (S (w_ticks w)) + 2 * n)%nat with (w_ticks w + 2 * S n)%nat by lia.
      reflexivity.
    + cbn [set_heap w_heap]. apply lookup_insert_eq.
    + intros k Hk. cbn [set_heap set_ticks w_clock w_ticks stats ms1].
      specialize (Hbelow (S k)). rewrite samples_S in Hbelow. apply Hbelow. lia.
    + cbn [set_heap set_ticks w_clock w_ticks stats ms1].
      rewrite samples_S in Hreach. exact Hreach.
Qed.

(** The loop needs all of its [n + 1] tests: with less fuel it has not
    finished. *)
Lemma sampling_loop_unfinished (n : nat) : forall (a : addr) (target : Z) (w : world)
  (ms : bench_measurement_t) (fuel : nat),
  w_heap w !! a = Some ms ->
  (forall k, (k < n)%nat ->
     total (fold_left bench_stats_push (samples (w_clock w) (w_ticks w) k) (stats ms))
     < target) ->
  (fuel <= n)%nat ->
  sampling_loop fuel a target w = OutOfFuel.
Proof.
  induction n as [|n IH]; intros a target w ms fuel Hh Hbelow Hfuel.
  - replace fuel with 0%nat by lia. reflexivity.
  - destruct fuel as [|fuel]; [reflexivity|].
    rewrite (sampling_loop_step _ _ _ _ ms Hh).
    2:{ apply (Hbelow 0%nat). lia. }
    rewrite loop_iteration_measured.
    set (ms1 := {| m_name := m_name ms;
                   stats := bench_stats_push (stats ms)
                              (measured (w_clock w) (w_ticks w) 0) |}).
    apply (IH a target _ ms1).
    + cbn [set_heap w_heap]. apply lookup_insert_eq.
    + intros k Hk. cbn [set_heap set_ticks w_clock w_ticks stats ms1].
      specialize (Hbelow (S k)). rewrite samples_S in Hbelow. apply Hbelow. lia.
    + lia.
Qed.

(** *** The running total *)

Lemma wrap64_add_l a b : wrap64 (wrap64 a + b) = wrap64 (a + b).
Proof. unfold wrap64. apply Zplus_mod_idemp_l. Qed.

Lemma wrap64_small z : 0 <= z < 2 ^ 64 -> wrap64 z = z.
Proof. intros Hz. unfold wrap64. apply Z.mod_small. exact Hz. Qed.

Lemma sum_Z_app (l1 l2 : list Z) : sum_Z (l1 ++ l2) = sum_Z l1 + sum_Z l2.
Proof.
  unfold sum_Z. induction l1 as [|x l1 IH]; cbn [foldr app]; [reflexivity|].
  rewrite IH. lia.
Qed.

Lemma fold_push_total {F} `{FloatOps F} (l : list Z) : forall s : bench_stats_t F,
  0 <= total s < 2 ^ 64 ->
  total (fold_left bench_stats_push l s) = wrap64 (total s + sum_Z l).
Proof.
  induction l as [|d l IH]; intros s Hs; cbn [fold_left sum_Z foldr].
  - rewrite Z.add_0_r. symmetry. apply wrap64_small. exact Hs.
  - rewrite IH by (cbn [bench_stats_push total]; apply wrap64_range).
    cbn [bench_stats_push total]. fold (sum_Z l).
    rewrite wrap64_add_l. apply (f_equal wrap64). lia.
Qed.

Lemma measured_ticking (clock : nat -> Z) (t k : nat) :
  ticking clock -> 1 <= measured clock t k <= 2 ^ 63.
Proof.
  intros Hc. unfold measured, wrap64.
  rewrite <- Zminus_mod. apply Hc.
Qed.

Lemma sum_samples_S (clock : nat -> Z) (t n : nat) :
  sum_Z (samples clock t (S n)) = sum_Z (samples clock t n) + measured clock t n.
Proof.
  rewrite samples_snoc, sum_Z_app. unfold sum_Z at 2. cbn [foldr]. lia.
Qed.

(** A sequence that grows by at least one at every step passes any bound, and
    there is a first index at which it has. *)
Lemma first_reach (f : nat -> Z) (T : Z) (r : nat) : forall j : nat,
  f j < T -> T - f j <= Z.of_nat r -> (forall k, f k + 1 <= f (S k)) ->
  exists n : nat,
    (j < n <= j + r)%nat /\ (forall k, (j <= k < n)%nat -> f k < T) /\ T <= f n.
Proof.
  induction r as [|r IH]; intros j Hj Hr Hstep; [lia|].
  destruct (Z.lt_ge_cases (f (S j)) T) as [Hlt|Hge].
  - destruct (IH (S j) Hlt) as (n & Hn & Hbelow & Hreach).
    { specialize (Hstep j). lia. }
    { exact Hstep. }
    exists n. split; [lia|]. split; [|exact Hreach].
    intros k Hk. destruct (Nat.eq_dec k j) as [->|Hne]; [exact Hj|].
    apply Hbelow. lia.
  - exists (S j). split; [lia|]. split; [|exact Hge].
    intros k Hk. replace k with j by lia. exact Hj.
Qed.

(** With a ticking clock the durations add up, without wrapping, until they
    reach the target, and they do so within [target] passes. *)
Lemma samples_reach (clock : nat -> Z) (t : nat) (t0 target : Z) :
  ticking clock -> 0 <= t0 < target -> target <= 2 ^ 63 ->
  exists n : nat,
    (1 <= n)%nat /\ Z.of_nat n <= target - t0
    /\ (forall k, (k < n)%nat -> t0 + sum_Z (samples clock t k) < target)
    /\ target <= t0 + sum_Z (samples clock t n)
    /\ t0 + sum_Z (samples clock t n) < target + 2 ^ 63.
Proof.
  intros Hc Ht0 Htarget.
  destruct (first_reach (fun k => t0 + sum_Z (samples clock t k)) target
              (Z.to_nat (target - t0)) 0%nat) as (n & Hn & Hbelow & Hreach).
  - cbn. lia.
  - cbn. lia.
  - intros k. rewrite sum_samples_S. pose proof (measured_ticking clock t k Hc). lia.
  - exists n. split; [lia|]. split; [lia|].
    split; [intros k Hk; apply Hbelow; lia|]. split; [exact Hreach|].
    destruct n as [|n]; [lia|]. cbv beta in *.
    rewrite sum_samples_S. pose proof (measured_ticking clock t n Hc).
    specialize (Hbelow n). lia.
Qed.

Lemma sum_samples_nonneg (clock : nat -> Z) (t k : nat) :
  ticking clock -> 0 <= sum_Z (samples clock t k).
Proof.
  intros Hc. induction k as [|k IH]; [cbn; lia|].
  rewrite sum_samples_S. pose proof (measured_ticking clock t k Hc). lia.
Qed.

Lemma sampling_loop_reaches
  (a : addr) (target : Z) (w : world) (ms : bench_measurement_t) :
  ticking (w_clock w) ->
  w_heap w !! a = Some ms ->
  0 <= total (stats ms) < target ->
  target <= 2 ^ 63 ->
  exists n : nat,
    (1 <= n)%nat /\ Z.of_nat n <= target - total (stats ms)
    /\ (forall fuel, (fuel <= n)%nat -> sampling_loop fuel a target w = OutOfFuel)
    /\ (forall fuel, (n < fuel)%nat ->
          sampling_loop fuel a target w = Done tt (after_sampling a ms n w))
    /\ (forall k, (k <= n)%nat ->
          total (fold_left bench_stats_push (samples (w_clock w) (w_ticks w) k) (stats ms))
          = total (stats ms) + sum_Z (samples (w_clock w) (w_ticks w) k))
    /\ (forall k, (k < n)%nat ->
          total (stats ms) + sum_Z (samples (w_clock w) (w_ticks w) k) < target)
    /\ target <= total (stats ms) + sum_Z (samples (w_clock w) (w_ticks w) n)
    /\ total (stats ms) + sum_Z (samples (w_clock w) (w_ticks w) n) < 2 ^ 64.
Proof.
  intros Hclock Hh Htotal Htarget.
  destruct (samples_reach (w_clock w) (w_ticks w) (total (stats ms)) target Hclock Htotal Htarget)
    as (n & Hn & Hle & Hbelow & Hreach & Hmax).
  assert (Hk : forall k, (k <= n)%nat ->
            total (fold_left bench_stats_push (samples (w_clock w) (w_ticks w) k) (stats ms))
            = total (stats ms) + sum_Z (samples (w_clock w) (w_ticks w) k)).
  { intros k Hk. rewrite fold_push_total by lia. apply wrap64_small.
    pose proof (sum_samples_nonneg (w_clock w) (w_ticks w) k Hclock).
    destruct (Nat.eq_dec k n) as [->|Hne]; [lia|].
    specialize (Hbelow k). lia. }
  exists n. split; [exact Hn|]. split; [exact Hle|].
  split.
  { intros fuel Hfuel. apply (sampling_loop_unfinished n a target w ms); try assumption.
    intros k Hlt. rewrite Hk by lia. apply Hbelow. exact Hlt. }
  split.
  { intros fuel Hfuel. replace fuel with (S n + (fuel - S n))%nat by lia.
    apply sampling_loop_run; try assumption.
    - intros k Hlt. rewrite Hk by lia. apply Hbelow. exact Hlt.
    - rewrite Hk by lia. exact Hreach. }
  split; [exact Hk|]. split; [exact Hbelow|]. split; [exact Hreach|]. lia.
Qed.

Lemma slow_clock_ticking : ticking slow_clock.
Proof.
  intros k. unfold slow_clock.
  replace (Z.of_nat (S k) * 2000000000 - Z.of_nat k * 2000000000) with 2000000000 by lia.
  change (wrap64 2000000000) with 2000000000. lia.
Qed.

(** X6.  With a clock that moves on between any two readings, the sampling
    loop ends: it makes exactly [n] passes, [n] being the first number of
    measured durations whose sum, added to the total so far, reaches the
    target; [n] is at least 1 and at most the time still missing in
    nanoseconds, the total has not wrapped around, and the statistics are
    those of the durations pushed in order. *)
Theorem sampling_stops_when_target_reached
  (a : addr) (target : Z) (w : world) (ms : bench_measurement_t)
  (Hclock : ticking (w_clock w))
  (Hh : w_heap w !! a = Some ms)
  (Htotal : 0 <= total (stats ms) < target)
  (Htarget : target <= 2 ^ 63) :
  exists n : nat,
    (1 <= n)%nat /\ Z.of_nat n <= target - total (stats ms)
    /\ (forall fuel, (fuel <= n)%nat -> sampling_loop fuel a target w = OutOfFuel)
    /\ (forall fuel, (n < fuel)%nat ->
          sampling_loop fuel a target w = Done tt (after_sampling a ms n w))
    /\ w_heap (after_sampling a ms n w) !! a
       = Some {| m_name := m_name ms;
                 stats := fold_left bench_stats_push
                            (samples (w_clock w) (w_ticks w) n) (stats ms) |}
    /\ total (fold_left bench_stats_push (samples (w_clock w) (w_ticks w) n) (stats ms))
       = total (stats ms) + sum_Z (samples (w_clock w) (w_ticks w) n)
    /\ (forall k, (k < n)%nat ->
          total (stats ms) + sum_Z (samples (w_clock w) (w_ticks w) k) < target)
    /\ target <= total (stats ms) + sum_Z (samples (w_clock w) (w_ticks w) n).
Proof.
  destruct (sampling_loop_reaches a target w ms Hclock Hh Htotal Htarget)
    as (n & Hn & Hle & Hfew & Hmany & Hk & Hbelow & Hreach & _).
  exists n. split; [exact Hn|]. split; [exact Hle|]. split; [exact Hfew|].
  split; [exact Hmany|].
  split; [unfold after_sampling; cbn [set_heap w_heap]; apply lookup_insert_eq|].
  split; [apply Hk; lia|]. split; assumption.
Qed.

Lemma sampling_stops_when_target_reached_witness :
  exists n : nat,
    (1 <= n)%nat
    /\ sampling_loop (S n) 1%positive SECONDS
         (measure_started (fresh_suite SECONDS) "slow" (start_world slow_clock always))
       = Done tt (after_sampling 1%positive
                    {| m_name := Some "slow"; stats := bench_stats_init |} n
                    (measure_started (fresh_suite SECONDS) "slow"
                                     (start_world slow_clock always))).
Proof.
  destruct (sampling_stops_when_target_reached 1%positive SECONDS
              (measure_started (fresh_suite SECONDS) "slow" (start_world slow_clock always))
              {| m_name := Some "slow"; stats := bench_stats_init |})
    as (n & Hn & _ & _ & Hrun & _).
  - exact slow_clock_ticking.
  - reflexivity.
  - vm_compute. split; [discriminate|reflexivity].
  - vm_compute. discriminate.
  - exists n. split; [exact Hn|]. apply Hrun. lia.
Defined.


(** ** [bench_measure] from start to finish *)

(** [bench_measure] up to the sampling loop when the measurement can be
    allocated and the array has, or is given, room for it. *)
Lemma bench_measure_begin (b : bench_t) (name : string) (w : world) :
  array_ok (measurements b) ->
  w_alloc w (w_allocs w) = true ->
  size (measurements b) < capacity (measurements b)
  \/ w_alloc w (S (S (w_allocs w))) = true ->
  exists (array : bench_array_t) (buf : list (option addr)),
    (forall fuel : nat,
        bench_measure fuel b name w
        = (sampling_loop fuel (w_next w) (target_time b) ;;;
           report_measurement (with_measurements b array) (w_next w))
            (measure_started b name w))
    /\ size array = size (measurements b) + 1
    /\ capacity array
       = (if size (measurements b) =? capacity (measurements b)
          then 2 * capacity (measurements b) else capacity (measurements b))
    /\ entries array = Some buf
    /\ length buf = Z.to_nat (capacity array)
    /\ live_entries array = live_entries (measurements b) ++ [Some (w_next w)].
Proof.
  intros Hok Halloc Hroom.
  set (W := mk_world (w_output w ++ replicate (Z.to_nat (indent b)) (out b, " ")
                                 ++ [(out b, name +:+ " - ")])
                     (w_clock w) (w_ticks w) (w_alloc w) (2 + w_allocs w)
                     (<[w_next w := {| m_name := if w_alloc w (S (w_allocs w))
                                                 then Some name else None;
                                       stats := bench_stats_init |}]> (w_heap w))
                     (Pos.succ (w_next w))).
  destruct (bench_array_push_stores (measurements b) (Some (w_next w)) W Hok)
    as (array & w' & buf & Hpush & Hw' & _ & Hsize & Hcap & Hbuf & Hlen & Hlive).
  { exact Hroom. }
  exists array, buf. split; [|repeat split; assumption].
  intros fuel. unfold bench_measure.
  rewrite (bind_run _ _ _ _ _ (print_indent_run b w)).
  rewrite bind_fprintf.
  unfold malloc, bench_measurement_init, strdup.
  unfold bind at 1. unfold bind at 1. cbn [allocate add_output set_allocs w_alloc w_allocs].
  rewrite Halloc. cbn [set_next w_next w_alloc w_allocs].
  unfold bind at 1. unfold bind at 1. unfold bind at 1.
  cbn [allocate ret store set_allocs set_heap w_alloc w_allocs w_heap w_next
       w_output w_clock w_ticks].
  match goal with
  | |- _ ?W' = _ =>
      assert (HW : W' = W)
        by (unfold W, add_output, set_heap, set_next, set_allocs; cbn;
            rewrite <- app_assoc; reflexivity);
      rewrite HW
  end.
  change (w_next (add_output _ (add_output _ w))) with (w_next w).
  rewrite (bind_run _ _ _ _ _ Hpush).
  unfold bind at 1. cbn [bench_now]. rewrite Hw'. unfold measure_started.
  destruct (size (measurements b) =? capacity (measurements b)); reflexivity.
Qed.

(** A whole call of [bench_measure] when the measurement can be allocated,
    the array has or is given room for it, and the clock ticks. *)
Lemma bench_measure_run (b : bench_t) (name : string) (w : world) :
  array_ok (measurements b) ->
  w_alloc w (w_allocs w) = true ->
  size (measurements b) < capacity (measurements b)
  \/ w_alloc w (S (S (w_allocs w))) = true ->
  ticking (w_clock w) ->
  1 <= target_time b <= 2 ^ 63 ->
  exists (n : nat) (array : bench_array_t) (buf : list (option addr)),
    (1 <= n)%nat /\ Z.of_nat n <= target_time b
    /\ (forall fuel, (fuel <= n)%nat -> bench_measure fuel b name w = OutOfFuel)
    /\ (forall fuel, (n < fuel)%nat ->
          bench_measure fuel b name w
          = Done (0, with_measurements b array) (after_measure b name n w))
    /\ size array = size (measurements b) + 1
    /\ capacity array
       = (if size (measurements b) =? capacity (measurements b)
          then 2 * capacity (measurements b) else capacity (measurements b))
    /\ entries array = Some buf
    /\ length buf = Z.to_nat (capacity array)
    /\ live_entries array = live_entries (measurements b) ++ [Some (w_next w)]
    /\ total (push_all (F := float) (samples (w_clock w) (S (w_ticks w)) n))
       = sum_Z (samples (w_clock w) (S (w_ticks w)) n)
    /\ (forall k, (k < n)%nat ->
          sum_Z (samples (w_clock w) (S (w_ticks w)) k) < target_time b)
    /\ target_time b <= sum_Z (samples (w_clock w) (S (w_ticks w)) n)
    /\ sum_Z (samples (w_clock w) (S (w_ticks w)) n) < 2 ^ 64.
Proof.
  intros Hok Halloc Hroom Hclock Htarget.
  destruct (bench_measure_begin b name w Hok Halloc Hroom)
    as (array & buf & Hrun & Hsize & Hcap & Hbuf & Hlen & Hlive).
  set (m0 := {| m_name := if w_alloc w (S (w_allocs w)) then Some name else None;
                stats := bench_stats_init (F := float) |}).
  assert (Hh : w_heap (measure_started b name w) !! w_next w = Some m0).
  { cbn [measure_started w_heap]. apply lookup_insert_eq. }
  destruct (sampling_loop_reaches (w_next w) (target_time b) (measure_started b name w) m0)
    as (n & Hn & Hle & Hfew & Hmany & Hk & Hbelow & Hreach & Hmax); try assumption.
  { cbn. lia. }
  { lia. }
  specialize (Hk n (Nat.le_refl n)).
  cbn [measure_started w_clock w_ticks m0 stats] in Hk, Hbelow, Hreach, Hmax.
  change (total bench_stats_init) with 0 in Hk, Hbelow, Hreach, Hmax.
  rewrite Z.add_0_l in Hk, Hreach, Hmax.
  fold (push_all (F := float) (samples (w_clock w) (S (w_ticks w)) n)) in Hk.
  exists n, array, buf. split; [exact Hn|]. split; [cbn in Hle; lia|].
  split.
  { intros fuel Hfuel. rewrite Hrun. unfold bind at 1. rewrite Hfew by exact Hfuel.
    reflexivity. }
  split.
  { intros fuel Hfuel. rewrite Hrun. unfold bind at 1. rewrite Hmany by exact Hfuel.
    erewrite report_measurement_run.
    2:{ unfold after_sampling. cbn [set_heap w_heap]. apply lookup_insert_eq. }
    f_equal. unfold after_measure, after_sampling, measure_started, add_output.
    cbn [set_heap set_ticks w_output w_clock w_ticks w_alloc w_allocs w_heap w_next
         with_measurements out m_name stats m0].
    rewrite insert_insert_eq. rewrite <- !app_assoc. cbn [app].
    fold (push_all (F := float) (samples (w_clock w) (S (w_ticks w)) n)).
    f_equal. lia. }
  split; [exact Hsize|]. split; [exact Hcap|]. split; [exact Hbuf|].
  split; [exact Hlen|]. split; [exact Hlive|].
  split; [exact Hk|].
  split; [intros k Hlt; specialize (Hbelow k Hlt); lia|].
  split; [exact Hreach|exact Hmax].
Qed.

Lemma text_for_other (f g : FILE) (l : list (FILE * string)) :
  f <> g -> Forall (fun p => p.1 = g) l -> text_for f l = "".
Proof.
  intros Hne Hl. induction Hl as [|p l Hp _ IH]; [reflexivity|].
  cbn [text_for foldr]. fold (text_for f l). rewrite IH.
  destruct (decide (p.1 = f)) as [E|E]; [congruence|reflexivity].
Qed.

Lemma after_measure_contents (b : bench_t) (nm : string) (n : nat) (w : world) :
  contents (out b) (after_measure b nm n w)
  = contents (out b) w +:+ spaces (Z.to_nat (indent b)) +:+ nm +:+ " - "
    +:+ bench_stats_print (push_all (samples (w_clock w) (S (w_ticks w)) n)) +:+ "
".
Proof.
  unfold contents, after_measure. cbn [w_output].
  rewrite !text_for_app, text_for_indent, !text_for_cons. cbn [text_for foldr].
  rewrite ?string_app_nil_r, ?string_app_assoc. reflexivity.
Qed.

(** X7.  With an allocator that grants every request and a ticking clock,
    [bench_measure] on a well-formed suite (of fewer than 2^60 slots) with a
    target between one nanosecond and 2^63 returns 0 after exactly [n >= 1] passes of its loop,
    [n] being the first number of measured durations whose sum reaches the
    target.  The measurement it leaves at the fresh address carries the name
    and the statistics of exactly these durations, its pointer is the new
    last entry of the suite, and the sink of the suite has gained the
    summary line (and nothing else). *)
Theorem bench_measure_records_the_samples
  (b : bench_t) (nm : string) (w : world)
  (Hok : array_ok (measurements b))
  (Hsmall : capacity (measurements b) < 2 ^ 60)
  (Halloc : forall k, w_alloc w k = true)
  (Hclock : ticking (w_clock w))
  (Htarget : 1 <= target_time b <= 2 ^ 63) :
  exists (n : nat) (b' : bench_t) (w' : world),
    let durations := samples (w_clock w) (S (w_ticks w)) n in
    (1 <= n)%nat /\ Z.of_nat n <= target_time b
    /\ (forall fuel, (fuel <= n)%nat -> bench_measure fuel b nm w = OutOfFuel)
    /\ (forall fuel, (n < fuel)%nat -> bench_measure fuel b nm w = Done (0, b') w')
    /\ (forall k, (k < n)%nat ->
          sum_Z (samples (w_clock w) (S (w_ticks w)) k) < target_time b)
    /\ target_time b <= sum_Z durations
    /\ total (push_all (F := float) durations) = sum_Z durations
    /\ w_heap w' = <[w_next w := {| m_name := Some nm; stats := push_all durations |}]>
                     (w_heap w)
    /\ live_entries (measurements b')
       = live_entries (measurements b) ++ [Some (w_next w)]
    /\ (name b', out b', indent b', data b', target_time b')
       = (name b, out b, indent b, data b, target_time b)
    /\ contents (out b) w'
       = contents (out b) w +:+ spaces (Z.to_nat (indent b)) +:+ nm +:+ " - "
         +:+ bench_stats_print (push_all durations) +:+ "
"
    /\ (forall f, f <> out b -> contents f w' = contents f w)
    /\ w_ticks w' = (w_ticks w + 1 + 2 * n)%nat.
Proof.
  destruct (bench_measure_run b nm w Hok (Halloc _) (or_intror (Halloc _)) Hclock Htarget)
    as (n & array & buf & Hn & Hle & Hfew & Hmany & _ & _ & _ & _ & Hlive
        & Htot & Hbelow & Hreach & _).
  exists n, (with_measurements b array), (after_measure b nm n w). cbv zeta.
  split; [exact Hn|]. split; [exact Hle|]. split; [exact Hfew|]. split; [exact Hmany|].
  split; [exact Hbelow|]. split; [exact Hreach|]. split; [exact Htot|].
  split; [unfold after_measure; cbn [w_heap]; rewrite Halloc; reflexivity|].
  split; [exact Hlive|]. split; [reflexivity|].
  split; [apply after_measure_contents|].
  split; [|reflexivity].
  intros f Hf. unfold contents, after_measure. cbn [w_output].
  rewrite text_for_app.
  match goal with
  | |- _ +:+ text_for f ?l = _ => rewrite (text_for_other f (out b) l)
  end; [apply string_app_nil_r|exact Hf|].
  rewrite Forall_app. split; [apply Forall_replicate; reflexivity|repeat constructor].
Qed.

Lemma bench_measure_records_the_samples_witness :
  exists (n : nat) (b' : bench_t) (w' : world),
    (1 <= n)%nat
    /\ bench_measure (S n) (fresh_suite SECONDS) "slow" (start_world slow_clock always)
       = Done (0, b') w'
    /\ live_entries (measurements b') = [Some 1%positive].
Proof.
  destruct (bench_measure_records_the_samples (fresh_suite SECONDS) "slow"
              (start_world slow_clock always))
    as (n & b' & w' & Hn & _ & _ & Hrun & _ & _ & _ & _ & Hlive & _).
  - exact fresh_array_ok.
  - cbn. lia.
  - reflexivity.
  - exact slow_clock_ticking.
  - vm_compute. split; discriminate.
  - exists n, b', w'. split; [exact Hn|]. split; [apply Hrun; lia|exact Hlive].
Defined.

(** *** A clock that stands still *)

Lemma sum_Z_zeros (l : list Z) : Forall (fun d => d = 0) l -> sum_Z l = 0.
Proof.
  induction 1 as [|d l Hd _ IH]; [reflexivity|].
  unfold sum_Z in *. cbn [foldr]. lia.
Qed.

Lemma samples_frozen (clock : nat -> Z) (t n : nat) :
  (forall k, (t <= k)%nat -> wrap64 (clock (S k) - clock k) = 0) ->
  Forall (fun d => d = 0) (samples clock t n).
Proof.
  intros Hc. unfold samples. apply Forall_fmap, Forall_forall. intros k _.
  cbn. unfold measured, wrap64. rewrite <- Zminus_mod. apply Hc. lia.
Qed.

(** X8.  If the clock does not move (every two consecutive readings are
    equal modulo 2^64), [bench_measure] on a well-formed suite with a target
    of at least a nanosecond never returns: whatever number of passes it is allowed, it is
    still in its loop. *)
Theorem frozen_clock_never_finishes
  (fuel : nat) (b : bench_t) (name : string) (w : world)
  (Hok : array_ok (measurements b))
  (Hsmall : capacity (measurements b) < 2 ^ 60)
  (Halloc : w_alloc w (w_allocs w) = true)
  (Hfrozen : forall k, (w_ticks w <= k)%nat -> wrap64 (w_clock w (S k) - w_clock w k) = 0)
  (Htarget : 1 <= target_time b) :
  bench_measure fuel b name w = OutOfFuel.
Proof.
  destruct (bench_measure_start fuel b name w Hok Halloc)
    as (array & pushed & w1 & Heq & _ & _ & _ & Hclock & Hticks & _ & Hheap & _).
  rewrite Heq. unfold bind at 1.
  erewrite (sampling_loop_unfinished fuel); [reflexivity| | |reflexivity].
  - rewrite Hheap. apply lookup_insert_eq.
  - intros k _. cbn [stats]. rewrite fold_push_total by (cbn; lia).
    rewrite sum_Z_zeros.
    + change (wrap64 (total (bench_stats_init (F := float)) + 0)) with 0. lia.
    + apply samples_frozen. intros j Hj. rewrite Hclock. apply Hfrozen. lia.
Qed.

Lemma frozen_clock_never_finishes_witness :
  bench_measure 1000 (fresh_suite SECONDS) "idle" (start_world still_clock always)
  = OutOfFuel.
Proof.
  apply frozen_clock_never_finishes.
  - exact fresh_array_ok.
  - cbn. lia.
  - reflexivity.
  - intros k _. reflexivity.
  - vm_compute. discriminate.
Defined.


(** ** What [bench_compare] writes and frees *)

Lemma compare_entry_sink (b : bench_t) (first : option (bench_stats_t float))
  (entry : option addr) (w w1 : world) (r : option (bench_stats_t float)) :
  compare_entry b first entry w = Done r w1 ->
  exists chunks : list (FILE * string),
    w1 = add_output chunks w /\ Forall (fun p => p.1 = out b) chunks.
Proof.
  unfold compare_entry. destruct entry as [a|]; [|discriminate].
  unfold bind at 1. unfold load. destruct (w_heap w !! a) as [m|]; [|discriminate].
  erewrite bind_run by apply print_indent_run.
  destruct first as [f|]; destruct (m_name m) as [nm|]; cbn [fprintf_s];
    try discriminate.
  - rewrite !bind_fprintf. unfold ret. rewrite !add_output_add_output.
    intros H. injection H as _ <-. eexists. split; [reflexivity|].
    rewrite !Forall_app.
    repeat split; try (apply Forall_replicate; reflexivity); repeat constructor.
  - rewrite !bind_fprintf. unfold ret. rewrite !add_output_add_output.
    intros H. injection H as _ <-. eexists. split; [reflexivity|].
    rewrite !Forall_app.
    repeat split; try (apply Forall_replicate; reflexivity); repeat constructor.
Qed.

Lemma compare_loop_sink (b : bench_t) (l : list (option addr)) :
  forall (first : option (bench_stats_t float)) (w w' : world),
  compare_loop b first l w = Done tt w' ->
  exists chunks : list (FILE * string),
    w' = add_output chunks w /\ Forall (fun p => p.1 = out b) chunks.
Proof.
  induction l as [|entry l IH]; intros first w w' Hrun.
  - injection Hrun as <-. exists []. rewrite add_output_nil. split; [reflexivity|constructor].
  - cbn [compare_loop] in Hrun. unfold bind at 1 in Hrun.
    destruct (compare_entry b first entry w) as [r w1| |] eqn:He; try discriminate.
    apply compare_entry_sink in He as (c1 & -> & Hc1).
    apply IH in Hrun as (c2 & -> & Hc2).
    exists (c1 ++ c2). rewrite add_output_add_output. split; [reflexivity|].
    apply Forall_app. split; assumption.
Qed.

(** [bench_compare] on a suite that is ready to be compared, with everything
    it does to the world: it writes to the suite's sink only, and the heap
    loses the suite's measurements and nothing else. *)
Lemma bench_compare_effect
  (qsort : (addr -> addr -> Z) -> list addr -> list addr)
  (b : bench_t) (w : world) (ptrs : list addr) :
  qsort_contract qsort ->
  suite_ready b w ptrs ->
  exists (sorted : list addr) (chunks : list (FILE * string))
         (h' : gmap addr bench_measurement_t),
    bench_compare qsort b w = Done tt (set_heap h' (add_output chunks w))
    /\ Permutation ptrs sorted
    /\ descending (w_heap w) sorted
    /\ Forall (fun p => p.1 = out b) chunks
    /\ text_for (out b) chunks
       = (if 1 <? size (measurements b)
          then ranking_report (Z.to_nat (indent b)) (deref (w_heap w) <$> sorted)
          else "")
    /\ (forall a, a ∈ ptrs -> h' !! a = None)
    /\ (forall a, a ∉ ptrs -> h' !! a = w_heap w !! a).
Proof.
  intros Hq (buf & Hbuf & Hsize & Htake & Hlen & Hnd & Hvalid).
  assert (Hsome : forall a, a ∈ ptrs -> is_Some (w_heap w !! a)).
  { intros a Ha. destruct (Hvalid a Ha) as (m & nm & Hm & _). eauto. }
  assert (Hnames : forall a, a ∈ ptrs ->
             exists m nm, w_heap w !! a = Some m /\ m_name m = Some nm).
  { intros a Ha. destruct (Hvalid a Ha) as (m & nm & Hm & Hnm & _). eauto. }
  assert (Hnan : forall a, a ∈ ptrs -> is_nan (throughput (w_heap w) a) = false).
  { intros a Ha. destruct (Hvalid a Ha) as (m & nm & Hm & _ & Hn).
    unfold throughput, deref. rewrite Hm. exact Hn. }
  unfold bench_compare. destruct (1 <? size (measurements b)) eqn:Hmany.
  - destruct (Hq (_bench_compare_measurement (w_heap w)) ptrs) as [Hperm Hsorted].
    { apply compare_measurement_consistent. exact Hnan. }
    set (sorted := qsort (_bench_compare_measurement (w_heap w)) ptrs) in *.
    assert (Hin : forall a, a ∈ sorted -> a ∈ ptrs).
    { intros a Ha. rewrite Hperm. exact Ha. }
    unfold bind at 1. unfold bind at 1. unfold sort_entries at 1.
    rewrite Hbuf, Htake, (all_valid_pointers _ _ Hsome). fold sorted.
    set (m' := {| size := _; capacity := _; entries := _ |}).
    assert (Hlive : live_entries m' = Some <$> sorted).
    { unfold live_entries, m'. cbn [entries size from_option id].
      apply take_app_length'. rewrite length_fmap, <- Hlen.
      apply Permutation_length. exact Hperm. }
    erewrite bind_run by apply print_indent_run.
    rewrite bind_fprintf, add_output_add_output.
    cbn [with_measurements out indent].
    unfold bind at 1.
    match goal with
    | |- context [compare_loop ?b' None (live_entries m') ?W] =>
        destruct (compare_loop_run b' sorted None W) as (chunks & Hrun & Htext);
        [|pose proof (compare_loop_sink b' (Some <$> sorted) None W _ Hrun)
            as (chunks' & Hsame & Hsink)]
    end.
    { intros a Ha. cbn [add_output w_heap]. apply Hnames, Hin, Ha. }
    assert (chunks' = chunks) as ->.
    { unfold add_output in Hsame. injection Hsame as Hsame.
      apply app_inv_head in Hsame. congruence. }
    cbn [out indent with_measurements add_output w_heap] in Htext, Hsink.
    rewrite Hlive, Hrun. unfold ret at 1. rewrite add_output_add_output.
    unfold bench_free. cbn [measurements with_measurements]. rewrite Hlive.
    match goal with
    | |- context [for_each bench_measurement_free (Some <$> sorted) ?W] =>
        destruct (for_each_free_run sorted W) as (h' & Hfree & Hgone & Hkept)
    end.
    { rewrite <- Hperm. exact Hnd. }
    { intros a Ha. cbn [add_output w_heap]. apply Hsome, Hin, Ha. }
    rewrite Hfree. exists sorted. eexists _, h'.
    split; [reflexivity|].
    split; [exact Hperm|]. split.
    { unfold descending. eapply StronglySorted_weaken; [|exact Hsorted].
      intros x y Hx Hy Hxy. cbv beta in Hxy.
      apply (compare_measurement_le (w_heap w) x y); auto. }
    split.
    { rewrite !Forall_app.
      repeat split; try (apply Forall_replicate; reflexivity); try exact Hsink;
        repeat constructor. }
    split.
    { rewrite !text_for_app, text_for_indent, text_for_cons, Htext.
      cbn [text_for foldr out indent with_measurements add_output w_heap].
      rewrite ranking_report_lines, string_app_nil_r, !string_app_assoc. reflexivity. }
    split.
    { intros a Ha. apply Hgone. rewrite <- Hperm. exact Ha. }
    intros a Ha. cbn [add_output w_heap] in Hkept. apply Hkept.
    rewrite <- Hperm. exact Ha.
  - unfold bind at 1. unfold ret at 1. unfold bench_free.
    assert (Hlive : live_entries (measurements b) = Some <$> ptrs).
    { unfold live_entries. rewrite Hbuf. exact Htake. }
    rewrite Hlive.
    destruct (for_each_free_run ptrs w Hnd Hsome) as (h' & Hfree & Hgone & Hkept).
    rewrite Hfree. exists ptrs, [], h'. rewrite add_output_nil.
    split; [reflexivity|].
    split; [reflexivity|]. split.
    { apply Z.ltb_ge in Hmany. unfold descending.
      destruct ptrs as [|a [|a' ptrs]]; [constructor|repeat constructor|].
      cbn [length] in Hlen. lia. }
    split; [constructor|]. split; [reflexivity|]. split; assumption.
Qed.

(** X9.  [bench_compare] on a suite that is ready to be compared frees every
    measurement of the suite and leaves every other cell of the heap as it
    was; it writes to the suite's own sink only; and it neither reads the
    clock nor asks the allocator. *)
Theorem bench_compare_frees_the_suite_only
  (qsort : (addr -> addr -> Z) -> list addr -> list addr)
  (b : bench_t) (w : world) (ptrs : list addr)
  (Hq : qsort_contract qsort)
  (Hready : suite_ready b w ptrs) :
  exists w' : world,
    bench_compare qsort b w = Done tt w'
    /\ (forall a, a ∈ ptrs -> w_heap w' !! a = None)
    /\ (forall a, a ∉ ptrs -> w_heap w' !! a = w_heap w !! a)
    /\ (forall f, f <> out b -> contents f w' = contents f w)
    /\ w_clock w' = w_clock w /\ w_ticks w' = w_ticks w
    /\ w_alloc w' = w_alloc w /\ w_allocs w' = w_allocs w
    /\ w_next w' = w_next w.
Proof.
  destruct (bench_compare_effect qsort b w ptrs Hq Hready)
    as (sorted & chunks & h' & Hrun & _ & _ & Hsink & _ & Hgone & Hkept).
  eexists. split; [exact Hrun|]. cbn [set_heap add_output w_heap].
  split; [exact Hgone|]. split; [exact Hkept|].
  split; [|repeat split].
  intros f Hf. unfold contents. cbn [set_heap add_output w_output].
  rewrite text_for_app, (text_for_other f (out b) chunks Hf Hsink).
  apply string_app_nil_r.
Qed.

Lemma bench_compare_frees_the_suite_only_witness :
  exists w' : world,
    bench_compare insertion_sort (suite_of [1; 2; 3]%positive) abc_world = Done tt w'
    /\ w_heap w' !! 2%positive = None
    /\ contents 7 w' = "".
Proof.
  destruct (bench_compare_frees_the_suite_only insertion_sort (suite_of [1; 2; 3]%positive)
              abc_world [1; 2; 3]%positive insertion_sort_contract abc_ready)
    as (w' & Hrun & Hgone & _ & Hsink & _).
  exists w'. split; [exact Hrun|]. split.
  - apply Hgone. right. left.
  - rewrite Hsink by discriminate. reflexivity.
Defined.

(** X10.  [bench_compare] consumes the suite: after it has returned for a
    suite with at least one measurement, a second [bench_compare], or a
    [bench_free], of the same suite reads a measurement that has been
    freed. *)
Theorem bench_compare_consumes_the_suite
  (qsort : (addr -> addr -> Z) -> list addr -> list addr)
  (b : bench_t) (w : world) (ptrs : list addr)
  (Hq : qsort_contract qsort)
  (Hready : suite_ready b w ptrs)
  (Hsome : ptrs <> []) :
  exists w' : world,
    bench_compare qsort b w = Done tt w'
    /\ bench_free b w' = Undefined
    /\ bench_compare qsort b w' = Undefined.
Proof.
  destruct (bench_compare_effect qsort b w ptrs Hq Hready)
    as (sorted & chunks & h' & Hrun & _ & _ & _ & _ & Hgone & _).
  destruct Hready as (buf & Hbuf & Hsize & Htake & Hlen & _ & _).
  destruct ptrs as [|a ptrs]; [contradiction|].
  assert (Ha : h' !! a = None) by (apply Hgone; left).
  assert (Hfree : bench_free b (set_heap h' (add_output chunks w)) = Undefined).
  { unfold bench_free, live_entries. rewrite Hbuf. cbn [from_option id].
    rewrite Htake. cbn [fmap list_fmap for_each bench_measurement_free].
    unfold bind at 1. unfold bind at 1. unfold load. cbn [set_heap w_heap].
    rewrite Ha. reflexivity. }
  eexists. split; [exact Hrun|]. split; [exact Hfree|].
  unfold bench_compare. destruct (1 <? size (measurements b)).
  - unfold bind at 1. unfold bind at 1. unfold sort_entries.
    rewrite Hbuf, Htake. cbn [fmap list_fmap all_valid set_heap w_heap].
    rewrite Ha. reflexivity.
  - unfold bind at 1. unfold ret at 1. exact Hfree.
Qed.

Lemma bench_compare_consumes_the_suite_witness :
  exists w' : world,
    bench_compare insertion_sort (suite_of [1; 2; 3]%positive) abc_world = Done tt w'
    /\ bench_compare insertion_sort (suite_of [1; 2; 3]%positive) w' = Undefined.
Proof.
  destruct (bench_compare_consumes_the_suite insertion_sort (suite_of [1; 2; 3]%positive)
              abc_world [1; 2; 3]%positive insertion_sort_contract abc_ready)
    as (w' & Hrun & _ & Hagain).
  - discriminate.
  - exists w'. split; [exact Hrun|exact Hagain].
Defined.


(** ** Whole sessions *)

Lemma measure_all_run (names : list string) :
  forall (b : bench_t) (w : world) (ptrs : list addr),
  (forall k, w_alloc w k = true) ->
  ticking (w_clock w) ->
  1 <= target_time b <= 2 ^ 63 ->
  array_ok (measurements b) ->
  capacity (measurements b) <= Z.max 16 (2 * size (measurements b)) ->
  size (measurements b) + Z.of_nat (length names) < 2 ^ 32 ->
  live_entries (measurements b) = Some <$> ptrs ->
  exists (b' : bench_t) (w' : world) (ptrs' : list addr) (ms' : list bench_measurement_t)
         (chunks : list (FILE * string)),
    (forall fuel, (Z.to_nat (target_time b) < fuel)%nat ->
       measure_all fuel names b w = Done b' w')
    /\ (name b', out b', indent b', data b', target_time b')
       = (name b, out b, indent b, data b, target_time b)
    /\ array_ok (measurements b')
    /\ size (measurements b') = size (measurements b) + Z.of_nat (length names)
    /\ live_entries (measurements b') = Some <$> (ptrs ++ ptrs')
    /\ NoDup ptrs'
    /\ Forall (fun a => (w_next w <= a)%positive) ptrs'
    /\ Forall2 (fun a m => w_heap w' !! a = Some m) ptrs' ms'
    /\ m_name <$> ms' = Some <$> names
    /\ Forall (fun m => target_time b <= total (stats m) < 2 ^ 64) ms'
    /\ (forall a, a ∉ ptrs' -> w_heap w' !! a = w_heap w !! a)
    /\ w_alloc w' = w_alloc w
    /\ w_clock w' = w_clock w
    /\ w_output w' = w_output w ++ chunks
    /\ Forall (fun p => p.1 = out b) chunks
    /\ text_for (out b) chunks = summary_lines (Z.to_nat (indent b)) ms'.
Proof.
  induction names as [|nm names IH];
    intros b w ptrs Halloc Hclock Htarget Hok Hcap Hlen Hlive.
  - exists b, w, [], [], []. cbn [length] in *.
    split; [reflexivity|]. split; [reflexivity|]. split; [exact Hok|].
    split; [lia|]. split; [rewrite app_nil_r; exact Hlive|].
    split; [constructor|]. split; [constructor|]. split; [constructor|].
    split; [reflexivity|]. split; [constructor|]. split; [reflexivity|].
    split; [reflexivity|]. split; [reflexivity|].
    split; [rewrite app_nil_r; reflexivity|]. split; [constructor|reflexivity].
  - cbn [length] in Hlen.
    destruct (bench_measure_run b nm w Hok (Halloc _) (or_intror (Halloc _))
                Hclock Htarget)
      as (n & array & buf & Hn & Hnle & _ & Hrun & Hsize & Hcapa & Hbuf & Hblen
          & Hlive1 & Htot & _ & Hreach & Hmax).
    pose proof Hok as (buf0 & Hbuf0 & Hblen0 & Hsz & Hcpos & Hc2).
    assert (Hcapa' : capacity array = capacity (measurements b)
                       /\ size (measurements b) < capacity (measurements b)
                     \/ capacity array = 2 * size (measurements b)
                        /\ size (measurements b) = capacity (measurements b)).
    { destruct (size (measurements b) =? capacity (measurements b)) eqn:E.
      - apply Z.eqb_eq in E. right. lia.
      - apply Z.eqb_neq in E. left. lia. }
    clear Hcapa.
    set (b1 := with_measurements b array).
    set (w1 := after_measure b nm n w).
    set (m1 := {| m_name := Some nm;
                  stats := push_all (samples (w_clock w) (S (w_ticks w)) n) |}).
    destruct (IH b1 w1 (ptrs ++ [w_next w]))
      as (b' & w' & ptrs' & ms' & chunks & Hrun' & Hsame & Hok' & Hsize' & Hlive'
          & Hnd & Hge & Hheap & Hnames & Htotals & Hframe & Ha & Hc & Hout & Hsink & Htext).
    { exact Halloc. }
    { exact Hclock. }
    { exact Htarget. }
    { exists buf. unfold b1; cbn [with_measurements measurements].
      split; [exact Hbuf|]. split; [exact Hblen|]. lia. }
    { unfold b1; cbn [with_measurements measurements]. lia. }
    { unfold b1; cbn [with_measurements measurements]. lia. }
    { unfold b1; cbn [with_measurements measurements]. rewrite Hlive1, Hlive, fmap_app.
      reflexivity. }
    unfold b1, w1 in *. clear b1 w1.
    cbn [with_measurements measurements name out indent data target_time
         after_measure w_next w_heap w_alloc w_clock w_output] in *.
    rewrite (Halloc (S (w_allocs w))) in Hframe.
    fold m1 in Hframe, Hout.
    assert (Hnotin : w_next w ∉ ptrs').
    { intros Hin. rewrite Forall_forall in Hge. specialize (Hge _ Hin). lia. }
    exists b', w', (w_next w :: ptrs'), (m1 :: ms'). eexists.
    split.
    { intros fuel Hfuel. cbn [measure_all]. unfold bind at 1.
      rewrite Hrun by lia. apply Hrun'. exact Hfuel. }
    split; [exact Hsame|]. split; [exact Hok'|].
    split; [rewrite Hsize'; cbn [length]; lia|].
    split; [rewrite Hlive', <- app_assoc; reflexivity|].
    split; [constructor; assumption|].
    split.
    { constructor; [lia|]. eapply Forall_impl; [exact Hge|]. cbv beta. intros a Hle. lia. }
    split.
    { constructor; [|exact Hheap]. rewrite Hframe by exact Hnotin.
      apply lookup_insert_eq. }
    split; [cbn [fmap list_fmap]; f_equal; exact Hnames|].
    split; [constructor; [cbn [m1 stats]; lia|exact Htotals]|].
    split.
    { intros a Hna. apply not_elem_of_cons in Hna as [Hne Hna].
      rewrite Hframe by exact Hna. apply lookup_insert_ne. congruence. }
    split; [exact Ha|]. split; [exact Hc|].
    split; [rewrite Hout, <- !app_assoc; reflexivity|].
    split.
    { rewrite !Forall_app.
      repeat split; try (apply Forall_replicate; reflexivity); try exact Hsink;
        repeat constructor. }
    rewrite !text_for_app, text_for_indent, !text_for_cons, Htext.
    cbn [text_for foldr summary_lines]. unfold summary_line, name_of.
    cbn [m1 m_name stats from_option id].
    rewrite ?string_app_nil_r, ?string_app_assoc. reflexivity.
Qed.

Lemma deref_all (h : gmap addr bench_measurement_t) (ptrs : list addr)
  (ms : list bench_measurement_t) :
  Forall2 (fun a m => h !! a = Some m) ptrs ms -> deref h <$> ptrs = ms.
Proof.
  induction 1 as [|a m ptrs ms Ha _ IH]; [reflexivity|].
  cbn [fmap list_fmap]. f_equal; [|exact IH]. unfold deref. rewrite Ha. reflexivity.
Qed.

Lemma names_all_some (ms : list bench_measurement_t) : forall names : list string,
  m_name <$> ms = Some <$> names -> Forall (fun m => exists nm, m_name m = Some nm) ms.
Proof.
  induction ms as [|m ms IH]; intros names Hn; [constructor|].
  destruct names as [|nm names]; [discriminate|].
  cbn [fmap list_fmap] in Hn. injection Hn as Hm Hn.
  constructor; [eauto|]. eapply IH. exact Hn.
Qed.

Lemma StronglySorted_fmap {A B} (f : A -> B) (R : B -> B -> Prop) (l : list A) :
  StronglySorted (fun x y => R (f x) (f y)) l -> StronglySorted R (f <$> l).
Proof.
  induction 1 as [|a l _ IH Hall]; cbn [fmap list_fmap]; constructor; [exact IH|].
  rewrite List.Forall_forall in Hall. apply List.Forall_forall.
  intros y Hy. apply list_elem_of_In, list_elem_of_fmap in Hy as (x & -> & Hx).
  apply Hall. apply list_elem_of_In. exact Hx.
Qed.

(** Measuring the functions [names] one after the other in a suite without
    measurements and comparing them. *)
Lemma suite_run
  (qsort : (addr -> addr -> Z) -> list addr -> list addr)
  (names : list string) (b : bench_t) (w : world) :
  qsort_contract qsort ->
  (forall k, w_alloc w k = true) ->
  ticking (w_clock w) ->
  heap_fresh w ->
  1 <= target_time b <= 2 ^ 63 ->
  array_ok (measurements b) ->
  size (measurements b) = 0 ->
  capacity (measurements b) <= 16 ->
  Z.of_nat (length names) < 2 ^ 32 ->
  exists (ms order : list bench_measurement_t) (chunks : list (FILE * string)) (w' : world),
    (forall fuel, (Z.to_nat (target_time b) < fuel)%nat ->
       (let* b' := measure_all fuel names b in bench_compare qsort b') w = Done tt w')
    /\ m_name <$> ms = Some <$> names
    /\ Forall (fun m => target_time b <= total (stats m) < 2 ^ 64) ms
    /\ Permutation ms order
    /\ ranked order
    /\ w_output w' = w_output w ++ chunks
    /\ Forall (fun p => p.1 = out b) chunks
    /\ text_for (out b) chunks
       = summary_lines (Z.to_nat (indent b)) ms
         +:+ (if 1 <? Z.of_nat (length names)
              then ranking_report (Z.to_nat (indent b)) order else "")
    /\ w_heap w' = w_heap w
    /\ w_clock w' = w_clock w
    /\ w_alloc w' = w_alloc w.
Proof.
  intros Hq Halloc Hclock Hfresh Htarget Hok Hsize Hcap Hlen.
  destruct (measure_all_run names b w [] Halloc Hclock Htarget Hok)
    as (b' & w1 & ptrs & ms & chunks1 & Hrun & Hsame & Hok' & Hsize' & Hlive
        & Hnd & Hge & Hheap & Hnames & Htotals & Hframe & Ha & Hc & Hout & Hsink & Htext).
  { lia. }
  { lia. }
  { unfold live_entries. rewrite Hsize. reflexivity. }
  injection Hsame as Hname Hout_b Hind Hdata Htarget_b.
  cbn [app] in Hlive.
  assert (Hlen' : length ptrs = length names).
  { rewrite (Forall2_length _ _ _ Hheap).
    rewrite <- (length_fmap m_name ms), Hnames. apply length_fmap. }
  assert (Hready : suite_ready b' w1 ptrs).
  { destruct Hok' as (buf & Hbuf & Hblen & Hsz & _).
    exists buf. split; [exact Hbuf|]. split; [lia|].
    split; [unfold live_entries in Hlive; rewrite Hbuf in Hlive; exact Hlive|].
    split; [lia|]. split; [exact Hnd|].
    intros a Hin. apply list_elem_of_lookup_1 in Hin as [i Hi].
    destruct (Forall2_lookup_l _ _ _ _ _ Hheap Hi) as (m & Hm & Hlook).
    destruct (Forall_lookup_1 _ _ _ _ (names_all_some ms names Hnames) Hm) as [nm Hnm].
    pose proof (Forall_lookup_1 _ _ _ _ Htotals Hm) as Htot. cbv beta in Htot.
    exists m, nm. split; [exact Hlook|]. split; [exact Hnm|].
    apply throughput_not_nan. lia. }
  destruct (bench_compare_effect qsort b' w1 ptrs Hq Hready)
    as (sorted & chunks2 & h' & Hcmp & Hperm & Hdesc & Hsink2 & Htext2 & Hgone & Hkept).
  exists ms, (deref (w_heap w1) <$> sorted), (chunks1 ++ chunks2),
         (set_heap h' (add_output chunks2 w1)).
  split.
  { intros fuel Hfuel. unfold bind at 1. rewrite Hrun by exact Hfuel. exact Hcmp. }
  split; [exact Hnames|]. split; [exact Htotals|].
  split.
  { rewrite <- (deref_all _ _ _ Hheap). apply fmap_Permutation. exact Hperm. }
  split.
  { unfold ranked. apply (StronglySorted_fmap (deref (w_heap w1))). exact Hdesc. }
  cbn [set_heap add_output w_output w_heap w_clock w_alloc].
  split; [rewrite Hout, app_assoc; reflexivity|].
  rewrite Hout_b in Hsink2, Htext2. rewrite Hind, Hsize', Hsize, Z.add_0_l in Htext2.
  split; [apply Forall_app; split; assumption|].
  split; [rewrite text_for_app, Htext, Htext2; reflexivity|].
  split; [|split; assumption].
  apply map_eq. intros a. destruct (decide (a ∈ ptrs)) as [Hin|Hnotin].
  - rewrite Hgone by exact Hin. symmetry. apply Hfresh.
    rewrite Forall_forall in Hge. apply Hge. exact Hin.
  - rewrite Hkept by exact Hnotin. apply Hframe. exact Hnotin.
Qed.

Lemma bench_session_run
  (qsort : (addr -> addr -> Z) -> list addr -> list addr)
  (nm : string) (o : FILE) (ind : Z) (d : pointer) (names : list string) (w : world) :
  qsort_contract qsort ->
  (forall k, w_alloc w k = true) ->
  ticking (w_clock w) ->
  heap_fresh w ->
  Z.of_nat (length names) < 2 ^ 32 ->
  exists (ms order : list bench_measurement_t) (chunks : list (FILE * string)) (w' : world),
    (forall fuel, (Z.to_nat SECONDS < fuel)%nat ->
       bench_session qsort fuel nm o ind d names w = Done tt w')
    /\ m_name <$> ms = Some <$> names
    /\ Forall (fun m => SECONDS <= total (stats m) < 2 ^ 64) ms
    /\ Permutation ms order
    /\ ranked order
    /\ w_output w' = w_output w ++ chunks
    /\ Forall (fun p => p.1 = o) chunks
    /\ text_for o chunks
       = suite_header ind nm
         +:+ summary_lines (Z.to_nat ind) ms
         +:+ (if 1 <? Z.of_nat (length names)
              then ranking_report (Z.to_nat ind) order else "")
    /\ w_heap w' = w_heap w.
Proof.
  intros Hq Halloc Hclock Hfresh Hlen.
  pose proof (bench_create_run nm o ind d w (Halloc _) (Halloc _) (Halloc _)) as Hcreate.
  set (b := {| name := Some nm; out := o; indent := ind; data := d;
               target_time := 1000000000; measurements := fresh_array |}) in *.
  set (w1 := mk_world _ _ _ _ _ _ _) in Hcreate.
  destruct (suite_run qsort names b w1 Hq)
    as (ms & order & chunks & w' & Hrun & Hnames & Htotals & Hperm & Hranked
        & Hout & Hsink & Htext & Hheap & _).
  { exact Halloc. } { exact Hclock. } { exact Hfresh. }
  { cbn. lia. } { exact fresh_array_ok. } { reflexivity. } { cbn. lia. } { exact Hlen. }
  cbn [b out indent target_time w1 w_output w_heap] in *.
  exists ms, order. eexists. exists w'.
  split.
  { intros fuel Hfuel. unfold bench_session. unfold bind at 1. rewrite Hcreate.
    apply Hrun. exact Hfuel. }
  split; [exact Hnames|]. split; [exact Htotals|]. split; [exact Hperm|].
  split; [exact Hranked|].
  split; [rewrite Hout, <- !app_assoc; reflexivity|].
  split.
  { rewrite !Forall_app.
    repeat split; try (apply Forall_replicate; reflexivity); try exact Hsink;
      destruct (ind =? 0); repeat constructor. }
  split; [|exact Hheap].
  rewrite <- (app_nil_l ((if ind =? 0 then _ else _) ++ _)).
  rewrite !app_assoc. rewrite text_for_app. rewrite <- !app_assoc.
  rewrite contents_after_create. cbn [text_for foldr]. rewrite Htext.
  rewrite ?string_app_assoc. reflexivity.
Qed.

Lemma main_run
  (qsort : (addr -> addr -> Z) -> list addr -> list addr) (w : world) :
  qsort_contract qsort ->
  (forall k, w_alloc w k = true) ->
  ticking (w_clock w) ->
  heap_fresh w ->
  exists (fast slow : bench_measurement_t) (order : list bench_measurement_t)
         (chunks : list (FILE * string)) (w' : world),
    (forall fuel, (Z.to_nat SECONDS < fuel)%nat -> main qsort fuel w = Done 0 w')
    /\ m_name fast = Some "fast" /\ m_name slow = Some "slow"
    /\ SECONDS <= total (stats fast) < 2 ^ 64
    /\ SECONDS <= total (stats slow) < 2 ^ 64
    /\ Permutation [fast; slow] order
    /\ ranked order
    /\ w_output w' = w_output w ++ chunks
    /\ Forall (fun p => p.1 = stdout) chunks
    /\ text_for stdout chunks
       = "benc.h v1.0.0
# bench
  # publish
" +:+ summary_lines 2 [fast; slow] +:+ ranking_report 2 order
    /\ w_heap w' = w_heap w.
Proof.
  intros Hq Halloc Hclock Hfresh.
  pose proof (bench_create_run "bench" stdout 0 0 w (Halloc _) (Halloc _) (Halloc _))
    as Hcreate.
  set (b := {| name := Some "bench"; out := stdout; indent := 0; data := 0;
               target_time := 1000000000; measurements := fresh_array |}) in *.
  set (w1 := mk_world _ _ _ _ _ _ _) in Hcreate.
  pose proof (bench_create_run "publish" stdout 2 0 w1 (Halloc _) (Halloc _) (Halloc _))
    as Hchild.
  set (b2 := {| name := Some "publish"; out := stdout; indent := 2; data := 0;
                target_time := 1000000000; measurements := fresh_array |}) in *.
  set (w2 := mk_world _ _ _ _ _ _ _) in Hchild.
  destruct (suite_run qsort ["fast"; "slow"] b2 w2 Hq)
    as (ms & order & chunks & w' & Hrun & Hnames & Htotals & Hperm & Hranked
        & Hout & Hsink & Htext & Hheap & _).
  { exact Halloc. } { exact Hclock. } { exact Hfresh. }
  { cbn. lia. } { exact fresh_array_ok. } { reflexivity. } { cbn. lia. } { cbn. lia. }
  destruct ms as [|fast [|slow [|extra ms]]]; try discriminate Hnames.
  cbn [fmap list_fmap] in Hnames. injection Hnames as Hfast Hslow.
  apply Forall_cons in Htotals as [Htf Hts]. apply Forall_cons in Hts as [Hts _].
  cbn [b2 out indent target_time w2 w1 w_output w_heap] in *.
  exists fast, slow, order. eexists. exists w'.
  split.
  { intros fuel Hfuel. unfold main. unfold bind at 1. rewrite Hcreate.
    unfold bind at 1. unfold bench_group. cbn [indent out b].
    change (INT_MAX <? 0 + 2) with false. cbv iota.
    unfold bind at 1. change (0 + 2) with 2. fold stdout. rewrite Hchild.
    change (bench_publish_suite fuel) with (measure_all fuel ["fast"; "slow"]).
    rewrite Hrun by exact Hfuel. reflexivity. }
  split; [exact Hfast|]. split; [exact Hslow|].
  split; [exact Htf|]. split; [exact Hts|]. split; [exact Hperm|].
  split; [exact Hranked|].
  split; [rewrite Hout, <- !app_assoc; reflexivity|].
  split.
  { rewrite !Forall_app.
    repeat split; try (apply Forall_replicate; reflexivity); try exact Hsink;
      repeat constructor. }
  split; [|exact Hheap].
  rewrite !text_for_app, Htext. reflexivity.
Qed.


Lemma heap_fresh_start (clock : nat -> Z) (alloc : nat -> bool) :
  heap_fresh (start_world clock alloc).
Proof. intros a _. apply lookup_empty. Qed.

Lemma contents_extended (f o : FILE) (w w' : world) (chunks : list (FILE * string)) :
  w_output w' = w_output w ++ chunks ->
  Forall (fun p => p.1 = o) chunks ->
  contents o w' = contents o w +:+ text_for o chunks
  /\ (f <> o -> contents f w' = contents f w).
Proof.
  intros Hout Hsink. unfold contents. rewrite Hout, !text_for_app.
  split; [reflexivity|]. intros Hf.
  rewrite (text_for_other f o chunks Hf Hsink). apply string_app_nil_r.
Qed.

(** X11.  A session as the documentation of [bench_compare] shows it:
    [bench_create], [bench_measure] for each of a list of names,
    [bench_compare].  With an allocator that grants every request and a
    ticking clock the session returns, without undefined behaviour, for any
    number of names below 2^32.  The sink gets the header, one summary line
    per name in the order of the calls, and, for two names or more, the
    ranking of these measurements by descending throughput; every
    measurement has run for at least the second of the target; no other sink
    is written to, and the heap is left as it was found: every measurement
    has been freed. *)
Theorem session_reports_and_cleans_up
  (qsort : (addr -> addr -> Z) -> list addr -> list addr)
  (nm : string) (o : FILE) (ind : Z) (d : pointer) (names : list string) (w : world)
  (Hq : qsort_contract qsort)
  (Halloc : forall k, w_alloc w k = true)
  (Hclock : ticking (w_clock w))
  (Hfresh : heap_fresh w)
  (Hlen : Z.of_nat (length names) < 2 ^ 32) :
  exists (ms order : list bench_measurement_t) (w' : world),
    (forall fuel, (Z.to_nat SECONDS < fuel)%nat ->
       bench_session qsort fuel nm o ind d names w = Done tt w')
    /\ m_name <$> ms = Some <$> names
    /\ Forall (fun m => SECONDS <= total (stats m) < 2 ^ 64) ms
    /\ Permutation ms order
    /\ ranked order
    /\ contents o w'
       = contents o w +:+ suite_header ind nm
         +:+ summary_lines (Z.to_nat ind) ms
         +:+ (if 1 <? Z.of_nat (length names)
              then ranking_report (Z.to_nat ind) order else "")
    /\ (forall f, f <> o -> contents f w' = contents f w)
    /\ w_heap w' = w_heap w.
Proof.
  destruct (bench_session_run qsort nm o ind d names w Hq Halloc Hclock Hfresh Hlen)
    as (ms & order & chunks & w' & Hrun & Hnames & Htotals & Hperm & Hranked
        & Hout & Hsink & Htext & Hheap).
  exists ms, order, w'. split; [exact Hrun|]. split; [exact Hnames|].
  split; [exact Htotals|]. split; [exact Hperm|]. split; [exact Hranked|].
  split.
  { destruct (contents_extended o o w w' chunks Hout Hsink) as [-> _].
    rewrite Htext. reflexivity. }
  split; [|exact Hheap].
  intros f Hf. destruct (contents_extended f o w w' chunks Hout Hsink) as [_ H].
  apply H. exact Hf.
Qed.

Lemma session_reports_and_cleans_up_witness :
  exists w' : world,
    bench_session insertion_sort (S (Z.to_nat SECONDS)) "bench" 1 0 0 ["fast"; "slow"]
                  (start_world slow_clock always)
    = Done tt w'
    /\ w_heap w' = ∅.
Proof.
  destruct (session_reports_and_cleans_up insertion_sort "bench" 1 0 0 ["fast"; "slow"]
              (start_world slow_clock always) insertion_sort_contract)
    as (ms & order & w' & Hrun & _ & _ & _ & _ & _ & _ & Hheap).
  - reflexivity.
  - exact slow_clock_ticking.
  - apply heap_fresh_start.
  - cbn. lia.
  - exists w'. split; [apply Hrun; apply Nat.lt_succ_diag_r|exact Hheap].
Defined.

Lemma workload_clock_ticking : ticking workload_clock.
Proof.
  intros k. cbn [workload_clock].
  replace (workload_clock k
           + (if (k <? 7)%nat
              then if Nat.odd k then 400000000 else 1
              else if Nat.even k then 700000000 else 1) - workload_clock k)
    with (if (k <? 7)%nat
          then if Nat.odd k then 400000000 else 1
          else if Nat.even k then 700000000 else 1) by lia.
  destruct (k <? 7)%nat; [destruct (Nat.odd k)|destruct (Nat.even k)];
    vm_compute; split; discriminate.
Qed.

(** X12.  The example program, example.c: a suite "bench", in it a group
    "publish" with the measurements "fast" and "slow", and the comparison of
    the (empty) top-level suite.  With an allocator that grants every
    request and a ticking clock, [main] returns 0; standard output gets the
    banner, the two headers, the two summary lines behind two spaces, and the
    ranking of the two measurements by descending throughput, also behind two
    spaces; the comparison of the top-level suite prints nothing; the heap is
    as it was.  When each call of the first workload takes 400 ms and each
    call of the second 700 ms, the text is the one displayed. *)
Theorem example_program_report :
  (forall (qsort : (addr -> addr -> Z) -> list addr -> list addr) (w : world),
      qsort_contract qsort ->
      (forall k, w_alloc w k = true) ->
      ticking (w_clock w) ->
      heap_fresh w ->
      exists (fast slow : bench_measurement_t) (order : list bench_measurement_t)
             (w' : world),
        (forall fuel, (Z.to_nat SECONDS < fuel)%nat -> main qsort fuel w = Done 0 w')
        /\ m_name fast = Some "fast" /\ m_name slow = Some "slow"
        /\ SECONDS <= total (stats fast) < 2 ^ 64
        /\ SECONDS <= total (stats slow) < 2 ^ 64
        /\ Permutation [fast; slow] order
        /\ ranked order
        /\ contents stdout w'
           = contents stdout w +:+ "benc.h v1.0.0
# bench
  # publish
" +:+ summary_lines 2 [fast; slow] +:+ ranking_report 2 order
        /\ (forall f, f <> stdout -> contents f w' = contents f w)
        /\ w_heap w' = w_heap w)
  /\ (exists w' : world,
         main insertion_sort 5 (start_world workload_clock always) = Done 0 w'
         /\ contents stdout w' = "benc.h v1.0.0
# bench
  # publish
  fast - 2.50 i/s (±0.00%) (400.00ms/i)
  slow - 1.43 i/s (±0.00%) (700.00ms/i)
  Comparing...
    - fast (fastest)
    - slow (75.00% slower)
"
         /\ w_heap w' = ∅).
Proof.
  split.
  - intros qsort w Hq Halloc Hclock Hfresh.
    destruct (main_run qsort w Hq Halloc Hclock Hfresh)
      as (fast & slow & order & chunks & w' & Hrun & Hfast & Hslow & Htf & Hts
          & Hperm & Hranked & Hout & Hsink & Htext & Hheap).
    exists fast, slow, order, w'. split; [exact Hrun|].
    split; [exact Hfast|]. split; [exact Hslow|]. split; [exact Htf|].
    split; [exact Hts|]. split; [exact Hperm|]. split; [exact Hranked|].
    split.
    { destruct (contents_extended stdout stdout w w' chunks Hout Hsink) as [-> _].
      rewrite Htext. reflexivity. }
    split; [|exact Hheap].
    intros f Hf. destruct (contents_extended f stdout w w' chunks Hout Hsink) as [_ H].
    apply H. exact Hf.
  - eexists. split; [vm_compute; reflexivity|]. split; vm_compute; reflexivity.
Qed.

Lemma example_program_report_witness :
  exists w' : world,
    main insertion_sort (S (Z.to_nat SECONDS)) (start_world workload_clock always)
    = Done 0 w'
    /\ w_heap w' = ∅.
Proof.
  destruct example_program_report as [Hgeneral _].
  destruct (Hgeneral insertion_sort (start_world workload_clock always)
              insertion_sort_contract)
    as (fast & slow & order & w' & Hrun & _ & _ & _ & _ & _ & _ & _ & _ & Hheap).
  - reflexivity.
  - exact workload_clock_ticking.
  - apply heap_fresh_start.
  - exists w'. split; [apply Hrun; apply Nat.lt_succ_diag_r|exact Hheap].
Defined.


(** ** The comparison function on arbitrary floats *)

Lemma SFltb_asym (x y : float) : SFltb x y = true -> SFltb y x = false.
Proof.
  intros Hxy.
  destruct (is_nan x) eqn:Hx; [destruct x; discriminate|].
  destruct (is_nan y) eqn:Hy; [destruct x, y; discriminate|].
  destruct (SFcompare_rank x y Hx Hy) as [H1 _].
  destruct (SFcompare_rank y x Hy Hx) as [H2 _].
  destruct (SFltb y x) eqn:E; [|reflexivity].
  exfalso. apply (rank_lt_asym (f_rank x) (f_rank y)); [apply H1|apply H2]; auto.
Qed.

Lemma SFltb_nan_l (x y : float) : is_nan x = true -> SFltb x y = false /\ SFltb y x = false.
Proof. destruct x; try discriminate. destruct y; split; reflexivity. Qed.

(** X13.  [_bench_compare_measurement] is antisymmetric on all
    measurements: exchanging the arguments negates the result.  But a
    measurement whose throughput is a NaN compares equal to every other, so
    with such a measurement in the array the function is not the consistent
    ordering [qsort] requires: in the example, A equals the idle measurement,
    which equals B, while A is behind B. *)
Theorem comparison_is_antisymmetric_but_blind_to_nan :
  (forall (h : gmap addr bench_measurement_t) (a b : addr),
      _bench_compare_measurement h a b = - _bench_compare_measurement h b a)
  /\ (forall (h : gmap addr bench_measurement_t) (a b : addr),
         is_nan (throughput h a) = true ->
         _bench_compare_measurement h a b = 0 /\ _bench_compare_measurement h b a = 0)
  /\ is_nan (throughput idle_heap 4%positive) = true
  /\ _bench_compare_measurement idle_heap 1%positive 4%positive = 0
  /\ _bench_compare_measurement idle_heap 4%positive 2%positive = 0
  /\ _bench_compare_measurement idle_heap 1%positive 2%positive = 1
  /\ ~ cmp_consistent (_bench_compare_measurement idle_heap) [1; 4; 2]%positive.
Proof.
  split; [|split].
  - intros h a b. unfold _bench_compare_measurement.
    fold (throughput h a) (throughput h b).
    destruct (SFltb (throughput h b) (throughput h a)) eqn:E1.
    + rewrite (SFltb_asym _ _ E1). reflexivity.
    + destruct (SFltb (throughput h a) (throughput h b)); reflexivity.
  - intros h a b Hnan. unfold _bench_compare_measurement.
    fold (throughput h a) (throughput h b).
    destruct (SFltb_nan_l _ (throughput h b) Hnan) as [-> ->]. split; reflexivity.
  - assert (H14 : _bench_compare_measurement idle_heap 1%positive 4%positive = 0)
      by (vm_compute; reflexivity).
    assert (H42 : _bench_compare_measurement idle_heap 4%positive 2%positive = 0)
      by (vm_compute; reflexivity).
    assert (H12 : _bench_compare_measurement idle_heap 1%positive 2%positive = 1)
      by (vm_compute; reflexivity).
    split; [vm_compute; reflexivity|]. split; [exact H14|]. split; [exact H42|].
    split; [exact H12|].
    intros Hc. destruct (Hc 1%positive 4%positive 2%positive) as [_ Htrans].
    + left.
    + right. left.
    + right. right. left.
    + rewrite H14, H42, H12 in Htrans. lia.
Qed.

Lemma comparison_is_antisymmetric_but_blind_to_nan_witness :
  _bench_compare_measurement idle_heap 4%positive 3%positive = 0.
Proof.
  destruct comparison_is_antisymmetric_but_blind_to_nan as (_ & Hnan & Hidle & _).
  apply (Hnan idle_heap 4%positive 3%positive Hidle).
Defined.

(** ** Integer fields and exact throughput *)

Lemma push_all_total {F} `{FloatOps F} (ds : list Z) :
  total (push_all ds) = wrap64 (sum_Z ds).
Proof.
  unfold push_all. rewrite fold_push_total by (cbn; lia). reflexivity.
Qed.

Lemma sum_list_Zc (ds : list Z) : sum_list (Zc <$> ds) = Zc (sum_Z ds).
Proof.
  induction ds as [|d ds IH]; [reflexivity|].
  cbn [fmap list_fmap sum_list foldr sum_Z]. fold (sum_list (Zc <$> ds)). fold (sum_Z ds).
  rewrite IH, Zc_add. reflexivity.
Qed.

(** X14.  Whatever the arithmetic of the [float] fields, after any sequence of
    pushes [total] is the sum of the durations modulo 2^64 and [count] their
    number modulo 2^32.  In exact arithmetic, for durations whose sum is
    positive and below 2^64 and whose number is below 2^32, the throughput
    and the mean printed on a summary line are reciprocal: their product is
    10^9, the number of nanoseconds in a second. *)
Theorem throughput_is_reciprocal_of_mean :
  (forall (F : Type) (ops : FloatOps F) (ds : list Z),
      total (push_all ds) = wrap64 (sum_Z ds)
      /\ count (push_all ds) = wrap32 (Z.of_nat (length ds)))
  /\ (forall ds : list Z,
         0 < sum_Z ds < 2 ^ 64 -> Z.of_nat (length ds) < 2 ^ 32 ->
         (bench_stats_ops_per_sec (push_all (F := Qc) ds) * mean (push_all (F := Qc) ds)
          = Zc (10 ^ 9))%Qc).
Proof.
  split.
  - intros F ops ds. split; [apply push_all_total|apply push_all_count].
  - intros ds Hsum Hlen.
    assert (Hn : 1 <= Z.of_nat (length ds)).
    { destruct ds as [|d ds]; [cbn in Hsum; lia|cbn [length]; lia]. }
    destruct (welford_exact ds) as [Hmean _]; [lia|].
    rewrite Hmean. unfold bench_stats_ops_per_sec, arithmetic_mean.
    rewrite push_all_total, push_all_count, sum_list_Zc.
    rewrite wrap64_small by lia. unfold wrap32. rewrite Z.mod_small by lia.
    cbn [of_Z fmul fdiv rational].
    fold (Zc (Z.of_nat (length ds))). fold (Zc (sum_Z ds)). fold (Zc NANOS). fold (Zc 1000).
    change (10 ^ 9) with (1 * 1000 * 1000 * 1000). unfold NANOS.
    rewrite !Zc_mul, Zc_1. field. split; apply Zc_nonzero; lia.
Qed.

Lemma throughput_is_reciprocal_of_mean_witness :
  (bench_stats_ops_per_sec (push_all (F := Qc) [250000000; 750000000])
   * mean (push_all (F := Qc) [250000000; 750000000]) = Zc (10 ^ 9))%Qc.
Proof.
  destruct throughput_is_reciprocal_of_mean as [_ H].
  apply H; cbn; lia.
Defined.

(** X15.  In exact arithmetic two pushes commute: the statistics do not
    depend on the order in which two durations arrive (as long as the
    counter does not wrap).  In binary32 they do: pushing 123456789 and
    987654321 in the two orders gives the same mean but two different
    values of [d_squared], and two different standard deviations. *)
Theorem pushes_commute_only_in_exact_arithmetic :
  (forall (s : bench_stats_t Qc) (a b : Z),
      0 <= count s -> count s + 2 < 2 ^ 32 ->
      bench_stats_push (bench_stats_push s a) b
      = bench_stats_push (bench_stats_push s b) a)
  /\ (let s1 := push_all (F := float) [123456789; 987654321] in
      let s2 := push_all (F := float) [987654321; 123456789] in
      mean s1 = mean s2 /\ d_squared s1 <> d_squared s2
      /\ bench_stats_stddev s1 <> bench_stats_stddev s2).
Proof.
  split.
  - intros s a b Hc0 Hc.
    destruct s as [c t m d]. cbn [count] in Hc0, Hc.
    unfold bench_stats_push. cbn [count total mean d_squared].
    assert (H1 : wrap32 (c + 1) = c + 1) by (unfold wrap32; apply Z.mod_small; lia).
    assert (H2 : wrap32 (c + 1 + 1) = c + 2)
      by (unfold wrap32; rewrite Z.mod_small by lia; lia).
    rewrite !H1, !H2. rewrite !wrap64_add_l.
    cbn [of_Z fadd fsub fmul fdiv rational]. fold (Zc a) (Zc b) (Zc (c + 1)) (Zc (c + 2)).
    assert (N1 : Zc (c + 1) <> 0%Qc) by (apply Zc_nonzero; lia).
    assert (N2 : Zc (c + 2) <> 0%Qc) by (apply Zc_nonzero; lia).
    replace (Zc (c + 2)) with (Zc (c + 1) + 1)%Qc in *
      by (rewrite <- Zc_1, <- Zc_add; f_equal; lia).
    f_equal.
    + f_equal. lia.
    + field. split; assumption.
    + field. split; assumption.
  - vm_compute. split; [reflexivity|]. split; discriminate.
Qed.

Lemma pushes_commute_only_in_exact_arithmetic_witness :
  push_all (F := Qc) [3; 5] = push_all (F := Qc) [5; 3].
Proof.
  destruct pushes_commute_only_in_exact_arithmetic as [H _].
  apply (H bench_stats_init 3 5); cbn; lia.
Defined.

(** ** Failure paths of [bench_create] and [bench_group] *)

Lemma bench_create_refused
  (nm : string) (o : FILE) (ind : Z) (d : pointer) (w : world) :
  (w_alloc w (w_allocs w) = false -> bench_create nm o ind d w = Undefined)
  /\ (w_alloc w (w_allocs w) = true -> w_alloc w (S (S (w_allocs w))) = false ->
      bench_create nm o ind d w = Done None (set_allocs (3 + w_allocs w) w)).
Proof.
  split.
  - intros H0. unfold bench_create. unfold bind at 1. cbn [allocate]. rewrite H0.
    reflexivity.
  - intros H0 H2. unfold bench_create, strdup, bench_array_init, bench_array_resize.
    unfold bind at 1. cbn [allocate]. rewrite H0. cbn [negb].
    unfold bind at 1. unfold bind at 1. cbn [allocate set_allocs w_alloc w_allocs ret].
    unfold bind at 1. cbn [size Z.ltb Z.compare]. unfold bind at 1.
    cbn [allocate set_allocs w_alloc w_allocs ret]. rewrite H2. cbn [negb ret].
    reflexivity.
Qed.

(** X16.  The failure paths of [bench_create].  When the [malloc] of the
    suite fails, the next statement writes through the NULL pointer.  When
    the buffer of the array cannot be allocated, [bench_create] returns NULL
    after three requests to the allocator, having printed nothing and
    leaving the heap of measurements as it was, whether or not the copy of
    the name could be made. *)
Theorem bench_create_failure_modes
  (nm : string) (o : FILE) (ind : Z) (d : pointer) (w : world) :
  (w_alloc w (w_allocs w) = false -> bench_create nm o ind d w = Undefined)
  /\ (w_alloc w (w_allocs w) = true -> w_alloc w (S (S (w_allocs w))) = false ->
      bench_create nm o ind d w = Done None (set_allocs (3 + w_allocs w) w)
      /\ w_output (set_allocs (3 + w_allocs w) w) = w_output w
      /\ w_heap (set_allocs (3 + w_allocs w) w) = w_heap w).
Proof.
  destruct (bench_create_refused nm o ind d w) as [H0 H2].
  split; [exact H0|]. intros A0 A2. split; [apply H2; assumption|]. split; reflexivity.
Qed.

Lemma bench_create_failure_modes_witness :
  bench_create "bench" 1 0 0 (start_world slow_clock never) = Undefined
  /\ bench_create "bench" 1 0 0 (start_world slow_clock third_refused)
     = Done None (set_allocs 3 (start_world slow_clock third_refused)).
Proof.
  split.
  - destruct (bench_create_failure_modes "bench" 1 0 0 (start_world slow_clock never))
      as [H _].
    apply H. reflexivity.
  - destruct (bench_create_failure_modes "bench" 1 0 0
                (start_world slow_clock third_refused)) as [_ H].
    apply H; reflexivity.
Defined.

(** X17.  [bench_group] has no error path: when the indentation of the child
    overflows [int], when the child suite cannot be allocated, and when
    [bench_create] returns NULL because the array could not be allocated
    (the group function and [bench_compare] are then called with NULL), the
    behaviour is undefined. *)
Theorem bench_group_has_no_error_path
  (qsort : (addr -> addr -> Z) -> list addr -> list addr)
  (b : bench_t) (nm : string) (fn : bench_group_fn) (ptr : pointer) (w : world) :
  (INT_MAX < indent b + 2 -> bench_group qsort b nm fn ptr w = Undefined)
  /\ (w_alloc w (w_allocs w) = false -> bench_group qsort b nm fn ptr w = Undefined)
  /\ (w_alloc w (S (S (w_allocs w))) = false ->
      bench_group qsort b nm fn ptr w = Undefined).
Proof.
  assert (Hfail : w_alloc w (w_allocs w) = false -> bench_group qsort b nm fn ptr w = Undefined).
  { intros H0. unfold bench_group. destruct (INT_MAX <? indent b + 2); [reflexivity|].
    unfold bind at 1.
    destruct (bench_create_refused nm (out b) (indent b + 2) ptr w) as [Hc _].
    rewrite Hc by exact H0. reflexivity. }
  split; [|split; [exact Hfail|]].
  - intros Hover. unfold bench_group. ltb_true INT_MAX (indent b + 2). reflexivity.
  - intros H2. destruct (w_alloc w (w_allocs w)) eqn:H0; [|apply Hfail; reflexivity].
    unfold bench_group. destruct (INT_MAX <? indent b + 2); [reflexivity|].
    unfold bind at 1.
    destruct (bench_create_refused nm (out b) (indent b + 2) ptr w) as [_ Hc].
    rewrite Hc by assumption. reflexivity.
Qed.

Lemma bench_group_has_no_error_path_witness :
  bench_group insertion_sort (fresh_suite SECONDS) "publish"
              (measure_all 5 ["fast"; "slow"]) 0
              (start_world slow_clock third_refused)
  = Undefined.
Proof.
  destruct (bench_group_has_no_error_path insertion_sort (fresh_suite SECONDS) "publish"
              (measure_all 5 ["fast"; "slow"]) 0
              (start_world slow_clock third_refused)) as (_ & _ & H).
  apply H. reflexivity.
Defined.


(** ** The two bodies of [bench_now] *)

Lemma long_result_in (z : Z) : LONG_MIN <= z <= LONG_MAX -> long_result z = Some z.
Proof.
  intros Hz. unfold long_result.
  replace (LONG_MIN <=? z) with true by (symmetry; apply Z.leb_le; lia).
  replace (z <=? LONG_MAX) with true by (symmetry; apply Z.leb_le; lia).
  reflexivity.
Qed.

Lemma long_result_out (z : Z) : LONG_MAX < z -> long_result z = None.
Proof.
  intros Hz. unfold long_result.
  replace (z <=? LONG_MAX) with false by (symmetry; apply Z.leb_gt; lia).
  rewrite andb_false_r. reflexivity.
Qed.

Lemma timespec_nanoseconds_value (t : timespec) :
  normalized t -> tv_sec t <= 9223372035 ->
  timespec_nanoseconds t = Some (tv_sec t * 1000000000 + tv_nsec t).
Proof.
  intros [Hs Hn] Hmax. unfold timespec_nanoseconds, NANOS.
  unfold LONG_MIN, LONG_MAX in *.
  rewrite long_result_in by (unfold LONG_MIN, LONG_MAX; lia). cbn [mbind option_bind].
  rewrite long_result_in by (unfold LONG_MIN, LONG_MAX; lia). cbn [mbind option_bind].
  rewrite long_result_in by (unfold LONG_MIN, LONG_MAX; lia). cbn [mbind option_bind].
  rewrite long_result_in by (unfold LONG_MIN, LONG_MAX; lia). cbn [mbind option_bind].
  rewrite long_result_in by (unfold LONG_MIN, LONG_MAX; lia). cbn [mbind option_bind].
  f_equal. unfold wrap64. rewrite Z.mod_small by lia. lia.
Qed.

(** X18.  The POSIX body of [bench_now].  For a normalized [timespec] of at
    most 9223372035 seconds the conversion does not overflow and is exact:
    the result is [tv_sec * 10^9 + tv_nsec], from which both fields can be
    read back.  It preserves the order of the readings, so the difference of
    a later and an earlier reading, as [bench_measure] takes it, is the time
    elapsed.  From 9223372037 seconds on the multiplication overflows
    [long]. *)
Theorem timespec_conversion_is_exact_and_monotone :
  (forall t : timespec,
      normalized t -> tv_sec t <= 9223372035 ->
      exists ns : Z,
        timespec_nanoseconds t = Some ns
        /\ ns = tv_sec t * 10 ^ 9 + tv_nsec t
        /\ ns / 10 ^ 9 = tv_sec t /\ ns mod 10 ^ 9 = tv_nsec t)
  /\ (forall (t1 t2 : timespec) (n1 n2 : Z),
         normalized t1 -> normalized t2 -> tv_sec t2 <= 9223372035 ->
         timespec_le t1 t2 ->
         timespec_nanoseconds t1 = Some n1 -> timespec_nanoseconds t2 = Some n2 ->
         n1 <= n2
         /\ wrap64 (n2 - n1)
            = (tv_sec t2 - tv_sec t1) * 10 ^ 9 + (tv_nsec t2 - tv_nsec t1))
  /\ (forall t : timespec, 9223372037 <= tv_sec t -> timespec_nanoseconds t = None).
Proof.
  change (10 ^ 9) with 1000000000.
  split; [|split].
  - intros t Hn Hmax. exists (tv_sec t * 1000000000 + tv_nsec t).
    split; [apply timespec_nanoseconds_value; assumption|]. split; [reflexivity|].
    destruct Hn as [Hs Hn].
    split.
    + rewrite Z.add_comm, Z.div_add by lia. rewrite Z.div_small by lia. lia.
    + rewrite Z.add_comm, Z.mod_add by lia. apply Z.mod_small. lia.
  - intros t1 t2 n1 n2 H1 H2 Hmax Hle E1 E2.
    assert (Hmax1 : tv_sec t1 <= 9223372035) by (destruct Hle; lia).
    rewrite timespec_nanoseconds_value in E1 by assumption.
    rewrite timespec_nanoseconds_value in E2 by assumption.
    injection E1 as <-. injection E2 as <-.
    destruct H1 as [Hs1 Hn1], H2 as [Hs2 Hn2].
    assert (Hord : tv_sec t1 * 1000000000 + tv_nsec t1
                   <= tv_sec t2 * 1000000000 + tv_nsec t2) by (destruct Hle; lia).
    split; [exact Hord|]. unfold wrap64. rewrite Z.mod_small by lia. lia.
  - intros t Hbig. unfold timespec_nanoseconds, NANOS.
    destruct (long_result (tv_sec t * 1)) as [a|] eqn:Ea; [|reflexivity].
    cbn [mbind option_bind].
    assert (a = tv_sec t * 1) as ->.
    { unfold long_result in Ea. destruct (_ && _); congruence. }
    destruct (long_result (tv_sec t * 1 * 1000)) as [b|] eqn:Eb; [|reflexivity].
    cbn [mbind option_bind].
    assert (b = tv_sec t * 1 * 1000) as ->.
    { unfold long_result in Eb. destruct (_ && _); congruence. }
    destruct (long_result (tv_sec t * 1 * 1000 * 1000)) as [c|] eqn:Ec; [|reflexivity].
    cbn [mbind option_bind].
    assert (c = tv_sec t * 1 * 1000 * 1000) as ->.
    { unfold long_result in Ec. destruct (_ && _); congruence. }
    rewrite long_result_out by (unfold LONG_MAX; lia). reflexivity.
Qed.

Lemma timespec_conversion_is_exact_and_monotone_witness :
  timespec_nanoseconds (mk_timespec 12 345678901) = Some 12345678901.
Proof.
  destruct timespec_conversion_is_exact_and_monotone as (H & _ & _).
  destruct (H (mk_timespec 12 345678901)) as (ns & -> & -> & _).
  - unfold normalized. cbn. lia.
  - cbn. lia.
  - reflexivity.
Defined.

(** X19.  The Mach body of [bench_now].  With the [timebase] still zeroed the
    conversion divides by zero.  With a filled one it is the number of ticks
    times [numer / denom], rounded down, and monotone, as long as
    [ticks * numer] stays below 2^64; beyond, the product wraps: with the
    timebase 125/3, the tick after 147573952589676412 is converted to 3
    nanoseconds. *)
Theorem mach_conversion_needs_a_timebase :
  (forall ticks numer : Z, mach_nanoseconds ticks (mk_timebase numer 0) = None)
  /\ (forall (ticks : Z) (tb : mach_timebase_info_data_t),
         0 < denom tb -> 0 <= numer tb -> 0 <= ticks -> ticks * numer tb < 2 ^ 64 ->
         mach_nanoseconds ticks tb = Some (ticks * numer tb / denom tb))
  /\ (forall (t1 t2 : Z) (tb : mach_timebase_info_data_t) (n1 n2 : Z),
         0 < denom tb -> 0 <= numer tb -> 0 <= t1 <= t2 -> t2 * numer tb < 2 ^ 64 ->
         mach_nanoseconds t1 tb = Some n1 -> mach_nanoseconds t2 tb = Some n2 ->
         n1 <= n2)
  /\ (mach_nanoseconds 147573952589676412 (mk_timebase 125 3) = Some 6148914691236517166
      /\ mach_nanoseconds 147573952589676413 (mk_timebase 125 3) = Some 3).
Proof.
  assert (Hval : forall (ticks : Z) (tb : mach_timebase_info_data_t),
             0 < denom tb -> 0 <= numer tb -> 0 <= ticks -> ticks * numer tb < 2 ^ 64 ->
             mach_nanoseconds ticks tb = Some (ticks * numer tb / denom tb)).
  { intros ticks tb Hd Hn Ht Hsmall. unfold mach_nanoseconds.
    replace (denom tb =? 0) with false by (symmetry; apply Z.eqb_neq; lia).
    unfold wrap64. rewrite Z.mod_small by nia. reflexivity. }
  split; [reflexivity|]. split; [exact Hval|]. split; [|split; reflexivity].
  intros t1 t2 tb n1 n2 Hd Hn Ht Hsmall E1 E2.
  rewrite Hval in E1 by nia. rewrite Hval in E2 by nia.
  injection E1 as <-. injection E2 as <-.
  apply Z.div_le_mono; [lia|nia].
Qed.

Lemma mach_conversion_needs_a_timebase_witness :
  mach_nanoseconds 24000000 (mk_timebase 125 3) = Some 1000000000.
Proof.
  destruct mach_conversion_needs_a_timebase as (_ & H & _).
  rewrite H; cbn; try lia. reflexivity.
Defined.

(** ** More on the formatter *)

(** What the loop of [bench_human_number] leaves behind, when it ends. *)
Lemma human_loop_post (fuel : nat) (cap : Z) : forall (number : float) (level : Z)
  (v : float) (level' : Z),
  level <= cap ->
  human_loop fuel cap number level = Some (v, level') ->
  level <= level' <= cap + 1
  /\ (fge v (f32_of_Z 1000) = true <-> level' = cap + 1)
  /\ (fge number (f32_of_Z 1000) = false -> v = number /\ level' = level).
Proof.
  induction fuel as [|fuel IH]; intros number level v level' Hlevel Hrun; [discriminate|].
  rewrite human_loop_S in Hrun.
  destruct (fge number (f32_of_Z 1000)) eqn:Hge.
  - destruct (level + 1 <=? cap) eqn:Hcap.
    + apply Z.leb_le in Hcap. apply IH in Hrun as (Hl & Hv & _); [|lia].
      split; [lia|]. split; [exact Hv|discriminate].
    + apply Z.leb_gt in Hcap. injection Hrun as <- <-.
      split; [lia|]. split; [|discriminate]. split; [lia|intros _; exact Hge].
  - injection Hrun as <- <-. split; [lia|]. split; [|auto].
    rewrite Hge. split; [discriminate|lia].
Qed.

(** X20.  [bench_human_number] always prints: the loop ends within six
    tests.  The value it hands to the [%.2f] conversion compares below 1000
    unless the unit is the largest one ("s" for a time, "t" otherwise), which
    is chosen exactly when the value is still at least 1000 after three
    (four) divisions; a number that does not compare at least 1000 to begin
    with (a small or negative number, a NaN) is passed on as it is, in
    nanoseconds or without a suffix.  The bound is on the value, not on the
    two decimals printed: 999999 is scaled to 999.999, which is printed as
    1000.00k. *)
Theorem scaled_number_is_below_1000 (number : float) (time : bool) :
  exists (v : float) (level : Z),
    human_loop human_fuel (if time then 3 else 4) number 0 = Some (v, level)
    /\ bench_human_number number time
       = fmt_f2 v +:+ (if time then time_suffix level else count_suffix level)
    /\ 0 <= level <= (if time then 4 else 5)
    /\ (fge v (f32_of_Z 1000) = true <-> level = (if time then 4 else 5))
    /\ (fge number (f32_of_Z 1000) = false -> v = number /\ level = 0)
    /\ time_suffix 4 = time_suffix 3 /\ count_suffix 5 = count_suffix 4
    /\ human_loop human_fuel 4 (f32_of_Z 999999) 0
       = Some (fdiv (f32_of_Z 999999) (f32_of_Z 1000), 1)
    /\ fge (fdiv (f32_of_Z 999999) (f32_of_Z 1000)) (f32_of_Z 1000) = false
    /\ bench_human_number (f32_of_Z 999999) false = "1000.00k".
Proof.
  pose proof (human_loop_total 0 number time) as Htotal.
  rewrite Nat.add_0_r in Htotal. unfold bench_human_number_fuel in Htotal.
  destruct (human_loop human_fuel (if time then 3 else 4) number 0) as [[v level]|] eqn:Hloop;
    [|discriminate].
  exists v, level. split; [reflexivity|].
  split.
  { unfold bench_human_number, bench_human_number_fuel. rewrite Hloop. reflexivity. }
  apply human_loop_post in Hloop as (Hl & Hv & H0); [|destruct time; lia].
  split; [destruct time; lia|].
  split; [destruct time; exact Hv|]. split; [exact H0|].
  split; [reflexivity|]. split; [reflexivity|].
  split; [vm_compute; reflexivity|]. split; vm_compute; reflexivity.
Qed.

Lemma digits_small (p : positive) : Zpos p < 2 ^ 24 -> Zpos (digits2_pos p) <= 24.
Proof.
  intros Hp. pose proof (digits2_pos_bounds p) as [Hlo _].
  destruct (Z.le_gt_cases (Zpos (digits2_pos p)) 24) as [|Hgt]; [assumption|].
  assert (2 ^ 24 <= 2 ^ (Zpos (digits2_pos p) - 1)) by (apply Z.pow_le_mono_r; lia).
  lia.
Qed.

(** An integer of at most 24 bits is printed as itself. *)
Lemma fmt_f2_of_Z (z : Z) : 0 <= z < 2 ^ 24 -> fmt_f2 (f32_of_Z z) = dec z +:+ ".00".
Proof.
  intros Hz. destruct z as [|p|p]; [reflexivity| |lia].
  destruct (of_Z_small p (digits_small p (proj2 Hz))) as (m & e & Hr & _ & He & Hm).
  unfold f32_of_Z, f32_prec, f32_emax. rewrite Hr. unfold fmt_f2, sign_string.
  assert (Hh : hundredths m e = Zpos p * 100).
  { unfold hundredths. destruct (0 <=? e) eqn:E.
    - apply Z.leb_le in E. assert (e = 0) as -> by lia.
      change (2 ^ (- 0)) with 1 in Hm. change (2 ^ 0) with 1. lia.
    - assert (Hpow : 0 < 2 ^ (- e)) by (apply Z.pow_pos_nonneg; lia).
      rewrite Hm.
      replace (Zpos p * 2 ^ (- e) * 100) with (Zpos p * 100 * 2 ^ (- e)) by ring.
      rewrite Z.div_mul by lia. rewrite Z.mod_mul by lia.
      change (2 * 0) with 0.
      destruct (0 ?= 2 ^ (- e)) eqn:C; try reflexivity.
      + apply Z.compare_eq in C. lia.
      + apply Z.compare_gt_iff in C. lia. }
  rewrite Hh. rewrite Z.div_mul by lia. rewrite Z.mod_mul by lia.
  reflexivity.
Qed.

Lemma below_1000 (z : Z) : 0 <= z < 1000 -> fge (f32_of_Z z) (f32_of_Z 1000) = false.
Proof.
  intros Hz. unfold fge.
  destruct (SFcompare_rank (f32_of_Z 1000) (f32_of_Z z)) as [_ Hle].
  { reflexivity. }
  { destruct z as [|p|p]; [reflexivity| |lia].
    destruct (of_Z_small p) as (m & e & Hr & _); [apply digits_small; lia|].
    unfold f32_of_Z, f32_prec, f32_emax. rewrite Hr. reflexivity. }
  destruct (SFleb (f32_of_Z 1000) (f32_of_Z z)) eqn:E; [|reflexivity].
  exfalso. apply Hle; [reflexivity|].
  destruct z as [|p|p]; [vm_compute; left; reflexivity| |lia].
  destruct (of_Z_small p) as (m & e & Hr & Hd & He & Hm); [apply digits_small; lia|].
  unfold f32_of_Z, f32_prec, f32_emax. rewrite Hr.
  change (f_rank (binary_normalize 24 128 1000 0 false)) with (1, -14, 16384000).
  cbn [f_rank rank_lt]. right. split; [reflexivity|].
  pose proof (digits2_pos_bounds m) as [Hlo _]. rewrite Hd in Hlo.
  change (2 ^ (24 - 1)) with 8388608 in Hlo.
  destruct (Z.lt_trichotomy e (-14)) as [Hlt|[Heq|Hgt]]; [left; exact Hlt| |].
  - right. split; [exact Heq|]. rewrite Hm, Heq. change (2 ^ (- -14)) with 16384. lia.
  - exfalso. assert (2 ^ (- e) <= 2 ^ 13) by (apply Z.pow_le_mono_r; lia).
    change (2 ^ 13) with 8192 in *.
    assert (0 < 2 ^ (- e)) by (apply Z.pow_pos_nonneg; lia). nia.
Qed.

(** X21.  An integer below 1000 is printed by [bench_human_number] as
    itself with two zero decimals, followed by "ns" when it is a time. *)
Theorem small_integers_are_printed_exactly (z : Z) (time : bool) (Hz : 0 <= z < 1000) :
  bench_human_number (f32_of_Z z) time = dec z +:+ ".00" +:+ (if time then "ns" else "").
Proof.
  unfold bench_human_number, bench_human_number_fuel, human_fuel.
  rewrite human_loop_S. rewrite below_1000 by exact Hz.
  cbn [from_option id]. rewrite fmt_f2_of_Z by lia.
  destruct time; cbn [time_suffix count_suffix]; rewrite string_app_assoc; reflexivity.
Qed.

Lemma small_integers_are_printed_exactly_witness :
  bench_human_number (f32_of_Z 278) true = "278.00ns".
Proof. apply (small_integers_are_printed_exactly 278 true). lia. Defined.

(** ** The workload of the example *)

Lemma fib_SS (k : nat) : fib (S (S k)) = fib (S k) + fib k.
Proof.
  unfold fib. cbn [fib_pair]. destruct (fib_pair k) as [a b]. cbn [fst]. lia.
Qed.

Lemma fib_mono (k : nat) : 0 <= fib k <= fib (S k).
Proof.
  induction k as [|k IH]; [vm_compute; split; discriminate|].
  rewrite fib_SS. lia.
Qed.

Lemma fib_le (j k : nat) : (j <= k)%nat -> fib j <= fib k.
Proof.
  induction 1 as [|k _ IH]; [lia|]. pose proof (fib_mono k). lia.
Qed.

Lemma fibo_S (fuel : nat) (n : Z) :
  fibo (S fuel) n
  = if n <? 2 then ret n
    else
      let* x := fibo fuel (n - 1) in
      let* y := fibo fuel (n - 2) in
      if (INT_MIN <=? x + y) && (x + y <=? INT_MAX) then ret (x + y) else undefined.
Proof. reflexivity. Qed.

Lemma fibo_value (k : nat) : forall (fuel : nat) (w : world),
  (k <= 46)%nat -> (k < fuel)%nat ->
  fibo fuel (Z.of_nat k) w = Done (fib k) w
  /\ (forall fuel', (S k <= 46)%nat -> (S k < fuel')%nat ->
        fibo fuel' (Z.of_nat (S k)) w = Done (fib (S k)) w).
Proof.
  induction k as [|k IH]; intros fuel w Hk Hfuel.
  - split.
    + destruct fuel as [|fuel]; [lia|]. reflexivity.
    + intros fuel' _ Hf. destruct fuel' as [|fuel']; [lia|]. reflexivity.
  - destruct (IH (S k) w) as [_ IH1]; [lia|lia|].
    split; [apply IH1; lia|].
    intros fuel' Hk' Hf. destruct fuel' as [|fuel']; [lia|].
    rewrite fibo_S. ltb_false (Z.of_nat (S (S k))) 2.
    replace (Z.of_nat (S (S k)) - 1) with (Z.of_nat (S k)) by lia.
    replace (Z.of_nat (S (S k)) - 2) with (Z.of_nat k) by lia.
    unfold bind at 1. rewrite IH1 by lia.
    unfold bind at 1. destruct (IH fuel' w) as [IH0 _]; [lia|lia|]. rewrite IH0.
    rewrite <- fib_SS.
    pose proof (fib_le (S (S k)) 46 Hk') as Hmax.
    pose proof (fib_mono (S (S k))) as Hpos.
    change (fib 46) with 1836311903 in Hmax.
    replace (INT_MIN <=? fib (S (S k))) with true
      by (symmetry; apply Z.leb_le; unfold INT_MIN; lia).
    replace (fib (S (S k)) <=? INT_MAX) with true
      by (symmetry; apply Z.leb_le; unfold INT_MAX; lia).
    reflexivity.
Qed.

Lemma fibo_overflow (k : nat) : forall (fuel : nat) (w : world),
  (47 + k < fuel)%nat -> fibo fuel (Z.of_nat (47 + k)) w = Undefined.
Proof.
  induction k as [|k IH]; intros fuel w Hfuel; (destruct fuel as [|fuel]; [lia|]);
    rewrite fibo_S.
  - ltb_false (Z.of_nat (47 + 0)) 2.
    replace (Z.of_nat (47 + 0) - 1) with (Z.of_nat 46) by lia.
    replace (Z.of_nat (47 + 0) - 2) with (Z.of_nat 45) by lia.
    unfold bind at 1. destruct (fibo_value 46 fuel w) as [-> _]; [lia|lia|].
    unfold bind at 1. destruct (fibo_value 45 fuel w) as [-> _]; [lia|lia|].
    reflexivity.
  - ltb_false (Z.of_nat (47 + S k)) 2.
    replace (Z.of_nat (47 + S k) - 1) with (Z.of_nat (47 + k)) by lia.
    unfold bind at 1. rewrite IH by lia. reflexivity.
Qed.

(** X22.  [fibo] of the example returns its argument below 2, and the
    Fibonacci number [fib n] for every [n] from 0 to 46, without overflow;
    from 47 on the addition overflows [int].  The two workloads of the
    example, [fibo(5)] and [fibo(10)], return 5 and 55. *)
Theorem fibo_is_fibonacci_up_to_46 :
  (forall (fuel : nat) (n : Z) (w : world), n < 2 -> fibo (S fuel) n w = Done n w)
  /\ (forall (fuel k : nat) (w : world),
         (k <= 46)%nat -> (k < fuel)%nat -> fibo fuel (Z.of_nat k) w = Done (fib k) w)
  /\ (forall (k : nat), fib (S (S k)) = fib (S k) + fib k)
  /\ (forall (fuel : nat) (n : Z) (w : world),
         47 <= n -> (Z.to_nat n < fuel)%nat -> fibo fuel n w = Undefined)
  /\ fib 5 = 5 /\ fib 10 = 55 /\ fib 46 = 1836311903
  /\ fib 46 <= INT_MAX < fib 47.
Proof.
  split.
  { intros fuel n w Hn. rewrite fibo_S. ltb_true n 2. reflexivity. }
  split.
  { intros fuel k w Hk Hfuel. apply fibo_value; assumption. }
  split; [exact fib_SS|].
  split.
  { intros fuel n w Hn Hfuel.
    replace n with (Z.of_nat (47 + (Z.to_nat n - 47))) by lia.
    apply fibo_overflow. lia. }
  vm_compute. repeat split; discriminate.
Qed.

Lemma fibo_is_fibonacci_up_to_46_witness :
  fibo 11 10 (start_world slow_clock always) = Done 55 (start_world slow_clock always).
Proof.
  destruct fibo_is_fibonacci_up_to_46 as (_ & H & _).
  apply (H 11%nat 10%nat); lia.
Defined.


(** ** When the name of a measurement cannot be copied *)

(** The loop of [bench_compare] prints the name of every entry with [%s]. *)
Lemma compare_loop_null_name (b : bench_t) (bad : addr) (l : list addr) :
  forall (first : option (bench_stats_t float)) (w : world),
  bad ∈ l ->
  (exists m, w_heap w !! bad = Some m /\ m_name m = None) ->
  compare_loop b first (Some <$> l) w = Undefined.
Proof.
  induction l as [|a l IH]; intros first w Hin Hbad; [inversion Hin|].
  cbn [fmap list_fmap compare_loop]. fold (Some <$> l).
  unfold bind at 1. unfold compare_entry. unfold bind at 1. unfold load.
  destruct (w_heap w !! a) as [m|] eqn:Hm; [|reflexivity].
  erewrite bind_run by apply print_indent_run.
  destruct (m_name m) as [s|] eqn:Hs.
  - assert (Hin' : bad ∈ l).
    { apply elem_of_cons in Hin as [->|Hin]; [|exact Hin].
      destruct Hbad as (m' & Hm' & Hnone). congruence. }
    destruct first as [f|]; cbn [fprintf_s]; rewrite !bind_fprintf; unfold ret;
      apply IH; try exact Hin'; exact Hbad.
  - destruct first as [f|]; reflexivity.
Qed.

(** X23.  [bench_measure] does not notice when the copy of the name cannot
    be allocated: on a suite ready to be compared, with a ticking clock and
    an allocator that grants the measurement (and the larger buffer, should
    the array be full) but not the copy, it still returns 0, prints the
    summary line with the name it was given and leaves the measurement in
    the suite with a NULL name.  [bench_compare] on the suite it returns is
    then undefined if the suite held a measurement before (the ranking prints
    every name with [%s]); if the measurement is the only one, nothing is
    ranked and [bench_compare] just frees it. *)
Theorem lost_name_surfaces_in_bench_compare
  (qsort : (addr -> addr -> Z) -> list addr -> list addr)
  (b : bench_t) (nm : string) (w : world) (ptrs : list addr)
  (Hq : qsort_contract qsort)
  (Hok : array_ok (measurements b))
  (Hsmall : capacity (measurements b) < 2 ^ 60)
  (Hready : suite_ready b w ptrs)
  (Hfresh : heap_fresh w)
  (Hmalloc : w_alloc w (w_allocs w) = true)
  (Hstrdup : w_alloc w (S (w_allocs w)) = false)
  (Hroom : size (measurements b) < capacity (measurements b)
           \/ w_alloc w (S (S (w_allocs w))) = true)
  (Hclock : ticking (w_clock w))
  (Htarget : 1 <= target_time b <= 2 ^ 63) :
  exists (n : nat) (b' : bench_t) (w' : world) (s : bench_stats_t float),
    (forall fuel, (n < fuel)%nat -> bench_measure fuel b nm w = Done (0, b') w')
    /\ w_heap w' = <[w_next w := {| m_name := None; stats := s |}]> (w_heap w)
    /\ live_entries (measurements b') = Some <$> (ptrs ++ [w_next w])
    /\ contents (out b) w'
       = contents (out b) w +:+ spaces (Z.to_nat (indent b)) +:+ nm +:+ " - "
         +:+ bench_stats_print s +:+ "
"
    /\ (ptrs <> [] -> bench_compare qsort b' w' = Undefined)
    /\ (ptrs = [] ->
        exists w'', bench_compare qsort b' w' = Done tt w''
                    /\ w_heap w'' = w_heap w
                    /\ w_output w'' = w_output w').
Proof.
  destruct (bench_measure_run b nm w Hok Hmalloc Hroom Hclock Htarget)
    as (n & array & buf & Hn & _ & _ & Hrun & Hsize & _ & Hbuf & _ & Hlive
        & Htot & _ & Hreach & Hmax).
  destruct Hready as (buf0 & Hbuf0 & Hsz & Htake & Hlen & Hnd & Hvalid).
  set (s := push_all (F := float) (samples (w_clock w) (S (w_ticks w)) n)) in *.
  assert (Hheap : w_heap (after_measure b nm n w)
                  = <[w_next w := {| m_name := None; stats := s |}]> (w_heap w)).
  { unfold after_measure. cbn [w_heap]. rewrite Hstrdup. reflexivity. }
  assert (Hnotin : w_next w ∉ ptrs).
  { intros Hin. destruct (Hvalid _ Hin) as (m & s' & Hm & _).
    rewrite Hfresh in Hm by lia. discriminate. }
  assert (Hlive' : live_entries array = Some <$> (ptrs ++ [w_next w])).
  { rewrite Hlive. unfold live_entries. rewrite Hbuf0. cbn [default from_option id].
    rewrite Htake, fmap_app. reflexivity. }
  assert (Htake' : take (Z.to_nat (size array)) buf = Some <$> (ptrs ++ [w_next w])).
  { rewrite <- Hlive'. unfold live_entries. rewrite Hbuf. reflexivity. }
  assert (Hsome : forall a, a ∈ ptrs ++ [w_next w] ->
                    is_Some (w_heap (after_measure b nm n w) !! a)).
  { intros a Ha. rewrite Hheap. destruct (decide (a = w_next w)) as [->|Hne].
    - rewrite lookup_insert_eq. eauto.
    - rewrite lookup_insert_ne by congruence.
      apply elem_of_app in Ha as [Ha|Ha].
      + destruct (Hvalid a Ha) as (m & s' & Hm & _). eauto.
      + apply list_elem_of_singleton in Ha. contradiction. }
  exists n, (with_measurements b array), (after_measure b nm n w), s.
  split; [exact Hrun|]. split; [exact Hheap|]. split; [exact Hlive'|].
  split; [apply after_measure_contents|].
  split.
  - intros Hne.
    destruct (Hq (_bench_compare_measurement (w_heap (after_measure b nm n w)))
                (ptrs ++ [w_next w])) as [Hperm _].
    { apply compare_measurement_consistent. intros a Ha.
      unfold throughput, deref. rewrite Hheap.
      destruct (decide (a = w_next w)) as [->|Hna].
      - rewrite lookup_insert_eq. cbn [default from_option id stats].
        apply throughput_not_nan. lia.
      - rewrite lookup_insert_ne by congruence.
        apply elem_of_app in Ha as [Ha|Ha].
        + destruct (Hvalid a Ha) as (m & s' & Hm & _ & Hnan). rewrite Hm. exact Hnan.
        + apply list_elem_of_singleton in Ha. contradiction. }
    unfold bench_compare. cbn [with_measurements measurements].
    assert (Hmany : 1 < size array).
    { destruct ptrs; [contradiction|]. cbn [length] in Hlen. lia. }
    ltb_true 1 (size array).
    unfold bind at 1. unfold bind at 1. unfold sort_entries at 1.
    rewrite Hbuf, Htake', (all_valid_pointers _ _ Hsome).
    set (sorted := qsort _ (ptrs ++ [w_next w])) in *.
    set (m' := {| size := _; capacity := _; entries := _ |}).
    assert (Hlive2 : live_entries m' = Some <$> sorted).
    { unfold live_entries, m'. cbn [entries size default from_option id].
      apply take_app_length'.
      rewrite length_fmap, <- (Permutation_length Hperm), length_app, Hlen, Hsize.
      cbn [length]. lia. }
    erewrite bind_run by apply print_indent_run.
    rewrite bind_fprintf. unfold bind at 1.
    rewrite Hlive2.
    rewrite (compare_loop_null_name _ (w_next w)); [reflexivity| |].
    + rewrite <- Hperm. apply elem_of_app. right. apply list_elem_of_singleton. reflexivity.
    + cbn [add_output w_heap]. rewrite Hheap, lookup_insert_eq. eauto.
  - intros ->. cbn [app length] in *.
    unfold bench_compare. cbn [with_measurements measurements].
    ltb_false 1 (size array).
    unfold bind at 1. unfold ret at 1. unfold bench_free.
    cbn [with_measurements measurements]. rewrite Hlive'. cbn [app].
    destruct (for_each_free_run [w_next w] (after_measure b nm n w))
      as (h' & Hfree & Hgone & Hrest).
    { repeat constructor. intros H. inversion H. }
    { exact Hsome. }
    rewrite Hfree. eexists. split; [reflexivity|]. split; [|reflexivity].
    cbn [set_heap w_heap]. apply map_eq. intros a.
    destruct (decide (a = w_next w)) as [->|Hna].
    + rewrite Hgone by (apply list_elem_of_singleton; reflexivity).
      symmetry. apply Hfresh. lia.
    + rewrite Hrest by (rewrite list_elem_of_singleton; exact Hna).
      rewrite Hheap. apply lookup_insert_ne. congruence.
Qed.

Lemma lost_name_surfaces_in_bench_compare_witness :
  exists (n : nat) (b' : bench_t) (w' : world),
    bench_measure (S n) (suite_of [1; 2; 3]%positive) "D"
      (mk_world [] slow_clock 0 second_refused 0 abc_heap 4%positive)
    = Done (0, b') w'
    /\ bench_compare insertion_sort b' w' = Undefined.
Proof.
  destruct (lost_name_surfaces_in_bench_compare insertion_sort
              (suite_of [1; 2; 3]%positive) "D"
              (mk_world [] slow_clock 0 second_refused 0 abc_heap 4%positive)
              [1; 2; 3]%positive insertion_sort_contract)
    as (n & b' & w' & s & Hrun & _ & _ & _ & Hbad & _).
  - eexists. split; [reflexivity|]. cbn. split; [reflexivity|]. lia.
  - cbn. lia.
  - exact abc_ready.
  - intros a Ha. cbn [w_heap w_next] in *. unfold abc_heap.
    rewrite !lookup_insert_ne by lia. apply lookup_singleton_ne. lia.
  - reflexivity.
  - reflexivity.
  - left. cbn. lia.
  - exact slow_clock_ticking.
  - vm_compute. split; discriminate.
  - exists n, b', w'. split; [apply Hrun; lia|]. apply Hbad. discriminate.
Defined.

